(** * Tennis-court booking assistant: persistence store, migrations,
      slot calculator and credential refresh.

    A shallow embedding of
      - [src/database/repository.ts]  (class [BookingRepository]),
      - the migration manager          (class [MigrationManager]),
      - the calendar service           (class [GoogleCalendarService]),
    together with the statements of the specification that concern them. *)

From Stdlib Require Import ZArith Ascii String List Bool Sorted Lia.
From Stdlib Require QArith.
From stdpp Require Import base decidable option list sorting gmap strings.
Import ListNotations.

Local Open Scope Z_scope.

(** ** Failures

    The TypeScript code throws two kinds of values: plain [Error] objects
    built with [new Error(message)], and the [SqliteError] of better-sqlite3,
    which carries a [code] property. *)

Inductive Error : Type :=
| JsError (message : string)
| SqliteError (code : string).

(** [error.code] as read by a [catch] block; [undefined] for a plain Error. *)
Definition error_code (e : Error) : option string :=
  match e with
  | JsError _ => None
  | SqliteError c => Some c
  end.

Inductive result (A : Type) : Type :=
| Ok (a : A)
| Throw (e : Error).
Arguments Ok {A} a.
Arguments Throw {A} e.

(** ** The store monad

    better-sqlite3 runs every statement that is executed outside an explicit
    transaction in auto-commit mode: the statement is durable as soon as
    [run] returns.  [db.transaction(fn)()] runs [fn] between BEGIN and COMMIT
    and rolls back when [fn] throws.  A computation therefore yields its
    result, the final store, and the list of stores that were made durable
    on the way, oldest first. *)

Module Tx.
Section WithStore.
Context {St : Type}.

Record outcome (A : Type) : Type := Outcome {
  value : result A;
  final : St;
  commits : list St
}.
Arguments Outcome {A} _ _ _.
Arguments value {A} _.
Arguments final {A} _.
Arguments commits {A} _.

Definition M (A : Type) : Type := St -> outcome A.

Definition ret {A} (a : A) : M A := fun s => Outcome (Ok a) s [].

Definition throw {A} (e : Error) : M A := fun s => Outcome (Throw e) s [].

Definition bind {A B} (m : M A) (k : A -> M B) : M B := fun s =>
  let o := m s in
  match value o with
  | Ok a =>
      let o' := k a (final o) in
      Outcome (value o') (final o') (commits o ++ commits o')
  | Throw e => Outcome (Throw e) (final o) (commits o)
  end.

(** [try { m } catch (error) { h error }] *)
Definition try_catch {A} (m : M A) (h : Error -> M A) : M A := fun s =>
  let o := m s in
  match value o with
  | Ok a => o
  | Throw e =>
      let o' := h e (final o) in
      Outcome (value o') (final o') (commits o ++ commits o')
  end.

(** A read-only query. *)
Definition query {A} (f : St -> A) : M A := fun s => Outcome (Ok (f s)) s [].

(** One data-modifying statement in auto-commit mode: it either fails and
    leaves the store as it was, or succeeds and is committed at once. *)
Definition stmt {A} (f : St -> result (A * St)) : M A := fun s =>
  match f s with
  | Ok (a, s') => Outcome (Ok a) s' [s']
  | Throw e => Outcome (Throw e) s []
  end.

(** [db.transaction(() => m)()]: the statements of [m] are committed
    together, once, when [m] returns; nothing is committed and the store is
    restored when [m] throws. *)
Definition transaction {A} (m : M A) : M A := fun s =>
  let o := m s in
  match value o with
  | Ok a => Outcome (Ok a) (final o) [final o]
  | Throw e => Outcome (Throw e) s []
  end.

End WithStore.
Arguments outcome : clear implicits.
Arguments M : clear implicits.
Arguments Outcome {St A} _ _ _.
Arguments value {St A} _.
Arguments final {St A} _.
Arguments commits {St A} _.
End Tx.
Import Tx.

Notation "'do' x <- m ; k" := (Tx.bind m (fun x => k))
  (at level 10, x name, m at level 100, k at level 200).
Notation "'exec' m ; k" := (Tx.bind m (fun _ => k))
  (at level 10, m at level 100, k at level 200).

(** ** Bookings and their history (tables [bookings], [booking_history]) *)

(** [status TEXT CHECK (status IN ('active', 'cancelled', 'completed'))] *)
Inductive Status : Type := Active | Cancelled | Completed.

Definition Status_eqb (a b : Status) : bool :=
  match a, b with
  | Active, Active | Cancelled, Cancelled | Completed, Completed => true
  | _, _ => false
  end.

(** A row of [bookings].  Columns declared NOT NULL hold a value, the others
    an optional one; DATETIME columns hold the engine's clock reading. *)
Record Booking : Type := mkBooking {
  id : Z;
  telegramUserId : string;
  username : option string;
  phoneNumber : option string;
  sessionDate : string;
  sessionTime : string;
  googleEventId : option string;
  status : Status;
  notes : option string;
  createdAt : Z;
  updatedAt : Z
}.

(** The argument of [createBooking]:
    [Omit<Booking, 'id' | 'createdAt' | 'updatedAt'>], plus the [notes]
    property that the code reads through [(booking as any).notes]. *)
Record NewBooking : Type := mkNewBooking {
  nb_telegramUserId : string;
  nb_username : option string;
  nb_phoneNumber : option string;
  nb_sessionDate : string;
  nb_sessionTime : string;
  nb_googleEventId : option string;
  nb_status : Status;
  nb_notes : option string
}.

(** One property of a [Partial<Booking>] object, present with a value of
    the type the interface declares for it ([undefined] standing for an
    absent optional value). *)
Inductive FieldUpdate : Type :=
| SetId (v : Z)
| SetTelegramUserId (v : string)
| SetUsername (v : option string)
| SetPhoneNumber (v : option string)
| SetSessionDate (v : string)
| SetSessionTime (v : string)
| SetGoogleEventId (v : option string)
| SetStatus (v : Status)
| SetCreatedAt (v : Z)
| SetUpdatedAt (v : Z).

(** [Object.keys(updates)]: the property names, in insertion order. *)
Definition key_of (u : FieldUpdate) : string :=
  match u with
  | SetId _ => "id"
  | SetTelegramUserId _ => "telegramUserId"
  | SetUsername _ => "username"
  | SetPhoneNumber _ => "phoneNumber"
  | SetSessionDate _ => "sessionDate"
  | SetSessionTime _ => "sessionTime"
  | SetGoogleEventId _ => "googleEventId"
  | SetStatus _ => "status"
  | SetCreatedAt _ => "createdAt"
  | SetUpdatedAt _ => "updatedAt"
  end.

(** The effect of one assignment [key = value] on a row. *)
Definition apply_update (u : FieldUpdate) (b : Booking) : Booking :=
  match u with
  | SetId v =>
      mkBooking v (telegramUserId b) (username b) (phoneNumber b) (sessionDate b)
        (sessionTime b) (googleEventId b) (status b) (notes b) (createdAt b) (updatedAt b)
  | SetTelegramUserId v =>
      mkBooking (id b) v (username b) (phoneNumber b) (sessionDate b)
        (sessionTime b) (googleEventId b) (status b) (notes b) (createdAt b) (updatedAt b)
  | SetUsername v =>
      mkBooking (id b) (telegramUserId b) v (phoneNumber b) (sessionDate b)
        (sessionTime b) (googleEventId b) (status b) (notes b) (createdAt b) (updatedAt b)
  | SetPhoneNumber v =>
      mkBooking (id b) (telegramUserId b) (username b) v (sessionDate b)
        (sessionTime b) (googleEventId b) (status b) (notes b) (createdAt b) (updatedAt b)
  | SetSessionDate v =>
      mkBooking (id b) (telegramUserId b) (username b) (phoneNumber b) v
        (sessionTime b) (googleEventId b) (status b) (notes b) (createdAt b) (updatedAt b)
  | SetSessionTime v =>
      mkBooking (id b) (telegramUserId b) (username b) (phoneNumber b) (sessionDate b)
        v (googleEventId b) (status b) (notes b) (createdAt b) (updatedAt b)
  | SetGoogleEventId v =>
      mkBooking (id b) (telegramUserId b) (username b) (phoneNumber b) (sessionDate b)
        (sessionTime b) v (status b) (notes b) (createdAt b) (updatedAt b)
  | SetStatus v =>
      mkBooking (id b) (telegramUserId b) (username b) (phoneNumber b) (sessionDate b)
        (sessionTime b) (googleEventId b) v (notes b) (createdAt b) (updatedAt b)
  | SetCreatedAt v =>
      mkBooking (id b) (telegramUserId b) (username b) (phoneNumber b) (sessionDate b)
        (sessionTime b) (googleEventId b) (status b) (notes b) v (updatedAt b)
  | SetUpdatedAt v =>
      mkBooking (id b) (telegramUserId b) (username b) (phoneNumber b) (sessionDate b)
        (sessionTime b) (googleEventId b) (status b) (notes b) (createdAt b) v
  end.

(** [{ ...oldBooking, ...updates }]: later properties override earlier ones. *)
Definition spread (b : Booking) (updates : list FieldUpdate) : Booking :=
  fold_left (fun r u => apply_update u r) updates b.

(** [action TEXT CHECK (action IN ('created','modified','cancelled','completed'))] *)
Inductive Action : Type := ACreated | AModified | ACancelled | ACompleted.

(** What [JSON.stringify] is applied to when a history row is written: the
    argument of [createBooking], or a full row. *)
Inductive Snapshot : Type :=
| SnapInput (b : NewBooking)
| SnapRow (b : Booking).

Record HistoryEntry : Type := mkHistory {
  h_id : Z;
  h_bookingId : Z;
  h_action : Action;
  h_oldValues : option Snapshot;
  h_newValues : option Snapshot;
  h_performedBy : string;
  h_timestamp : Z
}.

(** The part of the database file the repository touches.  [bookings_seq]
    and [history_seq] are the AUTOINCREMENT counters of [sqlite_sequence];
    [db_clock] is what CURRENT_TIMESTAMP evaluates to. *)
Record Store : Type := mkStore {
  bookings : list Booking;
  bookings_seq : Z;
  booking_history : list HistoryEntry;
  history_seq : Z;
  db_clock : Z
}.

Definition slot_of (b : Booking) : string * string := (sessionDate b, sessionTime b).

Definition same_slot (d t : string) (b : Booking) : bool :=
  String.eqb (sessionDate b) d && String.eqb (sessionTime b) t.

(** [CONSTRAINT unique_session UNIQUE (sessionDate, sessionTime)] and the
    primary key, as decidable conditions on a whole table. *)
Fixpoint slots_distinct (rows : list Booking) : bool :=
  match rows with
  | [] => true
  | r :: rest =>
      negb (existsb (same_slot (sessionDate r) (sessionTime r)) rest)
      && slots_distinct rest
  end.

Fixpoint ids_distinct (rows : list Booking) : bool :=
  match rows with
  | [] => true
  | r :: rest => negb (existsb (fun r' => id r' =? id r) rest) && ids_distinct rest
  end.

Definition max_id (rows : list Booking) : Z :=
  fold_right (fun r m => Z.max (id r) m) 0 rows.

Definition max_hid (rows : list HistoryEntry) : Z :=
  fold_right (fun r m => Z.max (h_id r) m) 0 rows.

(** ** The text of the dynamic UPDATE statement

    [updateBooking] assembles its statement from the keys of [updates] and
    hands the text to [db.prepare], which rejects text that is not SQL.  The
    fragment of the SQL grammar that the statement lives in is small enough
    to be recognised here: a tokenizer and a parser for
    [UPDATE t SET c = e (, c = e)* WHERE c = ?]. *)

Module Sql.

Inductive token : Type :=
| TWord (w : string)
| TComma
| TEq
| TParam
| TOther (c : ascii).

Definition is_word_char (c : ascii) : bool :=
  let n := nat_of_ascii c in
  ((65 <=? n) && (n <=? 90) || (97 <=? n) && (n <=? 122)
   || (48 <=? n) && (n <=? 57) || (n =? 95))%nat.

Definition is_space (c : ascii) : bool :=
  let n := nat_of_ascii c in
  ((n =? 32) || (n =? 10) || (n =? 9) || (n =? 13))%nat.

Definition symbol (c : ascii) : token :=
  let n := nat_of_ascii c in
  if (n =? 44)%nat then TComma
  else if (n =? 61)%nat then TEq
  else if (n =? 63)%nat then TParam
  else TOther c.

Definition flush (w : string) (ts : list token) : list token :=
  match w with
  | EmptyString => ts
  | _ => TWord w :: ts
  end.

(** [lex w s]: the tokens of [s], where [w] is the word read so far. *)
Fixpoint lex (w : string) (s : string) : list token :=
  match s with
  | EmptyString => flush w []
  | String c s' =>
      if is_word_char c then lex (w +:+ String c EmptyString) s'
      else flush w (if is_space c then lex EmptyString s'
                    else symbol c :: lex EmptyString s')
  end.

Inductive Rhs : Type := Param | CurrentTimestamp.

Definition is_keyword (w : string) : bool :=
  String.eqb w "UPDATE" || String.eqb w "SET" || String.eqb w "WHERE".

Definition rhs_of (t : token) : option Rhs :=
  match t with
  | TParam => Some Param
  | TWord w => if String.eqb w "CURRENT_TIMESTAMP" then Some CurrentTimestamp else None
  | _ => None
  end.

(** A non-empty, comma-separated list of assignments; returns the
    assignments and the tokens that follow them. *)
Fixpoint parse_assignments (ts : list token)
  : option (list (string * Rhs) * list token) :=
  match ts with
  | TWord c :: TEq :: e :: rest =>
      if is_keyword c then None
      else
        match rhs_of e with
        | None => None
        | Some r =>
            match rest with
            | TComma :: rest' =>
                match parse_assignments rest' with
                | Some (l, rem) => Some ((c, r) :: l, rem)
                | None => None
                end
            | _ => Some ([(c, r)], rest)
            end
        end
  | _ => None
  end.

Record UpdateStmt : Type := mkUpdateStmt {
  u_table : string;
  u_assignments : list (string * Rhs);
  u_where : string
}.

Definition parse_update (ts : list token) : option UpdateStmt :=
  match ts with
  | TWord kw :: TWord t :: TWord kw' :: rest =>
      if String.eqb kw "UPDATE" && negb (is_keyword t) && String.eqb kw' "SET" then
        match parse_assignments rest with
        | Some (l, [TWord kw''; TWord c; TEq; TParam]) =>
            if String.eqb kw'' "WHERE" && negb (is_keyword c)
            then Some (mkUpdateStmt t l c) else None
        | _ => None
        end
      else None
  | _ => None
  end.

(** [db.prepare(sql)] for an UPDATE statement: a syntax error is reported
    as a [SqliteError] with code SQLITE_ERROR. *)
Definition prepare (sql : string) : result UpdateStmt :=
  match parse_update (lex EmptyString sql) with
  | Some st => Ok st
  | None => Throw (SqliteError "SQLITE_ERROR")
  end.

Definition well_formed (sql : string) : bool :=
  match prepare sql with
  | Ok _ => true
  | Throw _ => false
  end.

(** The number of [?] parameters the statement expects. *)
Definition param_count (st : UpdateStmt) : nat :=
  S (length (List.filter (fun a => match snd a with Param => true | _ => false end)
                         (u_assignments st))).

End Sql.

(** ** The repository ([BookingRepository]) *)

Module Repo.

Definition lift {A} (r : result A) : M Store A :=
  fun s => Outcome r s [].

(** [this.statements.createBooking.run(...)]:
    INSERT INTO bookings (...) VALUES (?, ?, ?, ?, ?, ?, ?, ?).
    The row id is one more than the largest that ever existed
    (AUTOINCREMENT); the only constraint an argument of this type can
    violate is [unique_session]. *)
Definition insert_booking (b : NewBooking) (s : Store) : result (Z * Store) :=
  if existsb (same_slot (nb_sessionDate b) (nb_sessionTime b)) (bookings s)
  then Throw (SqliteError "SQLITE_CONSTRAINT_UNIQUE")
  else
    let rowid := Z.max (bookings_seq s) (max_id (bookings s)) + 1 in
    let row :=
      mkBooking rowid (nb_telegramUserId b) (nb_username b) (nb_phoneNumber b)
        (nb_sessionDate b) (nb_sessionTime b) (nb_googleEventId b) (nb_status b)
        (* (booking as any).notes || null *)
        (match nb_notes b with
         | Some EmptyString => None
         | n => n
         end)
        (db_clock s) (db_clock s) in
    Ok (rowid,
        mkStore (bookings s ++ [row]) rowid
                (booking_history s) (history_seq s) (db_clock s)).

(** [FOREIGN KEY (bookingId) REFERENCES bookings(id)] of [booking_history].
    better-sqlite3 opens its connections with foreign keys enforced, and the
    code never turns the pragma off. *)
Definition foreign_key_failed : Error := SqliteError "SQLITE_CONSTRAINT_FOREIGNKEY".

Definition has_booking (bid : Z) (rows : list Booking) : bool :=
  existsb (fun r => id r =? bid) rows.

(** The number of history rows that refer to a booking id. *)
Definition references (bid : Z) (history : list HistoryEntry) : nat :=
  length (List.filter (fun h => h_bookingId h =? bid) history).

(** INSERT INTO booking_history (bookingId, action, oldValues, newValues,
    performedBy) VALUES (?, ?, ?, ?, ?).  The row must refer to a booking
    that is in the table. *)
Definition insert_history (bookingId : Z) (action : Action)
    (oldValues newValues : option Snapshot) (performedBy : string)
    (s : Store) : result (unit * Store) :=
  if negb (has_booking bookingId (bookings s)) then Throw foreign_key_failed
  else
    let rowid := Z.max (history_seq s) (max_hid (booking_history s)) + 1 in
    let row := mkHistory rowid bookingId action oldValues newValues performedBy
                         (db_clock s) in
    Ok (tt,
        mkStore (bookings s) (bookings_seq s)
                (booking_history s ++ [row]) rowid (db_clock s)).

(** Binding [...values] to the [?] parameters of the SET clause, in order.
    A value here carries the key it was given under, and the column the
    statement names at its position must be that key; CURRENT_TIMESTAMP is
    the clock.  Too few or too many values are a RangeError. *)
Fixpoint bind_params (assignments : list (string * Sql.Rhs))
    (values : list FieldUpdate) (clock : Z) : option (list FieldUpdate) :=
  match assignments with
  | [] =>
      match values with
      | [] => Some []
      | _ :: _ => None
      end
  | (column, Sql.Param) :: rest =>
      match values with
      | v :: vs =>
          if String.eqb column (key_of v)
          then option_map (cons v) (bind_params rest vs clock)
          else None
      | [] => None
      end
  | (column, Sql.CurrentTimestamp) :: rest =>
      if String.eqb column "updatedAt"
      then option_map (cons (SetUpdatedAt clock)) (bind_params rest values clock)
      else if String.eqb column "createdAt"
      then option_map (cons (SetCreatedAt clock)) (bind_params rest values clock)
      else None
  end.

(** Whether the SET clause names the key column. *)
Definition assigns_id (assignments : list FieldUpdate) : bool :=
  existsb (fun u => String.eqb (key_of u) "id") assignments.

(** The foreign key at the end of an UPDATE whose SET clause names [id]:
    the engine counts up for every history row that refers to the old key
    of the updated row and down for every one that refers to its new key,
    and fails the statement when the count is above zero. *)
Definition orphans_history (assignments : list FieldUpdate) (bid : Z) (s : Store)
  : bool :=
  assigns_id assignments
  && existsb (fun r => (id r =? bid)
                       && (references (id (spread r assignments)) (booking_history s)
                           <? references (id r) (booking_history s))%nat)
             (bookings s).

(** [updateStmt.run(...values, id)] for a prepared
    UPDATE bookings SET k1 = ?, ..., updatedAt = CURRENT_TIMESTAMP WHERE id = ?.
    The assignments of the statement are applied from left to right to the
    rows with the given id, so that of two assignments to one column the
    rightmost wins.  The statement fails as a whole, changing nothing, when
    the new table would break the primary key or [unique_session], which
    the engine finds while it writes the row, or the foreign key of
    [booking_history], which it checks when the statement ends. *)
Definition run_update (st : Sql.UpdateStmt) (values : list FieldUpdate) (bid : Z)
    (s : Store) : result (unit * Store) :=
  match bind_params (Sql.u_assignments st) values (db_clock s) with
  | None => Throw (JsError "RangeError: wrong number of parameter values")
  | Some assignments =>
      let rows :=
        map (fun r => if id r =? bid then spread r assignments else r)
            (bookings s) in
      if negb (ids_distinct rows)
      then Throw (SqliteError "SQLITE_CONSTRAINT_PRIMARYKEY")
      else if negb (slots_distinct rows)
      then Throw (SqliteError "SQLITE_CONSTRAINT_UNIQUE")
      else if orphans_history assignments bid s
      then Throw foreign_key_failed
      else Ok (tt,
               mkStore rows (bookings_seq s)
                       (booking_history s) (history_seq s) (db_clock s))
  end.

Definition logBookingHistory (bookingId : Z) (action : Action)
    (oldValues newValues : option Snapshot) (performedBy : string)
  : M Store unit :=
  stmt (insert_history bookingId action oldValues newValues performedBy).

(** SELECT * FROM bookings WHERE id = ?  (first row, or null) *)
Definition getBookingById (bid : Z) : M Store (option Booking) :=
  query (fun s => List.find (fun r => id r =? bid) (bookings s)).

Definition slot_taken : Error := JsError "This time slot is already booked".

Definition createBooking (booking : NewBooking) : M Store Z :=
  try_catch
    (do rowid <- stmt (insert_booking booking);
     exec logBookingHistory rowid ACreated None (Some (SnapInput booking))
                            (nb_telegramUserId booking);
     ret rowid)
    (fun error =>
       match error_code error with
       | Some code =>
           if String.eqb code "SQLITE_CONSTRAINT_UNIQUE"
           then throw slot_taken else throw error
       | None => throw error
       end).

(** [Object.keys(updates).map(key => `${key} = ?`).join(', ')] *)
Definition fields (updates : list FieldUpdate) : string :=
  String.concat ", " (map (fun key => key +:+ " = ?") (map key_of updates)).

Definition updateSql (updates : list FieldUpdate) : string :=
  "
      UPDATE bookings 
      SET " +:+ fields updates +:+ ", updatedAt = CURRENT_TIMESTAMP 
      WHERE id = ?
    ".

Definition updateBooking (bid : Z) (updates : list FieldUpdate)
    (performedBy : string) : M Store unit :=
  do oldBooking <- getBookingById bid;
  match oldBooking with
  | None => throw (JsError "Booking not found")
  | Some old =>
      do updateStmt <- lift (Sql.prepare (updateSql updates));
      exec stmt (run_update updateStmt updates bid);
      logBookingHistory bid AModified (Some (SnapRow old))
                        (Some (SnapRow (spread old updates))) performedBy
  end.

Definition cancelBooking (bid : Z) (performedBy : string) : M Store unit :=
  do oldBooking <- getBookingById bid;
  match oldBooking with
  | None => throw (JsError "Booking not found")
  | Some old =>
      exec updateBooking bid [SetStatus Cancelled] performedBy;
      logBookingHistory bid ACancelled (Some (SnapRow old))
                        (Some (SnapRow (spread old [SetStatus Cancelled])))
                        performedBy
  end.

End Repo.

(** ** The calendar service ([GoogleCalendarService]) *)

Module Cal.

(** A [moment] object, in the local civil time the library computes in:
    [m_day] counts days from 1970-01-01.  Daylight-saving shifts are left
    out. *)
Record Moment : Type := mkMoment {
  m_day : Z;
  m_hour : Z;
  m_minute : Z;
  m_second : Z;
  m_ms : Z
}.

(** Milliseconds on the local time line. *)
Definition valueOf (m : Moment) : Z :=
  (((m_day m * 24 + m_hour m) * 60 + m_minute m) * 60 + m_second m) * 1000 + m_ms m.

(** [a.isBefore(b)] *)
Definition isBefore (a b : Moment) : bool := valueOf a <? valueOf b.

(** [a.isBefore(b, 'day')]: the day of [a] ends before [b]. *)
Definition isBefore_day (a b : Moment) : bool := m_day a <? m_day b.

(** [m.add(n, 'days')] *)
Definition add_days (n : Z) (m : Moment) : Moment :=
  mkMoment (m_day m + n) (m_hour m) (m_minute m) (m_second m) (m_ms m).

(** [m.hour(h)] and [m.minute(n)]: the other fields stay as they are. *)
Definition set_hour (h : Z) (m : Moment) : Moment :=
  mkMoment (m_day m) h (m_minute m) (m_second m) (m_ms m).

Definition set_minute (n : Z) (m : Moment) : Moment :=
  mkMoment (m_day m) (m_hour m) n (m_second m) (m_ms m).

(** [m.day()]: 0 is Sunday; 1970-01-01 was a Thursday. *)
Definition weekday_of (d : Z) : Z := (d + 4) mod 7.
Definition weekday (m : Moment) : Z := weekday_of (m_day m).

(** [moment(s)] for a date string [s], and for a 'YYYY-MM-DD HH:mm' string
    that was formatted from it: midnight of that date. *)
Definition moment_of_date (d : Z) : Moment := mkMoment d 0 0 0 0.

(** The three formats in use.  A formatted date stands for its day number
    and a formatted time for its hour and minute, which the format strings
    render one-to-one. *)
Definition Date : Type := Z.
Definition Time : Type := (Z * Z)%type.
Definition SlotKey : Type := (Z * (Z * Z))%type.

Definition format_date (m : Moment) : Date := m_day m.            (* 'YYYY-MM-DD' *)
Definition format_time (m : Moment) : Time := (m_hour m, m_minute m).  (* 'HH:mm' *)
Definition format_key (m : Moment) : SlotKey :=                   (* 'YYYY-MM-DD HH:mm' *)
  (m_day m, (m_hour m, m_minute m)).

Record TimeSlot : Type := mkTimeSlot {
  ts_date : Date;
  ts_time : Time;
  ts_available : bool
}.

Record DayTimeSlot : Type := mkDayTimeSlot {
  ds_duration : string;
  ds_date : Date;
  ds_available : bool
}.

(** An item of the response of [calendar.events.list], reduced to
    [moment(event.start.dateTime)]. *)
Record CalendarEvent : Type := mkCalendarEvent {
  start_dateTime : Moment
}.

Record GoogleCalendarEvent : Type := mkGoogleCalendarEvent {
  summary : string;
  description : string;
  start_iso : string;
  end_iso : string
}.

Record Credentials : Type := mkCredentials {
  access_token : string;
  refresh_token : string;
  expiry_date : Z
}.

(** What the service sends to Google. *)
Inductive Request : Type :=
| RefreshAccessToken
| EventsList (timeMin : Moment) (timeMax : option Moment)
| EventsInsert (event : GoogleCalendarEvent)
| EventsPatch (eventId : string) (event : GoogleCalendarEvent)
| EventsDelete (eventId : string).

(** The OAuth2 client's credentials, the single row of [auth_tokens], and
    the requests sent so far. *)
Record Service : Type := mkService {
  auth : option Credentials;
  auth_tokens : option Credentials;
  requests : list Request
}.

Definition sent (r : Request) (s : Service) : Service :=
  mkService (auth s) (auth_tokens s) (requests s ++ [r]).

Definition workingHours : list Z := [8; 9; 10; 11; 14; 15; 16; 17; 18; 19].

Definition auth_failed : Error :=
  JsError "Authentication failed. Please re-authenticate.".

(** [new Set(response.data.items?.map(event => format(event.start)) || [])] *)
Definition busy_set {K} `{Countable K} (format : Moment -> K)
    (items : option (list CalendarEvent)) : gset K :=
  list_to_set (map (fun event => format (start_dateTime event)) (default [] items)).

(** The body of [for (const hour of workingHours)], shared by the three
    slot listings. *)
Definition hour_slots (now : Moment) (busySlots : gset SlotKey)
    (date : Moment) : list TimeSlot :=
  flat_map
    (fun hour =>
       let slotTime := set_minute 0 (set_hour hour date) in
       if isBefore slotTime now then []
       else [mkTimeSlot (format_date slotTime) (format_time slotTime)
                        (negb (bool_decide (format_key slotTime ∈ busySlots)))])
    workingHours.

Section Service.

(** The outside world: the answers of Google's token endpoint and calendar
    API, whether the injected [Database] manages to store the tokens, and
    the readings of the clock, [now] before the events were requested and
    [tick day] in the iteration for [day], after the answer arrived. *)
Variable refreshAccessToken : option Credentials -> result Credentials.
Variable db_storeTokens : Credentials -> result unit.
Variable events_list : Moment -> option Moment -> result (option (list CalendarEvent)).
Variable events_insert : GoogleCalendarEvent -> result string.
Variable events_patch : string -> GoogleCalendarEvent -> result unit.
Variable events_delete : string -> result unit.
Variable now : Moment.
Variable tick : nat -> Moment.

(** A request to Google: it is sent, then answered or failed. *)
Definition call {A} (r : Request) (answer : result A) : M Service A :=
  fun s => Outcome answer (sent r s) [].

(** [this.auth.setCredentials(credentials)] *)
Definition setCredentials (c : Credentials) : M Service unit :=
  fun s => Outcome (Ok tt) (mkService (Some c) (auth_tokens s) (requests s)) [].

(** [this.db.storeTokens(...)]: when it succeeds, the one row of
    [auth_tokens] is replaced. *)
Definition storeTokens (c : Credentials) : M Service unit :=
  stmt (fun s =>
          match db_storeTokens c with
          | Ok _ => Ok (tt, mkService (auth s) (Some c) (requests s))
          | Throw e => Throw e
          end).

Definition refreshTokenIfNeeded : M Service unit :=
  try_catch
    (do credentials <- (fun s => call RefreshAccessToken (refreshAccessToken (auth s)) s);
     exec setCredentials credentials;
     storeTokens credentials)
    (fun _ => throw auth_failed).

(** [try { ... } catch (error) { console.error(...); throw error; }] *)
Definition rethrow {A} (m : M Service A) : M Service A :=
  try_catch m (fun error => throw error).

Definition getAvailableDaySlots (duration : string) (daysAhead : nat)
  : M Service (list DayTimeSlot) :=
  rethrow
    (exec refreshTokenIfNeeded;
     let endDate := add_days (Z.of_nat daysAhead) now in
     do items <- call (EventsList now (Some endDate))
                      (events_list now (Some endDate));
     let busySlots := busy_set format_date items in
     let availableSlots :=
       map (fun day =>
              let currentDate := format_date (add_days (Z.of_nat day) (tick day)) in
              mkDayTimeSlot duration currentDate
                            (negb (bool_decide (currentDate ∈ busySlots))))
           (seq 0 daysAhead) in
     ret (List.filter ds_available availableSlots)).

(** The argument is the date that [time.split('_')] and [moment(day)]
    read from the callback data. *)
Definition getAvailableTimeSlots (date : Date) : M Service (list TimeSlot) :=
  rethrow
    (exec refreshTokenIfNeeded;
     let bookingDate := moment_of_date date in
     do items <- call (EventsList bookingDate None) (events_list bookingDate None);
     let busySlots := busy_set format_key items in
     let availableSlots := hour_slots now busySlots bookingDate in
     ret (List.filter ts_available availableSlots)).

Definition getAvailableDurationSlots (date : Date) : M Service (list TimeSlot) :=
  rethrow
    (exec refreshTokenIfNeeded;
     let bookingDate := moment_of_date date in
     do items <- call (EventsList bookingDate None) (events_list bookingDate None);
     let busySlots := busy_set format_key items in
     let availableSlots := hour_slots now busySlots bookingDate in
     ret (List.filter ts_available availableSlots)).

Definition getAvailableSlots (daysAhead : nat) : M Service (list TimeSlot) :=
  rethrow
    (exec refreshTokenIfNeeded;
     let endDate := add_days (Z.of_nat daysAhead) now in
     do items <- call (EventsList now (Some endDate))
                      (events_list now (Some endDate));
     let busySlots := busy_set format_key items in
     let availableSlots :=
       flat_map
         (fun day =>
            let currentDate := add_days (Z.of_nat day) (tick day) in
            (* Skip past dates and Sundays *)
            if isBefore_day currentDate now || (weekday currentDate =? 0) then []
            else hour_slots now busySlots currentDate)
         (seq 0 daysAhead) in
     ret (List.filter ts_available availableSlots)).

Definition createEvent (event : GoogleCalendarEvent) : M Service string :=
  rethrow
    (exec refreshTokenIfNeeded;
     call (EventsInsert event) (events_insert event)).

Definition updateEvent (eventId : string) (event : GoogleCalendarEvent)
  : M Service unit :=
  rethrow
    (exec refreshTokenIfNeeded;
     call (EventsPatch eventId event) (events_patch eventId event)).

Definition deleteEvent (eventId : string) : M Service unit :=
  rethrow
    (exec refreshTokenIfNeeded;
     call (EventsDelete eventId) (events_delete eventId)).

End Service.

(** Days from 1970-01-01 to a date of the Gregorian calendar, to write
    dates the way the code prints them. *)
Definition ymd (y m d : Z) : Z :=
  let y' := if m <=? 2 then y - 1 else y in
  let era := y' / 400 in
  let yoe := y' - era * 400 in
  let mp := (m + 9) mod 12 in
  let doy := (153 * mp + 2) / 5 + d - 1 in
  let doe := yoe * 365 + yoe / 4 - yoe / 100 + doy in
  era * 146097 + doe - 719468.

(** The instant a slot names: its date, at its time, on the second. *)
Definition slot_instant (slot : TimeSlot) : Z :=
  valueOf (mkMoment (ts_date slot) (fst (ts_time slot)) (snd (ts_time slot)) 0 0).

(** The service once the exchange has succeeded. *)
Definition refreshed (c : Credentials) (s : Service) : Service :=
  mkService (Some c) (Some c) (requests s ++ [RefreshAccessToken]).

(** A credential is expired at [t] when its expiry instant is not after [t]. *)
Definition expired (t : Z) (c : Credentials) : bool := expiry_date c <=? t.

End Cal.

(** ** Schema migrations ([MigrationManager]) *)

Module Mig.

(** The engine compares the names of tables, indexes and columns without
    regard to the case of the letters A to Z. *)
Definition fold_case (c : ascii) : ascii :=
  let n := nat_of_ascii c in
  if ((65 <=? n) && (n <=? 90))%nat then ascii_of_nat (n + 32) else c.

Fixpoint lower (s : string) : string :=
  match s with
  | EmptyString => EmptyString
  | String c rest => String (fold_case c) (lower rest)
  end.

Definition same_name (a b : string) : bool := String.eqb (lower a) (lower b).

(** The statements the migration scripts are made of: a table with its
    columns and the tables its FOREIGN KEY clauses name, an index with the
    columns it is on, and the dropping of a table. *)
Inductive Ddl : Type :=
| CreateTableIfNotExists (table : string) (columns : list string) (parents : list string)
| CreateIndexIfNotExists (index table : string) (columns : list string)
| DropTableIfExists (table : string).

(** [interface Migration]; its [timestamp] is written by [getMigrations]
    and read nowhere. *)
Record Migration : Type := mkMigration {
  version : Z;
  name : string;
  up : list Ddl;
  down : list Ddl
}.

(** A row of [migrations]; [version] is its primary key. *)
Record MigrationRow : Type := mkRow {
  row_version : Z;
  row_name : string;
  row_checksum : string
}.

(** A table of the schema.  Of its rows only this is kept: [t_referenced]
    lists the tables, among those its foreign keys name, that hold a row to
    which one of its rows refers. *)
Record Table : Type := mkTable {
  t_name : string;
  t_columns : list string;
  t_parents : list string;
  t_referenced : list string
}.

(** The schema, tables and indexes (an index with the table it is on), and
    the rows of the [migrations] table, which the constructor of the manager
    creates.  Views and triggers, of which the application makes none, are
    left out, and foreign keys are immediate, as the one of the scripts
    is. *)
Record Db : Type := mkDb {
  tables : list Table;
  indexes : list (string * string);
  migrations : list MigrationRow
}.

Definition has_table (t : string) (db : Db) : bool :=
  existsb (fun x => same_name t (t_name x)) (tables db).

Definition has_index (i : string) (db : Db) : bool :=
  existsb (fun x => same_name i (fst x)) (indexes db).

Definition has_column (t c : string) (db : Db) : bool :=
  existsb (fun x => same_name t (t_name x) && existsb (same_name c) (t_columns x))
          (tables db).

(** Whether a row of another table refers to a row of [t]. *)
Definition is_referenced (t : string) (db : Db) : bool :=
  existsb (fun x => negb (same_name t (t_name x))
                    && existsb (same_name t) (t_referenced x))
          (tables db).

Definition sql_error : Error := SqliteError "SQLITE_ERROR".

Definition foreign_key_failed : Error := SqliteError "SQLITE_CONSTRAINT_FOREIGNKEY".

(** One statement, with foreign keys enforced as better-sqlite3 has them.
    - CREATE TABLE IF NOT EXISTS does nothing when a table of the name
      exists, whatever its columns; an index of the name is an error; a new
      table has no rows.
    - CREATE INDEX IF NOT EXISTS needs its table; a table of the index's
      name is an error; an index of the name, on whatever table, makes it
      do nothing; otherwise the columns must be columns of the table.
    - DROP TABLE IF EXISTS deletes the rows of the table first, which
      fails on the foreign key when a row of another table refers to one of
      them; the indexes of the table go with it. *)
Definition exec_ddl (d : Ddl) (db : Db) : result Db :=
  match d with
  | CreateTableIfNotExists t columns parents =>
      if has_table t db then Ok db
      else if has_index t db then Throw sql_error
      else Ok (mkDb (tables db ++ [mkTable t columns parents []])
                    (indexes db) (migrations db))
  | CreateIndexIfNotExists i t columns =>
      if negb (has_table t db) then Throw sql_error
      else if has_table i db then Throw sql_error
      else if has_index i db then Ok db
      else if negb (forallb (fun c => has_column t c db) columns) then Throw sql_error
      else Ok (mkDb (tables db) (indexes db ++ [(i, t)]) (migrations db))
  | DropTableIfExists t =>
      if negb (has_table t db) then Ok db
      else if is_referenced t db then Throw foreign_key_failed
      else Ok (mkDb (List.filter (fun x => negb (same_name t (t_name x))) (tables db))
                    (List.filter (fun x => negb (same_name t (snd x))) (indexes db))
                    (migrations db))
  end.

(** [db.exec(script)]: the statements in order, up to the first failure. *)
Fixpoint exec_script (script : list Ddl) (db : Db) : result (unit * Db) :=
  match script with
  | [] => Ok (tt, db)
  | d :: rest =>
      match exec_ddl d db with
      | Ok db' => exec_script rest db'
      | Throw e => Throw e
      end
  end.

(** INSERT INTO migrations (version, name, checksum) VALUES (?, ?, ?) *)
Definition insert_migration (v : Z) (n : string) (checksum : string) (db : Db)
  : result (unit * Db) :=
  if existsb (fun r => row_version r =? v) (migrations db)
  then Throw (SqliteError "SQLITE_CONSTRAINT_PRIMARYKEY")
  else Ok (tt, mkDb (tables db) (indexes db)
                    (migrations db ++ [mkRow v n checksum])).

(** DELETE FROM migrations WHERE version = ? *)
Definition delete_migration (v : Z) (db : Db) : result (unit * Db) :=
  Ok (tt, mkDb (tables db) (indexes db)
               (List.filter (fun r => negb (row_version r =? v)) (migrations db))).

(** SELECT MAX(version) as version FROM migrations *)
Definition max_version (db : Db) : option Z :=
  match migrations db with
  | [] => None
  | r :: rows => Some (fold_left (fun m x => Z.max m (row_version x)) rows (row_version r))
  end.

Definition getMigrations : list Migration :=
  [ mkMigration 1 "initial_schema"
      [ CreateTableIfNotExists "bookings"
          ["id"; "telegramUserId"; "username"; "phoneNumber"; "sessionDate";
           "sessionTime"; "googleEventId"; "status"; "notes"; "createdAt"; "updatedAt"]
          [];
        CreateIndexIfNotExists "idx_bookings_user" "bookings" ["telegramUserId"];
        CreateIndexIfNotExists "idx_bookings_date" "bookings"
          ["sessionDate"; "sessionTime"];
        CreateIndexIfNotExists "idx_bookings_status" "bookings" ["status"] ]
      [ DropTableIfExists "bookings" ];
    mkMigration 2 "auth_tokens_table"
      [ CreateTableIfNotExists "auth_tokens"
          ["id"; "accessToken"; "refreshToken"; "expiryDate"; "scope"; "createdAt";
           "updatedAt"]
          [] ]
      [ DropTableIfExists "auth_tokens" ];
    mkMigration 3 "user_preferences_table"
      [ CreateTableIfNotExists "user_preferences"
          ["id"; "telegramUserId"; "timezone"; "notifications"; "language";
           "preferredTimes"; "createdAt"; "updatedAt"]
          [];
        CreateIndexIfNotExists "idx_user_prefs_user" "user_preferences"
          ["telegramUserId"] ]
      [ DropTableIfExists "user_preferences" ];
    mkMigration 4 "booking_history_table"
      [ CreateTableIfNotExists "booking_history"
          ["id"; "bookingId"; "action"; "oldValues"; "newValues"; "performedBy";
           "timestamp"]
          ["bookings"];
        CreateIndexIfNotExists "idx_history_booking" "booking_history" ["bookingId"];
        CreateIndexIfNotExists "idx_history_timestamp" "booking_history" ["timestamp"] ]
      [ DropTableIfExists "booking_history" ] ].

(** [for (const x of xs) { body(x) }] *)
Fixpoint for_of {St A} (xs : list A) (body : A -> M St unit) : M St unit :=
  match xs with
  | [] => ret tt
  | x :: rest => exec body x; for_of rest body
  end.

Section Manager.

(** SHA-256 of a script text, in hexadecimal ([crypto.createHash]). *)
Variable sha256_hex : list Ddl -> string.

Definition calculateMigrationChecksum (migration : Migration) : string :=
  sha256_hex (up migration ++ down migration).

(** [currentVersionRow?.version || 0] *)
Definition currentVersion (db : Db) : Z :=
  match max_version db with
  | Some v => if v =? 0 then 0 else v
  | None => 0
  end.

(** The body of the transaction that applies one migration. *)
Definition apply_migration (migration : Migration) : M Db unit :=
  exec stmt (exec_script (up migration));
  stmt (insert_migration (version migration) (name migration)
                         (calculateMigrationChecksum migration)).

Definition runMigrations : M Db unit :=
  let migrations := getMigrations in
  do currentVersion <- query currentVersion;
  let pendingMigrations :=
    List.filter (fun m => version m >? currentVersion) migrations in
  if (length pendingMigrations =? 0)%nat then ret tt
  else
    for_of pendingMigrations
      (fun migration =>
         try_catch (transaction (apply_migration migration))
                   (fun error => throw error)).

(** The body of the transaction that takes one migration back. *)
Definition revert_migration (migration : Migration) : M Db unit :=
  exec stmt (exec_script (down migration));
  stmt (delete_migration (version migration)).

Definition rollback (targetVersion : Z) : M Db unit :=
  let migrations := rev getMigrations in
  do currentVersion <- query currentVersion;
  if targetVersion >=? currentVersion then ret tt
  else
    let migrationsToRollback :=
      List.filter (fun m => (version m >? targetVersion)
                            && (version m <=? currentVersion)) migrations in
    for_of migrationsToRollback
      (fun migration =>
         try_catch (transaction (revert_migration migration))
                   (fun error => throw error)).

(** The row [runMigrations] writes for a migration. *)
Definition recorded (m : Migration) : MigrationRow :=
  mkRow (version m) (name m) (calculateMigrationChecksum m).

End Manager.

Definition fresh_db : Db := mkDb [] [] [].

End Mig.

(** Vocabulary of the statements below: the stores in which both table
    constraints hold, and the active rows that occupy a slot. *)
Definition consistent (s : Store) : Prop :=
  ids_distinct (bookings s) = true /\ slots_distinct (bookings s) = true.

Definition active_at (d t : string) (s : Store) : list Booking :=
  List.filter (fun r => same_slot d t r && Status_eqb (status r) Active) (bookings s).

Definition slot_free (d t : string) (s : Store) : Prop :=
  existsb (same_slot d t) (bookings s) = false.

(** Sample data. *)
Definition empty_store : Store := mkStore [] 0 [] 0 1718000000.

Definition booking_1 : NewBooking :=
  mkNewBooking "4711" (Some "ann") (Some "ann") "2024-06-10" "14:00"
               (Some "evt1") Active None.

Definition booking_2 : NewBooking :=
  mkNewBooking "4712" (Some "bob") None "2024-06-10" "14:00"
               (Some "evt2") Active None.

Definition store_1 : Store := final (Repo.createBooking booking_1 empty_store).

Definition booking_with_empty_notes : NewBooking :=
  mkNewBooking "4713" None None "2024-06-12" "09:00" None Active (Some EmptyString).

(** A booking to which no history row refers, as one is after
    [booking_history] was dropped and created again. *)
Definition unlogged_store : Store :=
  mkStore [mkBooking 1 "4711" (Some "ann") (Some "ann") "2024-06-10" "14:00"
                     (Some "evt1") Active None 1718000000 1718000000]
          1 [] 0 1718000600.

(** The tokens of [k1 = ?, k2 = ?, ...]. *)
Fixpoint assignment_tokens (updates : list FieldUpdate) : list Sql.token :=
  match updates with
  | [] => []
  | [u] => [Sql.TWord (key_of u); Sql.TEq; Sql.TParam]
  | u :: rest => Sql.TWord (key_of u) :: Sql.TEq :: Sql.TParam :: Sql.TComma :: assignment_tokens rest
  end.

(** The store after a history INSERT that went through. *)
Definition logged (bookingId : Z) (action : Action)
    (oldValues newValues : option Snapshot) (performedBy : string)
    (s : Store) : Store :=
  mkStore (bookings s) (bookings_seq s)
    (booking_history s
       ++ [mkHistory (Z.max (history_seq s) (max_hid (booking_history s)) + 1)
             bookingId action oldValues newValues performedBy (db_clock s)])
    (Z.max (history_seq s) (max_hid (booking_history s)) + 1) (db_clock s).

(** The table after
    UPDATE bookings SET status = 'cancelled', updatedAt = CURRENT_TIMESTAMP
    WHERE id = ?. *)
Definition cancelled_rows (bid : Z) (s : Store) : Store :=
  mkStore
    (map (fun r => if id r =? bid
                   then apply_update (SetUpdatedAt (db_clock s))
                                     (spread r [SetStatus Cancelled])
                   else r) (bookings s))
    (bookings_seq s) (booking_history s) (history_seq s) (db_clock s).

(** Sample data for the calendar service: Monday 2024-06-10, half a
    minute past ten; a credential that is good for another hour; a token
    endpoint and a calendar that answer. *)
Definition monday_10_00_30 : Cal.Moment := Cal.mkMoment (Cal.ymd 2024 6 10) 10 0 30 0.

Definition monday_10_00_30_250 : Cal.Moment :=
  Cal.mkMoment (Cal.ymd 2024 6 10) 10 0 30 250.

Definition fresh_credentials : Cal.Credentials :=
  Cal.mkCredentials "access-1" "refresh-1" (Cal.valueOf monday_10_00_30 + 3600000).

Definition authorized : Cal.Service :=
  Cal.mkService (Some fresh_credentials) (Some fresh_credentials) [].

Definition token_endpoint_up (c : option Cal.Credentials) : result Cal.Credentials :=
  Ok (Cal.mkCredentials "access-2" "refresh-1" (Cal.valueOf monday_10_00_30 + 7200000)).

Definition store_ok (c : Cal.Credentials) : result unit := Ok tt.

Definition token_endpoint_down (c : option Cal.Credentials) : result Cal.Credentials :=
  Throw (JsError "invalid_grant").

Definition no_events (timeMin : Cal.Moment) (timeMax : option Cal.Moment)
  : result (option (list Cal.CalendarEvent)) := Ok (Some []).

Definition one_event_tuesday_9 (timeMin : Cal.Moment) (timeMax : option Cal.Moment)
  : result (option (list Cal.CalendarEvent)) :=
  Ok (Some [Cal.mkCalendarEvent (Cal.mkMoment (Cal.ymd 2024 6 11) 9 0 0 0)]).

(** A moment whose time of day is one. *)
Definition time_in_range (m : Cal.Moment) : Prop :=
  0 <= Cal.m_hour m < 24 /\ 0 <= Cal.m_minute m < 60
  /\ 0 <= Cal.m_second m < 60 /\ 0 <= Cal.m_ms m < 1000.

(** A stand-in for SHA-256 in examples. *)
Definition toy_digest (script : list Mig.Ddl) : string :=
  if (length script <=? 2)%nat then "0f" else "a7".


(** ** The queries of the repository, the scheduler's sweep, the facade *)

Module Queries.

(** ORDER BY sessionDate, sessionTime: the two TEXT columns compared byte
    by byte (the BINARY collation), the date first. *)
Definition slot_leb (a b : Booking) : bool :=
  match String.compare (sessionDate a) (sessionDate b) with
  | Lt => true
  | Eq => String.leb (sessionTime a) (sessionTime b)
  | Gt => false
  end.

Definition slot_le (a b : Booking) : Prop := slot_leb a b = true.

#[global] Instance slot_le_dec : RelDecision slot_le.
Proof. intros a b. unfold slot_le. apply _. Defined.

Definition order_by_slot (rows : list Booking) : list Booking :=
  merge_sort slot_le rows.

(** SELECT * FROM bookings WHERE telegramUserId = ? AND status = 'active'
    ORDER BY sessionDate, sessionTime *)
Definition getBookingsByUser (user : string) : M Store (list Booking) :=
  query (fun s =>
           order_by_slot
             (List.filter
                (fun r => String.eqb (telegramUserId r) user
                          && Status_eqb (status r) Active)
                (bookings s))).

(** SELECT * FROM bookings WHERE status = 'active' AND sessionDate >= date('now')
    ORDER BY sessionDate, sessionTime; [date_now] is what the engine
    evaluates date('now') to. *)
Definition getActiveBookings (date_now : string) : M Store (list Booking) :=
  query (fun s =>
           order_by_slot
             (List.filter
                (fun r => Status_eqb (status r) Active
                          && String.leb date_now (sessionDate r))
                (bookings s))).

(** SELECT * FROM bookings WHERE sessionDate BETWEEN ? AND ?
    ORDER BY sessionDate, sessionTime *)
Definition getBookingsByDateRange (startDate endDate : string)
  : M Store (list Booking) :=
  query (fun s =>
           order_by_slot
             (List.filter
                (fun r => String.leb startDate (sessionDate r)
                          && String.leb (sessionDate r) endDate)
                (bookings s))).

(** The WHERE clause of the sweep:
    status = 'active' AND (sessionDate < ? OR (sessionDate = ? AND sessionTime < ?)) *)
Definition is_past (currentDate currentTime : string) (r : Booking) : bool :=
  String.ltb (sessionDate r) currentDate
  || (String.eqb (sessionDate r) currentDate
      && String.ltb (sessionTime r) currentTime).

Definition swept (currentDate currentTime : string) (r : Booking) : bool :=
  Status_eqb (status r) Active && is_past currentDate currentTime r.

(** [DatabaseScheduler.markPastSessionsCompleted], given the two strings it
    derives from [new Date()]:
    UPDATE bookings SET status = 'completed', updatedAt = CURRENT_TIMESTAMP
    WHERE ...; the value is [result.changes]. *)
Definition markPastSessionsCompleted (currentDate currentTime : string)
  : M Store nat :=
  stmt (fun s =>
          let rows :=
            map (fun r =>
                   if swept currentDate currentTime r
                   then apply_update (SetUpdatedAt (db_clock s))
                                     (apply_update (SetStatus Completed) r)
                   else r)
                (bookings s) in
          Ok (length (List.filter (swept currentDate currentTime) (bookings s)),
              mkStore rows (bookings_seq s)
                      (booking_history s) (history_seq s) (db_clock s))).

(** [updates.telegramUserId]: the value of that property, if there is one
    (the last, should a list name it twice). *)
Fixpoint telegramUserId_of (updates : list FieldUpdate) : option string :=
  match updates with
  | [] => None
  | SetTelegramUserId v :: rest =>
      match telegramUserId_of rest with
      | Some v' => Some v'
      | None => Some v
      end
  | _ :: rest => telegramUserId_of rest
  end.

(** The facade [Database] in front of the repository:
    [updates.telegramUserId || 'system'] is the performer of an update, the
    owner of the booking the performer of a cancellation. *)
Definition Database_updateBooking (bid : Z) (updates : list FieldUpdate)
  : M Store unit :=
  Repo.updateBooking bid updates
    (match telegramUserId_of updates with
     | Some EmptyString | None => "system"
     | Some user => user
     end).

Definition Database_cancelBooking (bid : Z) : M Store unit :=
  do booking <- Repo.getBookingById bid;
  match booking with
  | None => throw (JsError "Booking not found")
  | Some b => Repo.cancelBooking bid (telegramUserId b)
  end.

End Queries.

(** ** The statistics of the repository *)

Module Stats.

Record Statistics : Type := mkStatistics {
  totalBookings : nat;
  activeBookings : nat;
  cancelledBookings : nat;
  completedBookings : nat;
  uniqueUsers : nat;
  completionRate : option QArith_base.Q
}.

(** COUNT(CASE WHEN status = ... THEN 1 END) *)
Definition count_status (v : Status) (rows : list Booking) : nat :=
  length (List.filter (fun r => Status_eqb (status r) v) rows).

(** AVG(CASE WHEN status = 'completed' THEN 1.0 ELSE 0.0 END): NULL over
    no rows. *)
Definition average_completed (rows : list Booking) : option QArith_base.Q :=
  match length rows with
  | O => None
  | S n => Some (QArith_base.Qmake (Z.of_nat (count_status Completed rows))
                                   (Pos.of_succ_nat n))
  end.

(** The SELECT of [getBookingStatistics].  Its WHERE clause compares the
    text of [createdAt] with [cutoffDate.toISOString()]; [since] says of a
    clock reading whether it passes. *)
Definition statistics (since : Z -> bool) (table : list Booking) : Statistics :=
  let rows := List.filter (fun r => since (createdAt r)) table in
  mkStatistics (length rows)
               (count_status Active rows)
               (count_status Cancelled rows)
               (count_status Completed rows)
               (length (remove_dups (map telegramUserId rows)))
               (average_completed rows).

Definition getBookingStatistics (since : Z -> bool) : M Store Statistics :=
  query (fun s => statistics since (bookings s)).

End Stats.

(** ** The connection: backup, restore, retention ([DatabaseConnection]) *)

Module Files.

(** [file.startsWith(p)] and [file.endsWith(q)] *)
Definition startsWith (file p : string) : bool := String.prefix p file.

Fixpoint endsWith (file q : string) : bool :=
  String.eqb file q
  || match file with
     | EmptyString => false
     | String _ rest => endsWith rest q
     end.

(** The test both [cleanupOldBackups] and [listBackups] apply to the names
    of the backup directory. *)
Definition is_backup_name (file : string) : bool :=
  startsWith file "tennis_bookings_" && endsWith file ".db".

(** [`tennis_bookings_${timestamp}.db`] *)
Definition backup_filename (timestamp : string) : string :=
  "tennis_bookings_" +:+ timestamp +:+ ".db".

(** An entry of the backup directory as [readdirSync] and [statSync] show
    it: its name and its [mtime]. *)
Definition Entry : Type := (string * Z)%type.

Definition newer_first (a b : Entry) : Prop := snd b <= snd a.

#[global] Instance newer_first_dec : RelDecision newer_first.
Proof. intros a b. unfold newer_first. apply _. Defined.

(** [cleanupOldBackups], given the directory and the cut-off instant: the
    backups, newest first, and of them the ones that are unlinked. *)
Definition backupFiles (dir : list Entry) : list Entry :=
  merge_sort newer_first (List.filter (fun f => is_backup_name (fst f)) dir).

Definition unlinked (dir : list Entry) (cutoffDate : Z) : list string :=
  map fst (List.filter (fun backup => snd backup <? cutoffDate) (backupFiles dir)).

Definition cleanupOldBackups (dir : list Entry) (cutoffDate : Z) : list Entry :=
  List.filter (fun f => negb (existsb (String.eqb (fst f)) (unlinked dir cutoffDate))) dir.

Section Connection.

(** What a database file holds is left open; a file is a database or it
    is not. *)
Variable Data : Type.

Inductive File : Type :=
| Sqlite (d : Data)
| Garbage.

(** The configuration, [path.join], and the empty database that opening
    a missing file creates. *)
Variable dbPath : string.
Variable backupPath : string.
Variable path_join : string -> string -> string.
Variable empty_database : Data.
Variable file_size : File -> Z.
Variable sha256_hex : File -> string.

Record Connection : Type := mkConnection {
  fs : gmap string File;
  isConnected : bool
}.

Record BackupInfo : Type := mkBackupInfo {
  filename : string;
  path : string;
  size : Z;
  checksum : string
}.

(** [new Database(dbPath)] and the pragmas: a missing file is created, a
    file that is no database is refused. *)
Definition initializeConnection : M Connection unit :=
  fun c =>
    match fs c !! dbPath with
    | Some (Sqlite _) => Outcome (Ok tt) (mkConnection (fs c) true) []
    | Some Garbage => Outcome (Throw (SqliteError "SQLITE_NOTADB")) c []
    | None =>
        Outcome (Ok tt)
                (mkConnection (<[dbPath := Sqlite empty_database]> (fs c)) true) []
    end.

Definition close : M Connection unit :=
  fun c =>
    if isConnected c then Outcome (Ok tt) (mkConnection (fs c) false) []
    else Outcome (Ok tt) c [].

(** [verifyBackup]: the file opens as a database, or [false]. *)
Definition verifyBackup (backupFile : string) : M Connection bool :=
  query (fun c =>
           match fs c !! backupFile with
           | Some (Sqlite _) => true
           | _ => false
           end).

Definition copyFileSync (src dest : string) : M Connection unit :=
  fun c =>
    match fs c !! src with
    | Some f => Outcome (Ok tt) (mkConnection (<[dest := f]> (fs c)) (isConnected c)) []
    | None => Outcome (Throw (JsError "ENOENT: no such file or directory")) c []
    end.

(** [backup], for the time stamp it reads off the clock: the open
    database is copied into the backup directory. *)
Definition backup (timestamp : string) : M Connection BackupInfo :=
  fun c =>
    let filename := backup_filename timestamp in
    let backupFile := path_join backupPath filename in
    if isConnected c then
      match fs c !! dbPath with
      | Some (Sqlite d) =>
          Outcome (Ok (mkBackupInfo filename backupFile (file_size (Sqlite d))
                                    (sha256_hex (Sqlite d))))
                  (mkConnection (<[backupFile := Sqlite d]> (fs c)) true) []
      | _ => Outcome (Throw (SqliteError "SQLITE_ERROR")) c []
      end
    else Outcome (Throw (JsError "The database connection is not open")) c [].

Definition restore (backupFile : string) : M Connection unit :=
  try_catch
    (do found <- query (fun c => bool_decide (is_Some (fs c !! backupFile)));
     if negb found
     then throw (JsError ("Backup file not found: " +:+ backupFile))
     else
       do isValid <- verifyBackup backupFile;
       if negb isValid
       then throw (JsError "Backup file is corrupted")
       else
         exec close;
         exec copyFileSync backupFile dbPath;
         initializeConnection)
    (fun error => throw error).

(** [performRestore] of restore.ts once the file was found and the user
    has said yes: the current database is backed up, then replaced.  The
    health check between the restore and [close] reads and prints only. *)
Definition performRestore (timestamp : string) (backupFile : string)
  : M Connection unit :=
  exec initializeConnection;
  do currentBackup <- backup timestamp;
  exec restore backupFile;
  close.

End Connection.

Arguments Sqlite {Data} d.
Arguments Garbage {Data}.
Arguments fs {Data} c.
Arguments isConnected {Data} c.
Arguments mkConnection {Data} fs isConnected.

End Files.

(** ** The bot's keyboards and the data of their buttons ([BotService]) *)

Module Bot.

(** [s.split('_')]; [piece] is what was read since the last underscore. *)
Fixpoint split_from (piece : string) (s : string) : list string :=
  match s with
  | EmptyString => [piece]
  | String c rest =>
      if Ascii.eqb c "_" then piece :: split_from EmptyString rest
      else split_from (piece +:+ String c EmptyString) rest
  end.

Definition split (s : string) : list string := split_from EmptyString s.

Fixpoint no_underscore (s : string) : bool :=
  match s with
  | EmptyString => true
  | String c rest => negb (Ascii.eqb c "_") && no_underscore rest
  end.

Section Keyboards.

(** The text of a date, which [format('YYYY-MM-DD')] gave the slot. *)
Variable date_text : Cal.Date -> string.

(** A button, by its callback data: [slots.slice(0, 20).map(...)], then
    the button of the main menu. *)
Definition createDaySlotsKeyboard (slots : list Cal.DayTimeSlot) : list string :=
  map (fun slot => "book_day_" +:+ date_text (Cal.ds_date slot)) (firstn 20 slots)
  ++ ["main_menu"].

Definition createSlotsKeyboard (slots : list Cal.TimeSlot) : list string :=
  map (fun slot => "book_" +:+ date_text (Cal.ts_date slot)) (firstn 20 slots)
  ++ ["main_menu"].

End Keyboards.

(** [const [, date, time] = callbackData.split('_')] of [handleBookSlot];
    a missing element is [undefined]. *)
Definition handleBookSlot_fields (callbackData : string)
  : option string * option string :=
  let parts := split callbackData in
  (nth_error parts 1, nth_error parts 2).

End Bot.

(** ** Authorization of the calendar service *)

Module Auth.
Section Callback.

(** Google's answer to the authorization code, and the token store. *)
Variable getToken : string -> result Cal.Credentials.
Variable db_storeTokens : Cal.Credentials -> result unit.

(** [handleAuthCallback]: no [catch], whatever fails comes out as it is. *)
Definition handleAuthCallback (code : string) : M Cal.Service unit :=
  do tokens <- (fun s => Outcome (getToken code) s []);
  exec Cal.setCredentials tokens;
  Cal.storeTokens db_storeTokens tokens.

(** [initializeAuth], run by the constructor: the stored tokens, if there
    are any, become the client's credentials. *)
Definition initializeAuth : M Cal.Service unit :=
  fun s =>
    match Cal.auth_tokens s with
    | Some tokens => Cal.setCredentials tokens s
    | None => Outcome (Ok tt) s []
    end.

(** The route [/auth/callback] of the server: the status it answers with.
    [code] is [req.query.code]; a missing or empty one is refused. *)
Definition auth_callback_route (code : option string) : M Cal.Service Z :=
  match code with
  | None | Some EmptyString => ret 400
  | Some code =>
      try_catch (exec handleAuthCallback code; ret 200) (fun _ => ret 500)
  end.

End Callback.

(** A new process: the client starts without credentials, the table is
    what it was. *)
Definition restarted (s : Cal.Service) : Cal.Service :=
  Cal.mkService None (Cal.auth_tokens s) [].

End Auth.

(** One slot before another: on an earlier date, or on the same date at
    an earlier hour. *)
Definition earlier (a b : Cal.TimeSlot) : Prop :=
  Cal.ts_date a < Cal.ts_date b
  \/ (Cal.ts_date a = Cal.ts_date b /\ fst (Cal.ts_time a) < fst (Cal.ts_time b)).

(** The table a migration is about, with its columns, and the indexes on
    it, each with its columns: what its forward script creates. *)
Definition table_of (m : Mig.Migration) : string :=
  match Mig.up m with
  | Mig.CreateTableIfNotExists t _ _ :: _ => t
  | _ => EmptyString
  end.

Definition columns_of (m : Mig.Migration) : list string :=
  match Mig.up m with
  | Mig.CreateTableIfNotExists _ columns _ :: _ => columns
  | _ => []
  end.

Definition parents_of (m : Mig.Migration) : list string :=
  match Mig.up m with
  | Mig.CreateTableIfNotExists _ _ parents :: _ => parents
  | _ => []
  end.

Definition indexes_of (m : Mig.Migration) : list (string * list string) :=
  flat_map (fun d => match d with
                     | Mig.CreateIndexIfNotExists i _ columns => [(i, columns)]
                     | _ => []
                     end)
           (Mig.up m).

Definition index_names (m : Mig.Migration) : list string := map fst (indexes_of m).

(** Whether a schema lets the forward script of a migration run through.
    The table is there already, or its name is free of indexes; and for
    each index of the script, no table has the index's name, and an index
    of that name is there already, or the table is yet to be created, or
    the table that is there has the columns the index is on. *)
Definition fits_index (db : Mig.Db) (t : string) (ix : string * list string) : bool :=
  negb (Mig.has_table (fst ix) db)
  && (Mig.has_index (fst ix) db
      || negb (Mig.has_table t db)
      || forallb (fun c => Mig.has_column t c db) (snd ix)).

Definition fits (m : Mig.Migration) (db : Mig.Db) : bool :=
  (Mig.has_table (table_of m) db || negb (Mig.has_index (table_of m) db))
  && forallb (fits_index db (table_of m)) (indexes_of m).

(** The longest initial part of a list all of whose elements pass [p]. *)
Fixpoint leading {A} (p : A -> bool) (l : list A) : list A :=
  match l with
  | [] => []
  | x :: rest => if p x then x :: leading p rest else []
  end.

(** The migrations [runMigrations] finds pending in [db], and of these the
    ones [db] lets it apply: those before the first whose script the
    schema does not fit. *)
Definition pending (db : Mig.Db) : list Mig.Migration :=
  List.filter (fun m => Mig.version m >? Mig.currentVersion db) Mig.getMigrations.

Definition applicable (db : Mig.Db) : list Mig.Migration :=
  leading (fun m => fits m db) (pending db).

(** The migrations [rollback] takes back from [db] for a target version,
    in the order it takes them. *)
Definition to_rollback (targetVersion : Z) (db : Mig.Db) : list Mig.Migration :=
  List.filter (fun m => (Mig.version m >? targetVersion)
                        && (Mig.version m <=? Mig.currentVersion db))
              (rev Mig.getMigrations).

(** A store without the migrations [ms]: their tables, the indexes on the
    tables of theirs that are there, and their rows in [migrations] are
    gone, the rest is as it was. *)
Definition without (ms : list Mig.Migration) (db : Mig.Db) : Mig.Db :=
  Mig.mkDb
    (List.filter
       (fun x => negb (existsb (fun m => Mig.same_name (table_of m) (Mig.t_name x)) ms))
       (Mig.tables db))
    (List.filter
       (fun ix => negb (existsb (fun m => Mig.has_table (table_of m) db
                                          && Mig.same_name (table_of m) (snd ix)) ms))
       (Mig.indexes db))
    (List.filter
       (fun r => negb (existsb (fun m => Mig.row_version r =? Mig.version m) ms))
       (Mig.migrations db)).

(** Whether [DROP TABLE] of a migration's table fails in [db]: the table is
    there and a row of another table refers to one of its rows. *)
Definition held (m : Mig.Migration) (db : Mig.Db) : bool :=
  Mig.has_table (table_of m) db && Mig.is_referenced (table_of m) db.

(** Of the migrations [ms], in their order, the ones [db] lets [rollback]
    take back: those before the first whose table is held when its turn
    comes. *)
Fixpoint taken_back (ms : list Mig.Migration) (db : Mig.Db) : list Mig.Migration :=
  match ms with
  | [] => []
  | m :: rest => if held m db then [] else m :: taken_back rest (without [m] db)
  end.

(** A schema that holds back no rollback of the defined migrations from
    the highest version down: a table whose rows refer to the table of a
    defined migration is that table itself or the table of a defined
    migration of a higher version. *)
Definition releases (db : Mig.Db) : bool :=
  forallb
    (fun x =>
       forallb
         (fun m =>
            negb (existsb (Mig.same_name (table_of m)) (Mig.t_referenced x))
            || Mig.same_name (table_of m) (Mig.t_name x)
            || existsb (fun m' => (Mig.version m <? Mig.version m')
                                  && Mig.same_name (table_of m') (Mig.t_name x))
                       Mig.getMigrations)
         Mig.getMigrations)
    (Mig.tables db).

(** Two migrations whose scripts share no name of a table or an index. *)
Definition names_apart (m m' : Mig.Migration) : bool :=
  forallb (fun x => forallb (fun y => negb (Mig.same_name x y))
                            (table_of m' :: index_names m'))
          (table_of m :: index_names m).

(** A list of names no two of which the engine takes for the same. *)
Fixpoint names_distinct (names : list string) : bool :=
  match names with
  | [] => true
  | x :: rest => negb (existsb (Mig.same_name x) rest) && names_distinct rest
  end.

(** What applying the migrations [ms] has made of a store [d]: their rows
    are appended in their order; their tables and indexes are in the
    schema, whatever the case of the letters of a name; a table that was
    not there has the columns of its script, one that was there keeps its
    own; and the tables that came have no rows. *)
Definition reached (sha256_hex : list Mig.Ddl -> string) (ms : list Mig.Migration)
    (d d' : Mig.Db) : Prop :=
  Mig.migrations d' = Mig.migrations d ++ map (Mig.recorded sha256_hex) ms
  /\ (forall x, Mig.has_table x d'
                = Mig.has_table x d
                  || existsb (fun m => Mig.same_name x (table_of m)) ms)
  /\ (forall x, Mig.has_index x d'
                = Mig.has_index x d
                  || existsb (fun m => existsb (Mig.same_name x) (index_names m)) ms)
  /\ (forall x c, Mig.has_column x c d'
                  = Mig.has_column x c d
                    || (negb (Mig.has_table x d)
                        && existsb (fun m => Mig.same_name x (table_of m)
                                             && existsb (Mig.same_name c) (columns_of m))
                                   ms))
  /\ (exists news, Mig.tables d' = Mig.tables d ++ news
                   /\ Forall (fun t => Mig.t_referenced t = []) news).

(** Sample schemas.  [legacy_store] is what the [init] of the earlier
    [Database] class leaves: [bookings] and [auth_tokens] in their first
    form, with rows in them.  [foreign_store] holds a table [bookings] that
    is not the application's: it has the name and none of the columns. *)
Definition legacy_store : Mig.Db :=
  Mig.mkDb
    [Mig.mkTable "bookings"
       ["id"; "telegramUserId"; "username"; "phoneNumber"; "sessionDate";
        "sessionTime"; "googleEventId"; "status"; "createdAt"; "updatedAt"] [] [];
     Mig.mkTable "auth_tokens"
       ["id"; "accessToken"; "refreshToken"; "expiryDate"; "createdAt"] [] []]
    [] [].

Definition foreign_store : Mig.Db :=
  Mig.mkDb [Mig.mkTable "bookings" ["id"; "title"] [] []] [] [].

(** [history_store] is a database the application has used and whose
    [migrations] table was emptied: the four tables in their present form,
    with bookings and with history rows that refer to them, and a table
    [notes_archive] of another program. *)
Definition history_store : Mig.Db :=
  Mig.mkDb
    [Mig.mkTable "bookings"
       ["id"; "telegramUserId"; "username"; "phoneNumber"; "sessionDate";
        "sessionTime"; "googleEventId"; "status"; "notes"; "createdAt"; "updatedAt"]
       [] [];
     Mig.mkTable "notes_archive" ["id"; "text"] [] [];
     Mig.mkTable "booking_history"
       ["id"; "bookingId"; "action"; "oldValues"; "newValues"; "performedBy";
        "timestamp"]
       ["bookings"] ["bookings"]]
    [("idx_history_booking", "booking_history")]
    [].

(** [audited_store] is an up-to-date database next to which another
    program keeps a table [audit] whose rows refer to rows of [bookings]. *)
Definition audited_store : Mig.Db :=
  Mig.mkDb
    [Mig.mkTable "bookings"
       ["id"; "telegramUserId"; "username"; "phoneNumber"; "sessionDate";
        "sessionTime"; "googleEventId"; "status"; "notes"; "createdAt"; "updatedAt"]
       [] [];
     Mig.mkTable "auth_tokens"
       ["id"; "accessToken"; "refreshToken"; "expiryDate"; "scope"; "createdAt";
        "updatedAt"] [] [];
     Mig.mkTable "user_preferences"
       ["id"; "telegramUserId"; "timezone"; "notifications"; "language";
        "preferredTimes"; "createdAt"; "updatedAt"] [] [];
     Mig.mkTable "booking_history"
       ["id"; "bookingId"; "action"; "oldValues"; "newValues"; "performedBy";
        "timestamp"]
       ["bookings"] ["bookings"];
     Mig.mkTable "audit" ["id"; "bookingId"] ["bookings"] ["bookings"]]
    []
    [Mig.mkRow 1 "initial_schema" "a7"; Mig.mkRow 2 "auth_tokens_table" "0f";
     Mig.mkRow 3 "user_preferences_table" "5c";
     Mig.mkRow 4 "booking_history_table" "e1"].
(** The store with the engine's clock moved to [t]. *)
Definition at_clock (t : Z) (s : Store) : Store :=
  mkStore (bookings s) (bookings_seq s) (booking_history s) (history_seq s) t.

(** Sample data for the authorization and the event operations: a service
    that was never authorized, Google's answers to an authorization code,
    a token store that is locked, an event and the calendar's answers. *)
Definition unauthorized : Cal.Service := Cal.mkService None None [].

Definition code_accepted (code : string) : result Cal.Credentials :=
  Ok fresh_credentials.

Definition code_refused (code : string) : result Cal.Credentials :=
  Throw (JsError "invalid_grant").

Definition store_down (c : Cal.Credentials) : result unit :=
  Throw (SqliteError "SQLITE_BUSY").

Definition tennis_session : Cal.GoogleCalendarEvent :=
  Cal.mkGoogleCalendarEvent "Tennis Session - @ann" "Tennis session booked by ann"
                            "2024-06-11T06:00:00.000Z" "2024-06-11T07:00:00.000Z".

Definition insert_ok (event : Cal.GoogleCalendarEvent) : result string := Ok "evt1".

Definition patch_ok (eventId : string) (event : Cal.GoogleCalendarEvent)
  : result unit := Ok tt.

Definition delete_gone (eventId : string) : result unit :=
  Throw (JsError "Resource has been deleted").

(** A sample rendering of dates. *)
Definition sample_date_text (d : Cal.Date) : string :=
  if d =? Cal.ymd 2024 6 10 then "2024-06-10" else "2024-06-11".

(** Sample files: the database, an older backup of it and a file that is
    no database; a backup directory with an old and a recent backup and a
    file of another kind. *)
Definition sample_join (dir file : string) : string := dir +:+ file.

Definition sample_size (f : Files.File Store) : Z := 4096.

Definition sample_checksum (f : Files.File Store) : string :=
  match f with
  | Files.Sqlite d => if (length (bookings d) =? 0)%nat then "0f" else "a7"
  | Files.Garbage => "ff"
  end.

Definition sample_connection : Files.Connection Store :=
  Files.mkConnection
    (<["data/tennis_bookings.db" := Files.Sqlite store_1]>
       (<["data/backups/tennis_bookings_2024-06-01T08-00-00-000Z.db"
            := Files.Sqlite empty_store]>
          (<["data/backups/notes.txt" := Files.Garbage]> ∅)))
    true.

Definition sample_directory : list Files.Entry :=
  [("tennis_bookings_2024-04-01T08-00-00-000Z.db", 100);
   ("tennis_bookings_2024-06-01T08-00-00-000Z.db", 300);
   ("notes.txt", 50)].

(** * Properties *)

(** ** The generated UPDATE statement *)

Section UpdateSql.
Import Sql.

Lemma string_app_assoc (a b c : string) : (a +:+ b) +:+ c = a +:+ (b +:+ c).
Proof.
  induction a as [|x a IH]; [reflexivity |].
  change (String x ((a +:+ b) +:+ c) = String x (a +:+ (b +:+ c))).
  now rewrite IH.
Qed.

Lemma key_not_keyword (u : FieldUpdate) : is_keyword (key_of u) = false.
Proof. destruct u; reflexivity. Qed.


Lemma lex_assignment (u : FieldUpdate) (rest : string) :
  lex EmptyString ((key_of u +:+ " = ?") +:+ rest)
  = TWord (key_of u) :: TEq :: TParam :: lex EmptyString rest.
Proof. destruct u; reflexivity. Qed.

Lemma lex_fields (u : FieldUpdate) (us : list FieldUpdate) (c : ascii) (rest : string) :
  is_word_char c = false ->
  lex EmptyString (Repo.fields (u :: us) +:+ String c rest)
  = assignment_tokens (u :: us) ++ lex EmptyString (String c rest).
Proof.
  intros Hc. revert u. induction us as [|u' us IH]; intros u.
  - unfold Repo.fields. simpl map. simpl String.concat.
    rewrite lex_assignment. reflexivity.
  - unfold Repo.fields in *. simpl map in *.
    change (String.concat ", " ((key_of u +:+ " = ?") :: (key_of u' +:+ " = ?")
               :: map (fun key => key +:+ " = ?") (map key_of us)))
      with ((key_of u +:+ " = ?") +:+ ", " +:+
            String.concat ", " ((key_of u' +:+ " = ?")
               :: map (fun key => key +:+ " = ?") (map key_of us))).
    rewrite string_app_assoc, lex_assignment.
    rewrite string_app_assoc.
    match goal with
    | |- context [lex EmptyString (", " +:+ ?x)] =>
        change (lex EmptyString (", " +:+ x)) with (TComma :: lex EmptyString x)
    end.
    rewrite IH. reflexivity.
Qed.

Lemma parse_assignment_tokens (u : FieldUpdate) (us : list FieldUpdate) (tail : list token) :
  parse_assignments
    (assignment_tokens (u :: us)
     ++ TComma :: TWord "updatedAt" :: TEq :: TWord "CURRENT_TIMESTAMP"
        :: TWord "WHERE" :: tail)
  = Some (map (fun v => (key_of v, Param)) (u :: us)
            ++ [("updatedAt", CurrentTimestamp)],
          TWord "WHERE" :: tail).
Proof.
  revert u. induction us as [|u' us IH]; intros u.
  - cbn [assignment_tokens app parse_assignments].
    rewrite key_not_keyword. reflexivity.
  - change (assignment_tokens (u :: u' :: us))
      with (TWord (key_of u) :: TEq :: TParam :: TComma :: assignment_tokens (u' :: us)).
    cbn [app parse_assignments]. rewrite key_not_keyword.
    cbn [rhs_of]. rewrite IH. reflexivity.
Qed.

(** For a non-empty update the statement text is accepted, and what the
    engine reads in it is one parameter assignment per key, in key order,
    followed by the time stamp. *)
Lemma prepare_updateSql (u : FieldUpdate) (us : list FieldUpdate) :
  prepare (Repo.updateSql (u :: us))
  = Ok (mkUpdateStmt "bookings"
          (map (fun v => (key_of v, Param)) (u :: us)
             ++ [("updatedAt", CurrentTimestamp)])
          "id").
Proof.
  unfold prepare, Repo.updateSql.
  match goal with
  | |- context [lex EmptyString (?p +:+ ?f +:+ String ?c ?r)] =>
      change (lex EmptyString (p +:+ f +:+ String c r))
        with (TWord "UPDATE" :: TWord "bookings" :: TWord "SET"
                :: lex EmptyString (f +:+ String c r));
      rewrite (lex_fields u us c r eq_refl)
  end.
  match goal with
  | |- context [assignment_tokens _ ++ ?l] =>
      change l with (TComma :: TWord "updatedAt" :: TEq :: TWord "CURRENT_TIMESTAMP"
                       :: TWord "WHERE" :: [TWord "id"; TEq; TParam])
  end.
  cbv beta iota delta [parse_update].
  change (String.eqb "UPDATE" "UPDATE" && negb (is_keyword "bookings")
          && String.eqb "SET" "SET") with true. cbv iota.
  rewrite parse_assignment_tokens. reflexivity.
Qed.

(** With no key at all the SET clause starts with a comma, which is not
    SQL. *)
Lemma prepare_updateSql_empty :
  prepare (Repo.updateSql []) = Throw (SqliteError "SQLITE_ERROR").
Proof. reflexivity. Qed.

Lemma param_count_updateSql (us : list FieldUpdate) :
  param_count (mkUpdateStmt "bookings"
          (map (fun v => (key_of v, Param)) us
             ++ [("updatedAt", CurrentTimestamp)]) "id")
  = S (length us).
Proof.
  unfold param_count. cbn [u_assignments]. f_equal.
  induction us as [|u us IH]; [reflexivity | cbn; now rewrite IH].
Qed.

Lemma bind_params_updateSql (us : list FieldUpdate) (clock : Z) :
  Repo.bind_params
    (map (fun v => (key_of v, Param)) us ++ [("updatedAt", CurrentTimestamp)])
    us clock
  = Some (us ++ [SetUpdatedAt clock]).
Proof.
  induction us as [|u us IH]; [reflexivity|].
  cbn [map app Repo.bind_params]. now rewrite String.eqb_refl, IH.
Qed.
End UpdateSql.

(** ** What each repository operation does to the store *)

Section RepoFacts.
Import Repo.


Lemma stmt_ok {St A} (f : St -> result (A * St)) (s s' : St) (a : A) :
  f s = Ok (a, s') -> stmt f s = Outcome (Ok a) s' [s'].
Proof. intros H. unfold stmt. now rewrite H. Qed.

Lemma stmt_throw {St A} (f : St -> result (A * St)) (s : St) (e : Error) :
  f s = Throw e -> stmt f s = Outcome (Throw e) s [].
Proof. intros H. unfold stmt. now rewrite H. Qed.

Lemma bind_ok {St A B} (m : M St A) (k : A -> M St B) (s s1 : St) (a : A)
    (c1 : list St) :
  m s = Outcome (Ok a) s1 c1 ->
  bind m k s = Outcome (value (k a s1)) (final (k a s1)) (c1 ++ commits (k a s1)).
Proof. intros H. unfold bind. now rewrite H. Qed.

Lemma bind_throw {St A B} (m : M St A) (k : A -> M St B) (s s1 : St) (e : Error)
    (c1 : list St) :
  m s = Outcome (Throw e) s1 c1 -> bind m k s = Outcome (Throw e) s1 c1.
Proof. intros H. unfold bind. now rewrite H. Qed.

Lemma insert_history_logged bookingId action o n p s :
  has_booking bookingId (bookings s) = true ->
  insert_history bookingId action o n p s = Ok (tt, logged bookingId action o n p s).
Proof. intros H. unfold insert_history. rewrite H. reflexivity. Qed.

Lemma insert_history_orphan bookingId action o n p s :
  has_booking bookingId (bookings s) = false ->
  insert_history bookingId action o n p s = Throw foreign_key_failed.
Proof. intros H. unfold insert_history. rewrite H. reflexivity. Qed.

Lemma logBookingHistory_logged bookingId action o n p s :
  has_booking bookingId (bookings s) = true ->
  logBookingHistory bookingId action o n p s
  = Outcome (Ok tt) (logged bookingId action o n p s) [logged bookingId action o n p s].
Proof.
  intros H. unfold logBookingHistory, stmt. now rewrite insert_history_logged.
Qed.

Lemma logBookingHistory_orphan bookingId action o n p s :
  has_booking bookingId (bookings s) = false ->
  logBookingHistory bookingId action o n p s = Outcome (Throw foreign_key_failed) s [].
Proof.
  intros H. unfold logBookingHistory, stmt. now rewrite insert_history_orphan.
Qed.

Lemma has_booking_snoc (rows : list Booking) (r : Booking) :
  has_booking (id r) (rows ++ [r]) = true.
Proof.
  unfold has_booking. rewrite existsb_app. cbn [existsb].
  rewrite Z.eqb_refl. now rewrite orb_true_r.
Qed.

Lemma has_booking_found (bid : Z) (rows : list Booking) (old : Booking) :
  List.find (fun r => id r =? bid) rows = Some old -> has_booking bid rows = true.
Proof.
  intros H. apply List.find_some in H as [Hin Heq].
  apply existsb_exists. eauto.
Qed.

Lemma has_booking_missing (bid : Z) (rows : list Booking) :
  List.find (fun r => id r =? bid) rows = None -> has_booking bid rows = false.
Proof.
  intros H. unfold has_booking. destruct (existsb _ rows) eqn:E; [|reflexivity].
  apply existsb_exists in E as (r & Hin & Hr).
  now rewrite (List.find_none _ _ H r Hin) in Hr.
Qed.

Lemma createBooking_free nb s :
  slot_free (nb_sessionDate nb) (nb_sessionTime nb) s ->
  exists rowid s1,
    insert_booking nb s = Ok (rowid, s1) /\
    createBooking nb s
    = Outcome (Ok rowid)
        (logged rowid ACreated None (Some (SnapInput nb)) (nb_telegramUserId nb) s1)
        [s1; logged rowid ACreated None (Some (SnapInput nb)) (nb_telegramUserId nb) s1].
Proof.
  unfold slot_free. intros Hfree.
  assert (Hins : exists row,
             insert_booking nb s
             = Ok (id row, mkStore (bookings s ++ [row]) (id row)
                                   (booking_history s) (history_seq s) (db_clock s))).
  { unfold insert_booking. rewrite Hfree.
    eexists (mkBooking _ _ _ _ _ _ _ _ _ _ _). cbn [id]. reflexivity. }
  destruct Hins as (row & Hins). eexists _, _. split; [exact Hins|].
  unfold createBooking, try_catch, bind. rewrite (stmt_ok _ _ _ _ Hins).
  cbn [value final commits].
  rewrite logBookingHistory_logged by (cbn [bookings]; apply has_booking_snoc).
  reflexivity.
Qed.

Lemma createBooking_taken nb s :
  existsb (same_slot (nb_sessionDate nb) (nb_sessionTime nb)) (bookings s) = true ->
  createBooking nb s = Outcome (Throw slot_taken) s [].
Proof.
  intros Htaken.
  assert (Hins : insert_booking nb s = Throw (SqliteError "SQLITE_CONSTRAINT_UNIQUE"))
    by (unfold insert_booking; now rewrite Htaken).
  unfold createBooking, try_catch, bind. rewrite (stmt_throw _ _ _ Hins).
  reflexivity.
Qed.

Lemma updateBooking_missing bid updates p s :
  List.find (fun r => id r =? bid) (bookings s) = None ->
  updateBooking bid updates p s
  = Outcome (Throw (JsError "Booking not found")) s [].
Proof.
  intros Hnone. unfold updateBooking, bind, getBookingById, query. cbn.
  rewrite Hnone. reflexivity.
Qed.

Lemma updateBooking_empty bid p s old :
  List.find (fun r => id r =? bid) (bookings s) = Some old ->
  updateBooking bid [] p s = Outcome (Throw (SqliteError "SQLITE_ERROR")) s [].
Proof.
  intros Hsome. unfold updateBooking, bind, getBookingById, query. cbn.
  rewrite Hsome. reflexivity.
Qed.

Lemma updateBooking_found bid u us p s old :
  List.find (fun r => id r =? bid) (bookings s) = Some old ->
  updateBooking bid (u :: us) p s
  = match run_update
            (Sql.mkUpdateStmt "bookings"
               (map (fun v => (key_of v, Sql.Param)) (u :: us)
                  ++ [("updatedAt", Sql.CurrentTimestamp)]) "id")
            (u :: us) bid s with
    | Ok (_, s1) =>
        if has_booking bid (bookings s1)
        then
          Outcome (Ok tt)
            (logged bid AModified (Some (SnapRow old))
                    (Some (SnapRow (spread old (u :: us)))) p s1)
            [s1; logged bid AModified (Some (SnapRow old))
                        (Some (SnapRow (spread old (u :: us)))) p s1]
        else Outcome (Throw foreign_key_failed) s1 [s1]
    | Throw e => Outcome (Throw e) s []
    end.
Proof.
  intros Hsome. unfold updateBooking.
  erewrite bind_ok
    by (unfold getBookingById, query; rewrite Hsome; reflexivity).
  cbv beta iota.
  erewrite bind_ok by (unfold lift; rewrite prepare_updateSql; reflexivity).
  destruct (run_update _ _ _ _) as [[[] s1]|e] eqn:Hr.
  - rewrite (bind_ok _ _ _ _ _ _ (stmt_ok _ _ _ _ Hr)).
    destruct (has_booking bid (bookings s1)) eqn:Hb.
    + now rewrite logBookingHistory_logged.
    + now rewrite logBookingHistory_orphan.
  - now rewrite (bind_throw _ _ _ _ _ _ (stmt_throw _ _ _ Hr)).
Qed.


(** *** The two table constraints as an invariant *)

Lemma existsb_map_pred {A} (p q : A -> bool) (f : A -> A) (l : list A) :
  (forall x, p (f x) = q x) -> existsb p (map f l) = existsb q l.
Proof.
  intros H. induction l as [|x l IH]; [reflexivity|].
  cbn. now rewrite H, IH.
Qed.

Lemma has_booking_map (f : Booking -> Booking) (bid : Z) (rows : list Booking) :
  (forall r, id (f r) = id r) ->
  has_booking bid (map f rows) = has_booking bid rows.
Proof.
  intros H. unfold has_booking. apply existsb_map_pred. intros r. now rewrite H.
Qed.

Lemma ids_distinct_map (f : Booking -> Booking) (rows : list Booking) :
  (forall r, id (f r) = id r) ->
  ids_distinct (map f rows) = ids_distinct rows.
Proof.
  intros H. induction rows as [|r rows IH]; [reflexivity|].
  cbn. rewrite IH. f_equal. f_equal.
  apply existsb_map_pred. intros x. now rewrite !H.
Qed.

Lemma slots_distinct_map (f : Booking -> Booking) (rows : list Booking) :
  (forall r, sessionDate (f r) = sessionDate r /\ sessionTime (f r) = sessionTime r) ->
  slots_distinct (map f rows) = slots_distinct rows.
Proof.
  intros H. induction rows as [|r rows IH]; [reflexivity|].
  cbn. rewrite IH. f_equal. f_equal.
  destruct (H r) as [-> ->].
  apply existsb_map_pred. intros x. unfold same_slot.
  destruct (H x) as [-> ->]. reflexivity.
Qed.

Lemma same_slot_sym (a b : Booking) :
  same_slot (sessionDate a) (sessionTime a) b
  = same_slot (sessionDate b) (sessionTime b) a.
Proof.
  unfold same_slot. now rewrite (String.eqb_sym (sessionDate b)), (String.eqb_sym (sessionTime b)).
Qed.

Lemma slots_distinct_snoc (rows : list Booking) (r : Booking) :
  slots_distinct rows = true ->
  existsb (same_slot (sessionDate r) (sessionTime r)) rows = false ->
  slots_distinct (rows ++ [r]) = true.
Proof.
  induction rows as [|x rows IH]; intros Hd Hfree; [reflexivity|].
  cbn in *. apply andb_true_iff in Hd as [Hx Hd].
  apply orb_false_iff in Hfree as [Hxr Hfree].
  rewrite existsb_app. cbn. rewrite orb_false_r.
  rewrite IH by assumption. rewrite andb_true_r.
  apply negb_true_iff in Hx. rewrite Hx. cbn.
  rewrite same_slot_sym. now rewrite Hxr.
Qed.

Lemma max_id_bound (rows : list Booking) (r : Booking) :
  In r rows -> id r <= max_id rows.
Proof.
  induction rows as [|x rows IH]; intros Hin; [destruct Hin|].
  change (max_id (x :: rows)) with (Z.max (id x) (max_id rows)).
  destruct Hin as [->|Hin]; [lia|]. specialize (IH Hin). lia.
Qed.

Lemma ids_distinct_snoc (rows : list Booking) (r : Booking) :
  ids_distinct rows = true ->
  max_id rows < id r ->
  ids_distinct (rows ++ [r]) = true.
Proof.
  induction rows as [|x rows IH]; intros Hd Hmax; [reflexivity|].
  change (max_id (x :: rows)) with (Z.max (id x) (max_id rows)) in Hmax.
  cbn in Hd. apply andb_true_iff in Hd as [Hx Hd].
  cbn [app ids_distinct].
  rewrite existsb_app. cbn [existsb]. rewrite orb_false_r.
  rewrite IH by (assumption || lia). rewrite andb_true_r.
  apply negb_true_iff in Hx. rewrite Hx. cbn [orb].
  apply negb_true_iff, Z.eqb_neq. lia.
Qed.

Lemma find_some_id (bid : Z) (rows : list Booking) (old : Booking) :
  List.find (fun r => id r =? bid) rows = Some old -> In old rows /\ id old = bid.
Proof.
  intros H. apply List.find_some in H as [Hin Heq].
  split; [assumption | now apply Z.eqb_eq].
Qed.

Lemma run_update_inv (st : Sql.UpdateStmt) (us : list FieldUpdate) (bid : Z)
    (s s1 : Store) :
  run_update st us bid s = Ok (tt, s1) ->
  exists assignments,
    bind_params (Sql.u_assignments st) us (db_clock s) = Some assignments
    /\ s1 = mkStore (map (fun r => if id r =? bid then spread r assignments else r)
                         (bookings s))
                    (bookings_seq s) (booking_history s) (history_seq s) (db_clock s)
    /\ ids_distinct (bookings s1) = true
    /\ slots_distinct (bookings s1) = true
    /\ orphans_history assignments bid s = false.
Proof.
  unfold run_update. intros H.
  destruct (bind_params _ _ _) as [assignments|]; [|discriminate].
  destruct (ids_distinct _) eqn:Hi; [|discriminate].
  destruct (slots_distinct _) eqn:Hs; [|discriminate].
  destruct (orphans_history _ _ _) eqn:Ho; [discriminate|].
  cbn [negb] in H. injection H as <-. exists assignments. cbn [bookings]. auto.
Qed.

Lemma apply_update_keeps_id (u : FieldUpdate) (r : Booking) :
  String.eqb (key_of u) "id" = false -> id (apply_update u r) = id r.
Proof. destruct u; intros H; try reflexivity. discriminate. Qed.

Lemma spread_keeps_id (us : list FieldUpdate) (r : Booking) :
  assigns_id us = false -> id (spread r us) = id r.
Proof.
  unfold spread, assigns_id. revert r. induction us as [|u us IH]; intros r H.
  - reflexivity.
  - cbn [existsb] in H. apply orb_false_iff in H as [Hu H].
    cbn [fold_left]. rewrite (IH _ H). now apply apply_update_keeps_id.
Qed.

Lemma assigns_id_stamp (us : list FieldUpdate) (clock : Z) :
  assigns_id (us ++ [SetUpdatedAt clock]) = assigns_id us.
Proof.
  unfold assigns_id. rewrite existsb_app. cbn. now rewrite !orb_false_r.
Qed.

(** An UPDATE that does not name the [id] leaves a row under it. *)
Lemma run_update_keeps_key (us : list FieldUpdate) (bid : Z) (s s1 : Store)
    (old : Booking) :
  run_update
    (Sql.mkUpdateStmt "bookings"
       (map (fun v => (key_of v, Sql.Param)) us
          ++ [("updatedAt", Sql.CurrentTimestamp)]) "id")
    us bid s = Ok (tt, s1) ->
  assigns_id us = false ->
  List.find (fun r => id r =? bid) (bookings s) = Some old ->
  has_booking bid (bookings s1) = true.
Proof.
  intros Hr Ha Hfind.
  apply run_update_inv in Hr as (assignments & Hbind & -> & _).
  cbn [Sql.u_assignments] in Hbind. rewrite bind_params_updateSql in Hbind.
  injection Hbind as <-. cbn [bookings].
  rewrite has_booking_map; [exact (has_booking_found _ _ _ Hfind)|].
  intros r. destruct (id r =? bid); [|reflexivity].
  apply spread_keeps_id. now rewrite assigns_id_stamp.
Qed.

(** Cancelling keeps every row's key and slot, so the UPDATE passes the
    constraints whenever the table satisfied them. *)
Lemma run_update_cancel (bid : Z) (s : Store) :
  consistent s ->
  run_update
    (Sql.mkUpdateStmt "bookings"
       (map (fun v => (key_of v, Sql.Param)) [SetStatus Cancelled]
          ++ [("updatedAt", Sql.CurrentTimestamp)]) "id")
    [SetStatus Cancelled] bid s
  = Ok (tt, cancelled_rows bid s).
Proof.
  intros [Hids Hslots]. unfold run_update.
  cbn [Sql.u_assignments]. rewrite bind_params_updateSql.
  change (map _ (bookings s)) with (bookings (cancelled_rows bid s)).
  unfold cancelled_rows at 1 2. cbn [bookings].
  rewrite ids_distinct_map, Hids.
  2:{ intros r. destruct (id r =? bid); reflexivity. }
  rewrite slots_distinct_map, Hslots.
  2:{ intros r. destruct (id r =? bid); split; reflexivity. }
  reflexivity.
Qed.

Lemma has_booking_cancelled (bid bid' : Z) (s : Store) :
  has_booking bid' (bookings (cancelled_rows bid s)) = has_booking bid' (bookings s).
Proof.
  unfold cancelled_rows. cbn [bookings]. apply has_booking_map.
  intros r. destruct (id r =? bid); reflexivity.
Qed.

Lemma cancelBooking_missing bid p s :
  List.find (fun r => id r =? bid) (bookings s) = None ->
  cancelBooking bid p s = Outcome (Throw (JsError "Booking not found")) s [].
Proof.
  intros Hnone. unfold cancelBooking, bind, getBookingById, query.
  cbn [value final commits]. rewrite Hnone. reflexivity.
Qed.

Lemma cancelBooking_found bid p s old :
  consistent s ->
  List.find (fun r => id r =? bid) (bookings s) = Some old ->
  cancelBooking bid p s
  = let s1 := cancelled_rows bid s in
    let s2 := logged bid AModified (Some (SnapRow old))
                (Some (SnapRow (spread old [SetStatus Cancelled]))) p s1 in
    let s3 := logged bid ACancelled (Some (SnapRow old))
                (Some (SnapRow (spread old [SetStatus Cancelled]))) p s2 in
    Outcome (Ok tt) s3 [s1; s2; s3].
Proof.
  intros Hc Hsome. unfold cancelBooking, bind, getBookingById, query.
  cbn [value final commits]. rewrite Hsome.
  rewrite (updateBooking_found _ _ _ _ _ _ Hsome).
  rewrite (run_update_cancel _ _ Hc).
  rewrite has_booking_cancelled, (has_booking_found _ _ _ Hsome).
  cbn [value final commits].
  rewrite logBookingHistory_logged
    by (unfold logged; cbn [bookings];
        now rewrite has_booking_cancelled, (has_booking_found _ _ _ Hsome)).
  reflexivity.
Qed.
End RepoFacts.

(** ** Claims about the repository *)

Section RepoClaims.
Import Repo.

Lemma consistent_createBooking nb s :
  consistent s -> consistent (final (createBooking nb s)).
Proof.
  intros [Hids Hslots].
  destruct (existsb (same_slot (nb_sessionDate nb) (nb_sessionTime nb)) (bookings s))
    eqn:Hslot.
  - rewrite (createBooking_taken _ _ Hslot). now split.
  - destruct (createBooking_free nb s Hslot) as (rowid & s1 & Hins & ->).
    cbn [final]. unfold insert_booking in Hins. rewrite Hslot in Hins.
    injection Hins as <- <-. unfold consistent, logged. cbn [bookings].
    split.
    + apply ids_distinct_snoc; [assumption | cbn [id]; lia].
    + apply slots_distinct_snoc; assumption.
Qed.

Lemma consistent_updateBooking bid us p s :
  consistent s -> consistent (final (updateBooking bid us p s)).
Proof.
  intros Hc.
  destruct (List.find (fun r => id r =? bid) (bookings s)) as [old|] eqn:Hfind.
  2:{ now rewrite (updateBooking_missing _ _ _ _ Hfind). }
  destruct us as [|u us].
  { now rewrite (updateBooking_empty _ _ _ _ Hfind). }
  rewrite (updateBooking_found _ _ _ _ _ _ Hfind).
  destruct (run_update _ _ _ _) as [[[] s1]|e] eqn:Hrun; [|assumption].
  apply run_update_inv in Hrun as (assignments & _ & _ & Hi & Hs & _).
  destruct (has_booking bid (bookings s1)); cbn [final]; split; assumption.
Qed.

Lemma consistent_cancelBooking bid p s :
  consistent s -> consistent (final (cancelBooking bid p s)).
Proof.
  intros Hc.
  destruct (List.find (fun r => id r =? bid) (bookings s)) as [old|] eqn:Hfind.
  2:{ now rewrite (cancelBooking_missing _ _ _ Hfind). }
  rewrite (cancelBooking_found _ _ _ _ Hc Hfind). cbn [final].
  destruct Hc as [Hids Hslots]. unfold consistent, logged, cancelled_rows.
  cbn [bookings]. split.
  - rewrite ids_distinct_map; [assumption|].
    intros r. destruct (id r =? bid); reflexivity.
  - rewrite slots_distinct_map; [assumption|].
    intros r. destruct (id r =? bid); split; reflexivity.
Qed.

(** C1, as the code has it.  No repository operation opens a transaction:
    the statement that changes [bookings] and each INSERT into
    [booking_history] are committed one after the other.  An operation that
    returns has committed the data change first, in a store whose history is
    still the old one, and the history rows after it.  [createBooking] and
    [cancelBooking] that throw have written nothing.  [updateBooking] that
    throws has written nothing, or, when the update named the [id] and moved
    the row away from it, has committed the changed row and then failed the
    history INSERT on the foreign key: the change is durable and no history
    row was written.  An update that does not name the [id] throws only
    with nothing written. *)
Theorem mutations_commit_statement_by_statement (s : Store) :
  (forall nb,
     let o := createBooking nb s in
     (value o = Throw slot_taken /\ final o = s /\ commits o = [])
     \/ (exists rowid s1,
           insert_booking nb s = Ok (rowid, s1)
           /\ booking_history s1 = booking_history s
           /\ value o = Ok rowid
           /\ commits o
              = [s1; logged rowid ACreated None (Some (SnapInput nb))
                            (nb_telegramUserId nb) s1]
           /\ final o = logged rowid ACreated None (Some (SnapInput nb))
                               (nb_telegramUserId nb) s1))
  /\ (forall bid us p,
        let o := updateBooking bid us p s in
        (exists e, value o = Throw e /\ final o = s /\ commits o = [])
        \/ (exists st old s1,
              List.find (fun r => id r =? bid) (bookings s) = Some old
              /\ run_update st us bid s = Ok (tt, s1)
              /\ booking_history s1 = booking_history s
              /\ has_booking bid (bookings s1) = true
              /\ value o = Ok tt
              /\ commits o
                 = [s1; logged bid AModified (Some (SnapRow old))
                               (Some (SnapRow (spread old us))) p s1]
              /\ final o = logged bid AModified (Some (SnapRow old))
                                  (Some (SnapRow (spread old us))) p s1)
        \/ (exists st old s1,
              List.find (fun r => id r =? bid) (bookings s) = Some old
              /\ run_update st us bid s = Ok (tt, s1)
              /\ booking_history s1 = booking_history s
              /\ assigns_id us = true
              /\ has_booking bid (bookings s1) = false
              /\ value o = Throw foreign_key_failed
              /\ commits o = [s1]
              /\ final o = s1))
  /\ (forall bid us p e,
        assigns_id us = false ->
        value (updateBooking bid us p s) = Throw e ->
        final (updateBooking bid us p s) = s
        /\ commits (updateBooking bid us p s) = [])
  /\ (forall bid p,
        let o := cancelBooking bid p s in
        (exists e, value o = Throw e /\ final o = s /\ commits o = [])
        \/ (exists st old s1 s2 s3,
              List.find (fun r => id r =? bid) (bookings s) = Some old
              /\ run_update st [SetStatus Cancelled] bid s = Ok (tt, s1)
              /\ booking_history s1 = booking_history s
              /\ s2 = logged bid AModified (Some (SnapRow old))
                             (Some (SnapRow (spread old [SetStatus Cancelled]))) p s1
              /\ s3 = logged bid ACancelled (Some (SnapRow old))
                             (Some (SnapRow (spread old [SetStatus Cancelled]))) p s2
              /\ value o = Ok tt
              /\ commits o = [s1; s2; s3]
              /\ final o = s3)).
Proof.
  assert (Hrun : forall st us bid s1,
             run_update st us bid s = Ok (tt, s1) ->
             booking_history s1 = booking_history s).
  { intros st us bid s1 H.
    apply run_update_inv in H as (assignments & _ & -> & _). reflexivity. }
  assert (Hupd : forall bid us p,
    let o := updateBooking bid us p s in
    (exists e, value o = Throw e /\ final o = s /\ commits o = [])
    \/ (exists st old s1,
          List.find (fun r => id r =? bid) (bookings s) = Some old
          /\ run_update st us bid s = Ok (tt, s1)
          /\ booking_history s1 = booking_history s
          /\ has_booking bid (bookings s1) = true
          /\ value o = Ok tt
          /\ commits o
             = [s1; logged bid AModified (Some (SnapRow old))
                           (Some (SnapRow (spread old us))) p s1]
          /\ final o = logged bid AModified (Some (SnapRow old))
                              (Some (SnapRow (spread old us))) p s1)
    \/ (exists st old s1,
          List.find (fun r => id r =? bid) (bookings s) = Some old
          /\ run_update st us bid s = Ok (tt, s1)
          /\ booking_history s1 = booking_history s
          /\ assigns_id us = true
          /\ has_booking bid (bookings s1) = false
          /\ value o = Throw foreign_key_failed
          /\ commits o = [s1]
          /\ final o = s1)).
  { intros bid us p o. subst o.
    destruct (List.find (fun r => id r =? bid) (bookings s)) as [old|] eqn:Hfind.
    2:{ left. rewrite (updateBooking_missing _ _ _ _ Hfind). eauto. }
    destruct us as [|u us].
    { left. rewrite (updateBooking_empty _ _ _ _ Hfind). eauto. }
    rewrite (updateBooking_found _ _ _ _ _ _ Hfind).
    destruct (run_update _ _ _ _) as [[[] s1]|e] eqn:Hr.
    - destruct (has_booking bid (bookings s1)) eqn:Hb.
      + right. left.
        exists (Sql.mkUpdateStmt "bookings"
                  (map (fun v => (key_of v, Sql.Param)) (u :: us)
                     ++ [("updatedAt", Sql.CurrentTimestamp)]) "id"), old, s1.
        repeat split; eauto.
      + right. right.
        exists (Sql.mkUpdateStmt "bookings"
                  (map (fun v => (key_of v, Sql.Param)) (u :: us)
                     ++ [("updatedAt", Sql.CurrentTimestamp)]) "id"), old, s1.
        repeat split; eauto.
        destruct (assigns_id (u :: us)) eqn:Ha; [reflexivity|].
        rewrite (run_update_keeps_key _ _ _ _ _ Hr Ha Hfind) in Hb. discriminate.
    - left. eauto. }
  split; [|split; [exact Hupd|split]].
  - intros nb o. subst o.
    destruct (existsb (same_slot (nb_sessionDate nb) (nb_sessionTime nb)) (bookings s))
      eqn:Hslot.
    + left. rewrite (createBooking_taken _ _ Hslot). auto.
    + right. destruct (createBooking_free nb s Hslot) as (rowid & s1 & Hins & ->).
      exists rowid, s1. repeat split; try assumption.
      unfold insert_booking in Hins. rewrite Hslot in Hins. now injection Hins as <- <-.
  - intros bid us p e Ha Hv.
    destruct (Hupd bid us p) as [(e' & _ & Hf & Hcm)|[Hok|Hfk]].
    + split; assumption.
    + destruct Hok as (_ & _ & _ & _ & _ & _ & _ & Hv' & _). congruence.
    + destruct Hfk as (_ & _ & _ & _ & _ & _ & Ha' & _). congruence.
  - intros bid p o. subst o.
    destruct (List.find (fun r => id r =? bid) (bookings s)) as [old|] eqn:Hfind.
    2:{ left. rewrite (cancelBooking_missing _ _ _ Hfind). eauto. }
    unfold cancelBooking.
    erewrite bind_ok by (unfold getBookingById, query; rewrite Hfind; reflexivity).
    cbv beta iota.
    destruct (Hupd bid [SetStatus Cancelled] p) as [(e & Hv & Hf & Hcm)|[Hok|Hfk]].
    + left. exists e.
      rewrite (bind_throw _ _ s s e []); [auto|].
      destruct (updateBooking bid [SetStatus Cancelled] p s) as [v f c].
      cbn in Hv, Hf, Hcm. now subst.
    + destruct Hok as (st & old' & s1 & Hfind' & Hr & Hh & Hb & Hv & Hcm & Hf).
      rewrite Hfind in Hfind'. injection Hfind' as <-.
      right.
      erewrite bind_ok.
      2:{ destruct (updateBooking bid [SetStatus Cancelled] p s) as [v f c].
          cbn in Hv, Hf, Hcm. subst. reflexivity. }
      rewrite logBookingHistory_logged by (unfold logged; cbn [bookings]; exact Hb).
      cbn [value final commits app].
      eexists st, old, s1, _, _. repeat split; eauto.
    + destruct Hfk as (_ & _ & _ & _ & _ & _ & Ha & _). discriminate.
Qed.

(** C1, as the specification states it, fails, in two ways.  After the
    INSERT of [createBooking] and before its history INSERT the store is
    durable with the booking row in it and no history row for it.  And
    [updateBooking] that moves the id of a booking no history row refers to
    commits the changed row and then throws on the history INSERT: the
    change stays, and no history row is ever written for it. *)
Lemma booking_committed_without_history :
  (exists s1,
      In s1 (commits (createBooking booking_1 empty_store))
      /\ bookings s1 <> bookings empty_store
      /\ booking_history s1 = booking_history empty_store)
  /\ value (updateBooking 1 [SetId 5] "4711" unlogged_store) = Throw foreign_key_failed
  /\ commits (updateBooking 1 [SetId 5] "4711" unlogged_store)
     = [final (updateBooking 1 [SetId 5] "4711" unlogged_store)]
  /\ map id (bookings (final (updateBooking 1 [SetId 5] "4711" unlogged_store))) = [5]
  /\ map id (bookings unlogged_store) = [1]
  /\ booking_history (final (updateBooking 1 [SetId 5] "4711" unlogged_store)) = [].
Proof.
  split.
  - eexists. split; [left; reflexivity|]. split; [discriminate | reflexivity].
  - vm_compute. repeat split; reflexivity.
Qed.

Lemma filter_none_of_existsb {A} (p q : A -> bool) (l : list A) :
  existsb p l = false -> List.filter (fun x => p x && q x) l = [].
Proof.
  induction l as [|x l IH]; [reflexivity|].
  cbn. intros H. apply orb_false_iff in H as [-> H]. cbn. auto.
Qed.

Lemma same_slot_refl (r : Booking) :
  same_slot (sessionDate r) (sessionTime r) r = true.
Proof. unfold same_slot. now rewrite !String.eqb_refl. Qed.

(** C2, as the code has it.  [unique_session] spans every row of
    [bookings], whatever its status, and every repository operation keeps
    it (and the primary key) true.  A cancelled booking stays in the table
    with its date and time, so it keeps holding its slot: once
    [cancelBooking] has succeeded, [createBooking] for that slot throws the
    slot-already-taken error and writes nothing. *)
Theorem unique_session_spans_cancelled_rows (s : Store) (Hs : consistent s) :
  (forall nb, consistent (final (createBooking nb s)))
  /\ (forall bid us p, consistent (final (updateBooking bid us p s)))
  /\ (forall bid p, consistent (final (cancelBooking bid p s)))
  /\ (forall bid p old nb,
        List.find (fun r => id r =? bid) (bookings s) = Some old ->
        nb_sessionDate nb = sessionDate old ->
        nb_sessionTime nb = sessionTime old ->
        let s' := final (cancelBooking bid p s) in
        value (cancelBooking bid p s) = Ok tt
        /\ (exists r, In r (bookings s') /\ id r = bid /\ status r = Cancelled
                      /\ slot_of r = slot_of old)
        /\ createBooking nb s' = Outcome (Throw slot_taken) s' []).
Proof.
  split; [|split; [|split]].
  - intros nb. now apply consistent_createBooking.
  - intros bid us p. now apply consistent_updateBooking.
  - intros bid p. now apply consistent_cancelBooking.
  - intros bid p old nb Hfind Hd Ht s'. subst s'.
    rewrite (cancelBooking_found _ _ _ _ Hs Hfind). cbn [value final].
    destruct (find_some_id _ _ _ Hfind) as [Hin Hid].
    set (row := apply_update (SetUpdatedAt (db_clock s))
                  (spread old [SetStatus Cancelled])).
    assert (Hrow : In row (bookings (cancelled_rows bid s))).
    { unfold cancelled_rows. cbn [bookings]. apply in_map_iff.
      exists old. split; [|assumption].
      apply Z.eqb_eq in Hid. now rewrite Hid. }
    split; [reflexivity|]. split.
    + exists row. repeat split; try assumption.
    + apply createBooking_taken. unfold logged. cbn [bookings].
      apply existsb_exists. exists row. split; [assumption|].
      rewrite Hd, Ht. unfold same_slot. cbn. now rewrite !String.eqb_refl.
Qed.

Lemma unique_session_spans_cancelled_rows_witness :
  consistent store_1
  /\ createBooking booking_2 (final (cancelBooking 1 "4711" store_1))
     = Outcome (Throw slot_taken) (final (cancelBooking 1 "4711" store_1)) [].
Proof.
  assert (Hc : consistent store_1) by (split; reflexivity).
  split; [exact Hc|].
  refine (proj2 (proj2 (proj2 (proj2 (proj2
            (unique_session_spans_cancelled_rows store_1 Hc)))
            1 "4711" _ booking_2 _ _ _))); reflexivity.
Defined.

(** C2, as the specification states it, fails: booking 1 holds
    2024-06-10 14:00, it is cancelled successfully, and a new booking for
    that slot is still refused. *)
Lemma cancelled_slot_is_not_freed :
  value (cancelBooking 1 "4711" store_1) = Ok tt
  /\ ~ (exists rowid,
          value (createBooking booking_2 (final (cancelBooking 1 "4711" store_1)))
          = Ok rowid).
Proof.
  split; [reflexivity|]. intros [rowid H]. vm_compute in H. discriminate.
Qed.

(** C3 at [cancelBooking]: one call writes two history rows for the one
    mutation, a 'modified' row through [updateBooking] and then a
    'cancelled' row of its own, both with the same snapshots. *)
Theorem cancelBooking_logs_twice (s : Store) (bid : Z) (p : string) (old : Booking) :
  consistent s ->
  List.find (fun r => id r =? bid) (bookings s) = Some old ->
  exists h1 h2,
    booking_history (final (cancelBooking bid p s))
    = booking_history s ++ [h1; h2]
    /\ h_bookingId h1 = bid /\ h_action h1 = AModified
    /\ h_bookingId h2 = bid /\ h_action h2 = ACancelled
    /\ h_oldValues h1 = h_oldValues h2 /\ h_newValues h1 = h_newValues h2.
Proof.
  intros Hc Hfind. rewrite (cancelBooking_found _ _ _ _ Hc Hfind).
  cbn [final]. unfold logged at 1. cbn [booking_history].
  unfold logged at 1. cbn [booking_history].
  rewrite <- app_assoc. cbn [app].
  eexists _, _. split; [reflexivity|]. repeat split.
Qed.

Lemma cancelBooking_logs_twice_witness :
  exists h1 h2,
    booking_history (final (cancelBooking 1 "4711" store_1))
    = booking_history store_1 ++ [h1; h2]
    /\ h_bookingId h1 = 1 /\ h_action h1 = AModified
    /\ h_bookingId h2 = 1 /\ h_action h2 = ACancelled
    /\ h_oldValues h1 = h_oldValues h2 /\ h_newValues h1 = h_newValues h2.
Proof.
  apply (cancelBooking_logs_twice store_1 1 "4711"
           (mkBooking 1 "4711" (Some "ann") (Some "ann") "2024-06-10" "14:00"
                      (Some "evt1") Active None 1718000000 1718000000)).
  - split; reflexivity.
  - reflexivity.
Defined.

(** C4.  Two [createBooking] calls for one free slot: the first returns
    the new row id, the second throws the slot-already-taken error, which
    no engine error equals, and writes nothing; one active row then holds
    the slot. *)
Theorem second_booking_of_a_slot_is_refused (s : Store) (b1 b2 : NewBooking) :
  slot_free (nb_sessionDate b1) (nb_sessionTime b1) s ->
  nb_sessionDate b2 = nb_sessionDate b1 ->
  nb_sessionTime b2 = nb_sessionTime b1 ->
  nb_status b1 = Active ->
  let o1 := createBooking b1 s in
  let o2 := createBooking b2 (final o1) in
  (exists rowid, value o1 = Ok rowid)
  /\ value o2 = Throw slot_taken
  /\ (forall code, slot_taken <> SqliteError code)
  /\ slot_taken <> JsError "Booking not found"
  /\ final o2 = final o1
  /\ commits o2 = []
  /\ length (active_at (nb_sessionDate b1) (nb_sessionTime b1) (final o2)) = 1%nat.
Proof.
  intros Hfree Hd Ht Hst o1 o2. subst o1 o2.
  destruct (createBooking_free b1 s Hfree) as (rowid & s1 & Hins & ->).
  cbn [value final].
  unfold insert_booking in Hins. unfold slot_free in Hfree. rewrite Hfree in Hins.
  injection Hins as <- <-.
  match goal with
  | |- context [createBooking b2 ?st] =>
      assert (Htaken : createBooking b2 st = Outcome (Throw slot_taken) st [])
  end.
  { apply createBooking_taken. unfold logged. cbn [bookings].
    rewrite existsb_app. cbn [existsb]. rewrite Hd, Ht.
    unfold same_slot at 2. cbn [sessionDate sessionTime].
    rewrite !String.eqb_refl. cbn. apply orb_true_r. }
  rewrite Htaken. cbn [value final commits].
  split; [eauto|]. split; [reflexivity|].
  split; [discriminate|]. split; [discriminate|].
  split; [reflexivity|]. split; [reflexivity|].
  unfold active_at, logged. cbn [bookings].
  rewrite List.filter_app, (filter_none_of_existsb _ _ _ Hfree).
  cbn [app List.filter]. unfold same_slot. cbn [sessionDate sessionTime status].
  rewrite !String.eqb_refl, Hst. reflexivity.
Qed.

Lemma second_booking_of_a_slot_is_refused_witness :
  value (createBooking booking_1 empty_store) = Ok 1
  /\ value (createBooking booking_2 store_1) = Throw slot_taken
  /\ length (active_at "2024-06-10" "14:00"
               (final (createBooking booking_2 store_1))) = 1%nat.
Proof.
  split; [reflexivity|].
  pose proof (second_booking_of_a_slot_is_refused empty_store booking_1 booking_2
                eq_refl eq_refl eq_refl eq_refl) as H.
  cbv zeta in H. destruct H as (_ & H2 & _ & _ & _ & _ & H7).
  split; [exact H2 | exact H7].
Defined.

(** C10.  Whenever [updates] has a key, the text handed to [db.prepare] is
    an UPDATE statement the engine accepts, with as many parameters as
    [run] is given values; with no key the text is rejected,
    [updateBooking] throws, and nothing was written: the booking rows and
    the history are the ones it started from. *)
Theorem updateBooking_needs_a_field :
  (forall u us,
      Sql.well_formed (updateSql (u :: us)) = true
      /\ exists st, Sql.prepare (updateSql (u :: us)) = Ok st
                    /\ Sql.param_count st = S (length (u :: us)))
  /\ Sql.well_formed (updateSql []) = false
  /\ (forall bid p s,
        let o := updateBooking bid [] p s in
        (exists e, value o = Throw e)
        /\ final o = s /\ commits o = []
        /\ (forall old,
              List.find (fun r => id r =? bid) (bookings s) = Some old ->
              value o = Throw (SqliteError "SQLITE_ERROR"))).
Proof.
  split; [|split].
  - intros u us. unfold Sql.well_formed. rewrite prepare_updateSql.
    split; [reflexivity|]. eexists. split; [reflexivity|].
    apply param_count_updateSql.
  - reflexivity.
  - intros bid p s o. subst o.
    destruct (List.find (fun r => id r =? bid) (bookings s)) as [old|] eqn:Hfind.
    + rewrite (updateBooking_empty _ _ _ _ Hfind). cbn.
      repeat split; eauto.
    + rewrite (updateBooking_missing _ _ _ _ Hfind). cbn.
      repeat split; eauto. intros old H. discriminate.
Qed.

Lemma updateBooking_needs_a_field_witness :
  value (updateBooking 1 [] "4711" store_1) = Throw (SqliteError "SQLITE_ERROR")
  /\ final (updateBooking 1 [] "4711" store_1) = store_1.
Proof.
  pose proof (proj2 (proj2 updateBooking_needs_a_field) 1 "4711" store_1) as H.
  cbv zeta in H. destruct H as (_ & Hfinal & _ & Hvalue).
  split; [|exact Hfinal].
  apply (Hvalue (mkBooking 1 "4711" (Some "ann") (Some "ann") "2024-06-10" "14:00"
                           (Some "evt1") Active None 1718000000 1718000000)).
  reflexivity.
Defined.
End RepoClaims.

(** ** The calendar service *)

Section CalendarFacts.
Import Cal.

Variable refreshAccessToken : option Credentials -> result Credentials.
Variable db_storeTokens : Credentials -> result unit.
Variable events_list : Moment -> option Moment -> result (option (list CalendarEvent)).
Variable events_insert : GoogleCalendarEvent -> result string.
Variable events_patch : string -> GoogleCalendarEvent -> result unit.
Variable events_delete : string -> result unit.
Variable now : Moment.
Variable tick : nat -> Moment.

Lemma refreshTokenIfNeeded_ok s c :
  refreshAccessToken (auth s) = Ok c ->
  db_storeTokens c = Ok tt ->
  refreshTokenIfNeeded refreshAccessToken db_storeTokens s
  = Outcome (Ok tt) (refreshed c s) [refreshed c s].
Proof.
  intros H Hst. unfold refreshTokenIfNeeded, try_catch, bind, call, setCredentials,
    storeTokens, stmt.
  cbn [value final commits]. rewrite H. cbn [value final commits].
  rewrite Hst. reflexivity.
Qed.

Lemma refreshTokenIfNeeded_fails s e :
  refreshAccessToken (auth s) = Throw e ->
  refreshTokenIfNeeded refreshAccessToken db_storeTokens s
  = Outcome (Throw auth_failed) (sent RefreshAccessToken s) [].
Proof.
  intros H. unfold refreshTokenIfNeeded, try_catch, bind, call.
  cbn [value final commits]. rewrite H. reflexivity.
Qed.

(** The tokens were exchanged and could not be stored: the same error. *)
Lemma refreshTokenIfNeeded_store_fails s c e :
  refreshAccessToken (auth s) = Ok c ->
  db_storeTokens c = Throw e ->
  refreshTokenIfNeeded refreshAccessToken db_storeTokens s
  = Outcome (Throw auth_failed)
            (mkService (Some c) (auth_tokens s) (requests s ++ [RefreshAccessToken])) [].
Proof.
  intros H Hst. unfold refreshTokenIfNeeded, try_catch, bind, call, setCredentials,
    storeTokens, stmt.
  cbn [value final commits]. rewrite H. cbn [value final commits].
  rewrite Hst. reflexivity.
Qed.

(** The three ways [refreshTokenIfNeeded] can go. *)
Lemma refreshTokenIfNeeded_cases s :
  (exists c, refreshAccessToken (auth s) = Ok c /\ db_storeTokens c = Ok tt
             /\ refreshTokenIfNeeded refreshAccessToken db_storeTokens s
                = Outcome (Ok tt) (refreshed c s) [refreshed c s])
  \/ (value (refreshTokenIfNeeded refreshAccessToken db_storeTokens s) = Throw auth_failed
      /\ requests (final (refreshTokenIfNeeded refreshAccessToken db_storeTokens s))
         = requests s ++ [RefreshAccessToken]
      /\ commits (refreshTokenIfNeeded refreshAccessToken db_storeTokens s) = []).
Proof.
  destruct (refreshAccessToken (auth s)) as [c|e] eqn:H.
  - destruct (db_storeTokens c) as [[]|e] eqn:Hst.
    + left. exists c. auto using refreshTokenIfNeeded_ok.
    + right. rewrite (refreshTokenIfNeeded_store_fails _ _ _ H Hst). auto.
  - right. rewrite (refreshTokenIfNeeded_fails _ _ H). auto.
Qed.

(** The exchange is requested whatever the credential says about its
    expiry. *)
Lemma refreshTokenIfNeeded_requests s :
  requests (final (refreshTokenIfNeeded refreshAccessToken db_storeTokens s))
  = requests s ++ [RefreshAccessToken].
Proof.
  destruct (refreshTokenIfNeeded_cases s) as [(c & _ & _ & ->)|(_ & H & _)];
    [reflexivity | exact H].
Qed.

(** Every calendar operation has the shape
    [try { await this.refreshTokenIfNeeded(); body } catch (e) { throw e }]. *)
Lemma guarded_fails {A} (body : M Service A) s :
  value (refreshTokenIfNeeded refreshAccessToken db_storeTokens s) = Throw auth_failed ->
  value (rethrow (exec refreshTokenIfNeeded refreshAccessToken db_storeTokens; body) s)
  = Throw auth_failed
  /\ final (rethrow (exec refreshTokenIfNeeded refreshAccessToken db_storeTokens; body) s)
     = final (refreshTokenIfNeeded refreshAccessToken db_storeTokens s)
  /\ commits (rethrow (exec refreshTokenIfNeeded refreshAccessToken db_storeTokens; body) s)
     = commits (refreshTokenIfNeeded refreshAccessToken db_storeTokens s).
Proof.
  intros H. unfold rethrow, try_catch, bind. rewrite H. cbn [value final commits].
  rewrite app_nil_r. auto.
Qed.

Lemma guarded_ok {A} (body : M Service A) s c :
  refreshAccessToken (auth s) = Ok c ->
  db_storeTokens c = Ok tt ->
  value (rethrow (exec refreshTokenIfNeeded refreshAccessToken db_storeTokens; body) s)
  = value (body (refreshed c s)).
Proof.
  intros H Hst. unfold rethrow, try_catch, bind, throw.
  rewrite (refreshTokenIfNeeded_ok _ _ H Hst). cbn [value final commits].
  destruct (value (body (refreshed c s))); reflexivity.
Qed.

(** A listing that returned went through a successful exchange. *)
Lemma guarded_returns {A} (body : M Service A) s (a : A) :
  value (rethrow (exec refreshTokenIfNeeded refreshAccessToken db_storeTokens; body) s)
  = Ok a ->
  exists c, refreshAccessToken (auth s) = Ok c /\ db_storeTokens c = Ok tt
            /\ value (body (refreshed c s)) = Ok a.
Proof.
  intros H.
  destruct (refreshTokenIfNeeded_cases s) as [(c & Hr & Hst & _)|(Hv & _ & _)].
  - exists c. rewrite (guarded_ok _ _ _ Hr Hst) in H. auto.
  - destruct (guarded_fails body s Hv) as (Hv' & _). congruence.
Qed.

(** The second half of C6 holds: when the exchange fails, each of the
    seven operations throws the authentication error, and the only request
    that went out is the exchange itself. *)
Lemma failed_exchange_is_an_authentication_error s e :
  refreshAccessToken (auth s) = Throw e ->
  (forall duration daysAhead,
      getAvailableDaySlots refreshAccessToken db_storeTokens events_list now tick
                           duration daysAhead s
      = Outcome (Throw auth_failed) (sent RefreshAccessToken s) [])
  /\ (forall date,
      getAvailableTimeSlots refreshAccessToken db_storeTokens events_list now date s
      = Outcome (Throw auth_failed) (sent RefreshAccessToken s) [])
  /\ (forall date,
      getAvailableDurationSlots refreshAccessToken db_storeTokens events_list now date s
      = Outcome (Throw auth_failed) (sent RefreshAccessToken s) [])
  /\ (forall daysAhead,
      getAvailableSlots refreshAccessToken db_storeTokens events_list now tick daysAhead s
      = Outcome (Throw auth_failed) (sent RefreshAccessToken s) [])
  /\ (forall event,
      createEvent refreshAccessToken db_storeTokens events_insert event s
      = Outcome (Throw auth_failed) (sent RefreshAccessToken s) [])
  /\ (forall eventId event,
      updateEvent refreshAccessToken db_storeTokens events_patch eventId event s
      = Outcome (Throw auth_failed) (sent RefreshAccessToken s) [])
  /\ (forall eventId,
      deleteEvent refreshAccessToken db_storeTokens events_delete eventId s
      = Outcome (Throw auth_failed) (sent RefreshAccessToken s) []).
Proof.
  intros H.
  assert (Hg : forall A (body : M Service A),
             rethrow (exec refreshTokenIfNeeded refreshAccessToken db_storeTokens; body) s
             = Outcome (Throw auth_failed) (sent RefreshAccessToken s) []).
  { intros A body. unfold rethrow, try_catch, bind.
    rewrite (refreshTokenIfNeeded_fails _ _ H). reflexivity. }
  repeat split; intros; apply Hg.
Qed.

(** *** What the slot listings return *)

Lemma in_hour_slots busySlots date slot :
  In slot (hour_slots now busySlots date) ->
  exists hour,
    In hour workingHours
    /\ slot = mkTimeSlot (m_day date) (hour, 0)
                         (negb (bool_decide ((m_day date, (hour, 0)) ∈ busySlots)))
    /\ isBefore (set_minute 0 (set_hour hour date)) now = false.
Proof.
  unfold hour_slots. intros H. apply in_flat_map in H as (hour & Hin & H).
  exists hour. split; [assumption|].
  destruct (isBefore _ now) eqn:Hb; [destruct H|].
  destruct H as [<-|[]]. split; reflexivity.
Qed.

Lemma getAvailableSlots_returns daysAhead s slots :
  value (getAvailableSlots refreshAccessToken db_storeTokens events_list now tick daysAhead s) = Ok slots ->
  exists items,
    slots
    = List.filter ts_available
        (flat_map
           (fun day =>
              let currentDate := add_days (Z.of_nat day) (tick day) in
              if isBefore_day currentDate now || (weekday currentDate =? 0) then []
              else hour_slots now (busy_set format_key items) currentDate)
           (seq 0 daysAhead)).
Proof.
  unfold getAvailableSlots. intros H.
  apply guarded_returns in H as (c & _ & _ & H).
  unfold bind, call, ret in H. cbn [value final commits] in H.
  destruct (events_list now _) as [items|e]; [|discriminate].
  cbn [value] in H. injection H as <-. now exists items.
Qed.

(** What does hold of every slot [getAvailableSlots] returns: its hour is
    one of the template's, on the minute; its date is one of the
    [daysAhead] dates of the window and not a Sunday; the calendar has no
    event starting at it; and the moment built for it, which carries the
    seconds of the clock, is not before [now]. *)
Lemma getAvailableSlots_sound daysAhead s slots slot :
  value (getAvailableSlots refreshAccessToken db_storeTokens events_list now tick daysAhead s) = Ok slots ->
  In slot slots ->
  exists items day hour,
    (day < daysAhead)%nat
    /\ In hour workingHours
    /\ ts_date slot = m_day (tick day) + Z.of_nat day
    /\ ts_time slot = (hour, 0)
    /\ ts_available slot = true
    /\ weekday_of (ts_date slot) <> 0
    /\ ((ts_date slot, ts_time slot) ∉ busy_set format_key items)
    /\ isBefore (set_minute 0 (set_hour hour (add_days (Z.of_nat day) (tick day)))) now
       = false.
Proof.
  intros Hv Hin. apply getAvailableSlots_returns in Hv as [items ->].
  apply List.filter_In in Hin as [Hin Hav].
  apply in_flat_map in Hin as (day & Hday & Hin).
  apply in_seq in Hday. cbv zeta in Hin.
  destruct (isBefore_day _ now || _) eqn:Hskip; [destruct Hin|].
  apply orb_false_iff in Hskip as [_ Hsun].
  apply in_hour_slots in Hin as (hour & Hh & -> & Hb).
  exists items, day, hour. cbn [ts_date ts_time ts_available] in *.
  repeat split; try assumption; try lia.
  - unfold weekday in Hsun. cbn [add_days m_day] in Hsun. now apply Z.eqb_neq in Hsun.
  - apply negb_true_iff, bool_decide_eq_false in Hav. exact Hav.
Qed.

Lemma future_slot_not_before date hour :
  time_in_range now -> m_day now < date -> 0 <= hour ->
  isBefore (set_minute 0 (set_hour hour (moment_of_date date))) now = false.
Proof.
  intros (Hh & Hm & Hs & Hms) Hday Hhour. unfold isBefore, valueOf.
  cbn [set_minute set_hour moment_of_date m_day m_hour m_minute m_second m_ms].
  apply Z.ltb_ge. lia.
Qed.

Lemma hour_slots_future (busySlots : gset SlotKey) (date : Date) (hours : list Z) :
  time_in_range now -> m_day now < date -> Forall (fun hour => 0 <= hour) hours ->
  List.filter ts_available
    (flat_map
       (fun hour =>
          let slotTime := set_minute 0 (set_hour hour (moment_of_date date)) in
          if isBefore slotTime now then []
          else [mkTimeSlot (format_date slotTime) (format_time slotTime)
                           (negb (bool_decide (format_key slotTime ∈ busySlots)))])
       hours)
  = map (fun hour => mkTimeSlot date (hour, 0) true)
        (List.filter (fun hour => negb (bool_decide ((date, (hour, 0)) ∈ busySlots)))
                     hours).
Proof.
  intros Hnow Hday Hall. cbv zeta.
  induction Hall as [|hour hours Hhour _ IH]; [reflexivity|].
  cbn [flat_map]. rewrite (future_slot_not_before _ _ Hnow Hday Hhour).
  cbn [app].
  set (b := negb (bool_decide ((date, (hour, 0)) ∈ busySlots))).
  match goal with
  | |- List.filter _ (_ :: ?rest) = map ?G (List.filter ?Q (_ :: _)) =>
      change ((if b then mkTimeSlot date (hour, 0) b :: List.filter ts_available rest
               else List.filter ts_available rest)
              = map G (if b then hour :: List.filter Q hours else List.filter Q hours))
  end.
  rewrite IH. destruct b; reflexivity.
Qed.

Lemma getAvailableTimeSlots_future date s c items :
  refreshAccessToken (auth s) = Ok c ->
  db_storeTokens c = Ok tt ->
  events_list (moment_of_date date) None = Ok items ->
  time_in_range now -> m_day now < date ->
  value (getAvailableTimeSlots refreshAccessToken db_storeTokens events_list now date s)
  = Ok (map (fun hour => mkTimeSlot date (hour, 0) true)
          (List.filter
             (fun hour => negb (bool_decide ((date, (hour, 0)) ∈ busy_set format_key items)))
             workingHours)).
Proof.
  intros Hr Hst He Hnow Hday. unfold getAvailableTimeSlots.
  rewrite (guarded_ok _ _ _ Hr Hst). unfold bind, call, ret.
  cbn [value final commits]. rewrite He. cbn [value]. f_equal.
  apply hour_slots_future; try assumption.
  unfold workingHours. repeat constructor; lia.
Qed.

Lemma getAvailableDaySlots_returns duration daysAhead s slots :
  value (getAvailableDaySlots refreshAccessToken db_storeTokens events_list now tick duration daysAhead s)
  = Ok slots ->
  exists items,
    events_list now (Some (add_days (Z.of_nat daysAhead) now)) = Ok items
    /\ slots
       = List.filter ds_available
           (map (fun day =>
                   let currentDate := format_date (add_days (Z.of_nat day) (tick day)) in
                   mkDayTimeSlot duration currentDate
                     (negb (bool_decide (currentDate ∈ busy_set format_date items))))
                (seq 0 daysAhead)).
Proof.
  unfold getAvailableDaySlots. intros H.
  apply guarded_returns in H as (c & _ & _ & H).
  unfold bind, call, ret in H. cbn [value final commits] in H.
  destruct (events_list now _) as [items|e]; [|discriminate].
  cbn [value] in H. injection H as <-. now exists items.
Qed.

(** C7.  In the day loop of [getAvailableSlots] a Sunday contributes no
    slot, whatever the clock, the calendar and the window are.  The
    single-day listing has no such test: for any later date, a Sunday
    included, it returns every template hour at which no event starts. *)
Theorem sundays_are_skipped_only_in_the_day_loop :
  (forall daysAhead s slots slot,
      value (getAvailableSlots refreshAccessToken db_storeTokens events_list now tick daysAhead s)
      = Ok slots ->
      In slot slots -> weekday_of (ts_date slot) <> 0)
  /\ (forall date s c items,
        refreshAccessToken (auth s) = Ok c ->
        db_storeTokens c = Ok tt ->
        events_list (moment_of_date date) None = Ok items ->
        time_in_range now -> m_day now < date ->
        value (getAvailableTimeSlots refreshAccessToken db_storeTokens events_list now date s)
        = Ok (map (fun hour => mkTimeSlot date (hour, 0) true)
                (List.filter
                   (fun hour => negb (bool_decide
                                        ((date, (hour, 0)) ∈ busy_set format_key items)))
                   workingHours))).
Proof.
  split.
  - intros daysAhead s slots slot Hv Hin.
    destruct (getAvailableSlots_sound _ _ _ _ Hv Hin)
      as (items & day & hour & _ & _ & _ & _ & _ & Hsun & _).
    exact Hsun.
  - intros date s c items. apply getAvailableTimeSlots_future.
Qed.

(** C6 at an unexpired credential: [refreshTokenIfNeeded] never reads
    [expiry_date].  It sends the exchange request for the credential it
    holds all the same, and when the endpoint answers it replaces the
    credential, in the client and in [auth_tokens]. *)
Theorem unexpired_credential_is_exchanged (s : Service) (c : Credentials) (t : Z) :
  auth s = Some c ->
  expired t c = false ->
  requests (final (refreshTokenIfNeeded refreshAccessToken db_storeTokens s))
  = requests s ++ [RefreshAccessToken]
  /\ (forall c', refreshAccessToken (Some c) = Ok c' ->
                 db_storeTokens c' = Ok tt ->
                 refreshTokenIfNeeded refreshAccessToken db_storeTokens s
                 = Outcome (Ok tt) (refreshed c' s) [refreshed c' s]).
Proof.
  intros Hauth _. split.
  - apply refreshTokenIfNeeded_requests.
  - intros c' Hr Hst. apply refreshTokenIfNeeded_ok; [|assumption].
    now rewrite Hauth.
Qed.

Lemma elem_of_busy_dates items (d : Date) :
  d ∈ busy_set format_date items
  <-> exists event, In event (default [] items) /\ m_day (start_dateTime event) = d.
Proof.
  unfold busy_set. rewrite elem_of_list_to_set, list_elem_of_In, in_map_iff.
  split; intros (event & H1 & H2); exists event; auto.
Qed.


(** C9.  [getAvailableDaySlots] keys its busy set by date alone: a date
    of the window is listed exactly when no event of the response starts
    on it, at whatever hour. *)
Theorem busy_hour_hides_the_whole_day duration daysAhead s slots :
  value (getAvailableDaySlots refreshAccessToken db_storeTokens events_list now tick duration daysAhead s)
  = Ok slots ->
  exists items,
    events_list now (Some (add_days (Z.of_nat daysAhead) now)) = Ok items
    /\ forall d : Date,
        In d (map ds_date slots)
        <-> (exists day, (day < daysAhead)%nat /\ d = m_day (tick day) + Z.of_nat day)
            /\ (forall event, In event (default [] items) ->
                              m_day (start_dateTime event) <> d).
Proof.
  intros Hv. apply getAvailableDaySlots_returns in Hv as (items & He & ->).
  exists items. split; [assumption|]. intros d. cbv zeta.
  rewrite in_map_iff. split.
  - intros (slot & <- & Hin). apply List.filter_In in Hin as [Hin Hav].
    apply in_map_iff in Hin as (day & <- & Hday). apply in_seq in Hday.
    cbn [ds_date ds_available] in *. split.
    + exists day. split; [lia | reflexivity].
    + intros event Hev Heq. apply negb_true_iff, bool_decide_eq_false in Hav.
      apply Hav, elem_of_busy_dates. eauto.
  - intros [(day & Hday & ->) Hfree].
    exists (mkDayTimeSlot duration (m_day (tick day) + Z.of_nat day) true).
    split; [reflexivity|]. apply List.filter_In. split; [|reflexivity].
    apply in_map_iff. exists day. split.
    + cbn [format_date add_days m_day]. f_equal.
      apply negb_true_iff, bool_decide_eq_false. intros Hin.
      apply elem_of_busy_dates in Hin as (event & Hev & Heq).
      exact (Hfree event Hev Heq).
    + apply in_seq. lia.
Qed.


(** *** Further properties of the listings and of the event operations *)

Lemma getAvailableTimeSlots_returns date s slots :
  value (getAvailableTimeSlots refreshAccessToken db_storeTokens events_list now date s)
  = Ok slots ->
  exists items,
    events_list (moment_of_date date) None = Ok items
    /\ slots = List.filter ts_available
                 (hour_slots now (busy_set format_key items) (moment_of_date date)).
Proof.
  unfold getAvailableTimeSlots. intros H.
  apply guarded_returns in H as (c & _ & _ & H).
  unfold bind, call, ret in H. cbn [value final commits] in H.
  destruct (events_list (moment_of_date date) None) as [items|e]; [|discriminate].
  cbn [value] in H. injection H as <-. now exists items.
Qed.

Lemma in_available_hour_slots (busySlots : gset SlotKey) (date : Date) (slot : TimeSlot) :
  In slot (List.filter ts_available (hour_slots now busySlots (moment_of_date date)))
  <-> exists hour,
        In hour workingHours
        /\ slot = mkTimeSlot date (hour, 0) true
        /\ valueOf now <= slot_instant slot
        /\ (date, (hour, 0)) ∉ busySlots.
Proof.
  rewrite List.filter_In. split.
  - intros [Hin Hav]. apply in_hour_slots in Hin as (hour & Hh & -> & Hb).
    cbn [ts_available moment_of_date m_day] in *.
    apply negb_true_iff in Hav. exists hour. rewrite Hav. cbn [negb].
    split; [assumption|]. split; [reflexivity|]. split.
    + apply Z.ltb_ge in Hb. exact Hb.
    + now apply bool_decide_eq_false in Hav.
  - intros (hour & Hh & -> & Hnow & Hfree). split; [|reflexivity].
    unfold hour_slots. apply in_flat_map. exists hour. split; [assumption|].
    cbv zeta.
    assert (Hb : isBefore (set_minute 0 (set_hour hour (moment_of_date date))) now = false)
      by (apply Z.ltb_ge; exact Hnow).
    rewrite Hb. left.
    cbn [format_date format_time format_key set_minute set_hour moment_of_date
         m_day m_hour m_minute].
    f_equal. apply negb_true_iff, bool_decide_eq_false. exact Hfree.
Qed.

(** The two single-day listings return exactly the template hours of the
    day, on the minute, that do not lie before [now] and at which no event
    of the response starts; so they never return a slot that has begun. *)
Theorem single_day_listings_are_exact (date : Date) (s : Service) :
  (forall slots,
      value (getAvailableTimeSlots refreshAccessToken db_storeTokens events_list now date s)
      = Ok slots ->
      exists items,
        events_list (moment_of_date date) None = Ok items
        /\ forall slot,
            In slot slots
            <-> exists hour,
                  In hour workingHours
                  /\ slot = mkTimeSlot date (hour, 0) true
                  /\ valueOf now <= slot_instant slot
                  /\ (date, (hour, 0)) ∉ busy_set format_key items)
  /\ getAvailableDurationSlots refreshAccessToken db_storeTokens events_list now date s
     = getAvailableTimeSlots refreshAccessToken db_storeTokens events_list now date s.
Proof.
  split; [|reflexivity].
  intros slots Hv. apply getAvailableTimeSlots_returns in Hv as (items & He & ->).
  exists items. split; [assumption|]. intros slot. apply in_available_hour_slots.
Qed.

Lemma getAvailableSlots_returns_from daysAhead s slots :
  value (getAvailableSlots refreshAccessToken db_storeTokens events_list now tick daysAhead s)
  = Ok slots ->
  exists items,
    events_list now (Some (add_days (Z.of_nat daysAhead) now)) = Ok items
    /\ slots
       = List.filter ts_available
           (flat_map
              (fun day =>
                 let currentDate := add_days (Z.of_nat day) (tick day) in
                 if isBefore_day currentDate now || (weekday currentDate =? 0) then []
                 else hour_slots now (busy_set format_key items) currentDate)
              (seq 0 daysAhead)).
Proof.
  unfold getAvailableSlots. intros H.
  apply guarded_returns in H as (c & _ & _ & H).
  unfold bind, call, ret in H. cbn [value final commits] in H.
  destruct (events_list now _) as [items|e]; [|discriminate].
  cbn [value] in H. injection H as <-. now exists items.
Qed.

(** [getAvailableSlots], both ways round: a slot is returned exactly when
    it is a template hour, on the minute, of one of the [daysAhead] dates
    counted from the clock, that date is not before today and not a
    Sunday, no event of the response starts at it, and the moment built for
    it, with the seconds of the clock, is not before [now]. *)
Theorem getAvailableSlots_is_exact (daysAhead : nat) (s : Service) (slots : list TimeSlot) :
  value (getAvailableSlots refreshAccessToken db_storeTokens events_list now tick daysAhead s)
  = Ok slots ->
  exists items,
    events_list now (Some (add_days (Z.of_nat daysAhead) now)) = Ok items
    /\ forall slot,
        In slot slots
        <-> exists day hour,
              (day < daysAhead)%nat
              /\ In hour workingHours
              /\ slot = mkTimeSlot (m_day (tick day) + Z.of_nat day) (hour, 0) true
              /\ m_day now <= m_day (tick day) + Z.of_nat day
              /\ weekday_of (m_day (tick day) + Z.of_nat day) <> 0
              /\ ((m_day (tick day) + Z.of_nat day, (hour, 0))
                    ∉ busy_set format_key items)
              /\ valueOf now
                 <= valueOf (mkMoment (m_day (tick day) + Z.of_nat day) hour 0
                                      (m_second (tick day)) (m_ms (tick day))).
Proof.
  intros Hv. apply getAvailableSlots_returns_from in Hv as (items & He & ->).
  exists items. split; [assumption|]. intros slot.
  rewrite List.filter_In, in_flat_map. split.
  - intros [(day & Hday & Hin) Hav]. apply in_seq in Hday. cbv zeta in Hin.
    destruct (isBefore_day _ now || _) eqn:Hskip; [destruct Hin|].
    apply orb_false_iff in Hskip as [Hpast Hsun].
    apply in_hour_slots in Hin as (hour & Hh & -> & Hb).
    cbn [ts_available add_days m_day] in *.
    apply negb_true_iff in Hav. exists day, hour. rewrite Hav. cbn [negb].
    repeat split; try assumption; try lia.
    + unfold isBefore_day in Hpast. cbn [add_days m_day] in Hpast.
      apply Z.ltb_ge in Hpast. exact Hpast.
    + unfold weekday in Hsun. cbn [add_days m_day] in Hsun. now apply Z.eqb_neq in Hsun.
    + now apply bool_decide_eq_false in Hav.
    + apply Z.ltb_ge in Hb. exact Hb.
  - intros (day & hour & Hday & Hh & -> & Hpast & Hsun & Hfree & Hnow).
    split; [|reflexivity]. exists day. split; [apply in_seq; lia|]. cbv zeta.
    assert (H1 : isBefore_day (add_days (Z.of_nat day) (tick day)) now = false).
    { unfold isBefore_day. cbn [add_days m_day]. apply Z.ltb_ge. exact Hpast. }
    assert (H2 : (weekday (add_days (Z.of_nat day) (tick day)) =? 0) = false).
    { unfold weekday. cbn [add_days m_day]. now apply Z.eqb_neq. }
    rewrite H1, H2. cbn [orb].
    unfold hour_slots. apply in_flat_map. exists hour. split; [assumption|]. cbv zeta.
    assert (Hb : isBefore (set_minute 0 (set_hour hour (add_days (Z.of_nat day) (tick day))))
                          now = false) by (apply Z.ltb_ge; exact Hnow).
    rewrite Hb. left.
    cbn [format_date format_time format_key set_minute set_hour add_days
         m_day m_hour m_minute].
    f_equal. apply negb_true_iff, bool_decide_eq_false. exact Hfree.
Qed.

(** How far into the past [getAvailableSlots] can reach: with clock
    readings whose time of day is one, a returned slot began less than a
    minute before [now]. *)
Theorem getAvailableSlots_within_a_minute
    (daysAhead : nat) (s : Service) (slots : list TimeSlot) (slot : TimeSlot) :
  (forall day, time_in_range (tick day)) ->
  value (getAvailableSlots refreshAccessToken db_storeTokens events_list now tick daysAhead s)
  = Ok slots ->
  In slot slots ->
  valueOf now - 60000 < slot_instant slot.
Proof.
  intros Hrange Hv Hin.
  destruct (getAvailableSlots_sound _ _ _ _ Hv Hin)
    as (items & day & hour & _ & _ & Hdate & Htime & _ & _ & _ & Hb).
  destruct (Hrange day) as (_ & _ & Hs & Hms).
  apply Z.ltb_ge in Hb. unfold valueOf in Hb.
  cbn [set_minute set_hour add_days m_day m_hour m_minute m_second m_ms] in Hb.
  unfold slot_instant, valueOf. rewrite Hdate, Htime.
  cbn [fst snd m_day m_hour m_minute m_second m_ms]. unfold valueOf in *. lia.
Qed.

(** Once the exchange and the token store have gone through, an event
    operation answers what the calendar answers, be it the new event's id
    or an error, and that error is the calendar's own; the requests sent are
    the exchange and then the calendar request. *)
Theorem calendar_answer_is_passed_on (s : Service) (c : Credentials) :
  refreshAccessToken (auth s) = Ok c ->
  db_storeTokens c = Ok tt ->
  (forall event,
      createEvent refreshAccessToken db_storeTokens events_insert event s
      = Outcome (events_insert event) (sent (EventsInsert event) (refreshed c s))
                [refreshed c s])
  /\ (forall eventId event,
        updateEvent refreshAccessToken db_storeTokens events_patch eventId event s
        = Outcome (events_patch eventId event)
                  (sent (EventsPatch eventId event) (refreshed c s)) [refreshed c s])
  /\ (forall eventId,
        deleteEvent refreshAccessToken db_storeTokens events_delete eventId s
        = Outcome (events_delete eventId)
                  (sent (EventsDelete eventId) (refreshed c s)) [refreshed c s]).
Proof.
  intros Hr Hst.
  assert (Hg : forall A (r : Request) (answer : result A),
             rethrow (exec refreshTokenIfNeeded refreshAccessToken db_storeTokens;
                      call r answer) s
             = Outcome answer (sent r (refreshed c s)) [refreshed c s]).
  { intros A r answer. unfold rethrow, try_catch, bind, call, throw.
    rewrite (refreshTokenIfNeeded_ok _ _ Hr Hst). cbn [value final commits].
    destruct answer; reflexivity. }
  split; [|split]; intros; apply Hg.
Qed.

(** The tokens were exchanged but could not be stored: every operation
    throws the authentication error without a request to the calendar; the
    client by then holds the new credentials, the table the old ones. *)
Theorem token_store_failure_is_an_authentication_error
    (s : Service) (c : Credentials) (e : Error) :
  refreshAccessToken (auth s) = Ok c ->
  db_storeTokens c = Throw e ->
  let s' := mkService (Some c) (auth_tokens s) (requests s ++ [RefreshAccessToken]) in
  (forall duration daysAhead,
      getAvailableDaySlots refreshAccessToken db_storeTokens events_list now tick
                           duration daysAhead s
      = Outcome (Throw auth_failed) s' [])
  /\ (forall date,
      getAvailableTimeSlots refreshAccessToken db_storeTokens events_list now date s
      = Outcome (Throw auth_failed) s' [])
  /\ (forall daysAhead,
      getAvailableSlots refreshAccessToken db_storeTokens events_list now tick daysAhead s
      = Outcome (Throw auth_failed) s' [])
  /\ (forall event,
      createEvent refreshAccessToken db_storeTokens events_insert event s
      = Outcome (Throw auth_failed) s' [])
  /\ (forall eventId event,
      updateEvent refreshAccessToken db_storeTokens events_patch eventId event s
      = Outcome (Throw auth_failed) s' [])
  /\ (forall eventId,
      deleteEvent refreshAccessToken db_storeTokens events_delete eventId s
      = Outcome (Throw auth_failed) s' []).
Proof.
  intros Hr Hst s'.
  assert (Hg : forall A (body : M Service A),
             rethrow (exec refreshTokenIfNeeded refreshAccessToken db_storeTokens; body) s
             = Outcome (Throw auth_failed) s' []).
  { intros A body. unfold rethrow, try_catch, bind.
    rewrite (refreshTokenIfNeeded_store_fails _ _ _ Hr Hst). reflexivity. }
  repeat split; intros; apply Hg.
Qed.
End CalendarFacts.

Lemma sundays_are_skipped_only_in_the_day_loop_witness :
  Cal.weekday_of (Cal.ymd 2024 6 16) = 0
  /\ value (Cal.getAvailableTimeSlots token_endpoint_up store_ok no_events monday_10_00_30
                                      (Cal.ymd 2024 6 16) authorized)
     = Ok (map (fun hour => Cal.mkTimeSlot (Cal.ymd 2024 6 16) (hour, 0) true)
               Cal.workingHours).
Proof.
  split; [reflexivity|].
  refine (proj2 (sundays_are_skipped_only_in_the_day_loop
                   token_endpoint_up store_ok no_events monday_10_00_30 (fun _ => monday_10_00_30))
                (Cal.ymd 2024 6 16) authorized _ (Some []) eq_refl eq_refl eq_refl _ _).
  - unfold time_in_range. cbn. lia.
  - vm_compute. reflexivity.
Defined.

Lemma unexpired_credential_is_exchanged_witness :
  Cal.expired (Cal.valueOf monday_10_00_30) fresh_credentials = false
  /\ Cal.requests (final (Cal.refreshTokenIfNeeded token_endpoint_up store_ok authorized))
     = [Cal.RefreshAccessToken].
Proof.
  split; [reflexivity|].
  exact (proj1 (unexpired_credential_is_exchanged token_endpoint_up store_ok authorized
                  fresh_credentials (Cal.valueOf monday_10_00_30) eq_refl eq_refl)).
Defined.

Lemma busy_hour_hides_the_whole_day_witness :
  exists items,
    one_event_tuesday_9 monday_10_00_30
      (Some (Cal.add_days 3 monday_10_00_30)) = Ok items
    /\ forall d : Cal.Date,
        In d [Cal.ymd 2024 6 10; Cal.ymd 2024 6 12]
        <-> (exists day, (day < 3)%nat
                         /\ d = Cal.m_day monday_10_00_30_250 + Z.of_nat day)
            /\ (forall event, In event (default [] items) ->
                              Cal.m_day (Cal.start_dateTime event) <> d).
Proof.
  exact (busy_hour_hides_the_whole_day token_endpoint_up store_ok one_event_tuesday_9
           monday_10_00_30 (fun _ => monday_10_00_30_250) "60" 3%nat authorized
           [Cal.mkDayTimeSlot "60" (Cal.ymd 2024 6 10) true;
            Cal.mkDayTimeSlot "60" (Cal.ymd 2024 6 12) true]
           eq_refl).
Defined.

(** C5 at half a minute past ten on a Monday.  The moment built for the
    ten o'clock slot keeps the seconds of the clock, so it is not before
    [now] and the slot is returned, though it began thirty seconds ago.  The
    single-day listing, which builds its moments from midnight, leaves that
    hour out at the same instant. *)
Theorem slot_that_has_begun_is_returned :
  exists slots,
    value (Cal.getAvailableSlots token_endpoint_up store_ok no_events monday_10_00_30
                                 (fun _ => monday_10_00_30_250) 1 authorized)
    = Ok slots
    /\ In (Cal.mkTimeSlot (Cal.ymd 2024 6 10) (10, 0) true) slots
    /\ Cal.slot_instant (Cal.mkTimeSlot (Cal.ymd 2024 6 10) (10, 0) true)
       < Cal.valueOf monday_10_00_30
    /\ exists slots',
        value (Cal.getAvailableTimeSlots token_endpoint_up store_ok no_events monday_10_00_30
                                         (Cal.ymd 2024 6 10) authorized)
        = Ok slots'
        /\ ~ In (Cal.mkTimeSlot (Cal.ymd 2024 6 10) (10, 0) true) slots'.
Proof.
  eexists. split; [vm_compute; reflexivity|].
  split; [left; reflexivity|]. split; [vm_compute; reflexivity|].
  eexists. split; [vm_compute; reflexivity|].
  intros H. repeat (destruct H as [H|H]; [discriminate|]). exact H.
Qed.

(** ** Migrations *)

Section MigrationFacts.
Import Mig.

Variable sha256_hex : list Ddl -> string.

(** *** Names *)

Lemma same_name_refl (a : string) : same_name a a = true.
Proof. unfold same_name. apply String.eqb_refl. Qed.

Lemma same_name_sym (a b : string) : same_name a b = same_name b a.
Proof. unfold same_name. apply String.eqb_sym. Qed.

Lemma same_name_left (a b c : string) :
  same_name a b = true -> same_name a c = same_name b c.
Proof. unfold same_name. intros H. apply String.eqb_eq in H. now rewrite H. Qed.

Lemma same_name_right (a b c : string) :
  same_name a b = true -> same_name c a = same_name c b.
Proof. unfold same_name. intros H. apply String.eqb_eq in H. now rewrite H. Qed.

Lemma existsb_same_name (a b : string) (names : list string) :
  same_name a b = true ->
  existsb (same_name a) names = existsb (same_name b) names.
Proof.
  intros H. induction names as [|x names IH]; [reflexivity|].
  cbn [existsb]. now rewrite IH, (same_name_left _ _ _ H).
Qed.

Lemma has_table_same (a b : string) (db : Db) :
  same_name a b = true -> has_table a db = has_table b db.
Proof.
  intros H. unfold has_table. induction (tables db) as [|x l IH]; [reflexivity|].
  cbn [existsb]. now rewrite IH, (same_name_left _ _ _ H).
Qed.

Lemma has_index_same (a b : string) (db : Db) :
  same_name a b = true -> has_index a db = has_index b db.
Proof.
  intros H. unfold has_index. induction (indexes db) as [|x l IH]; [reflexivity|].
  cbn [existsb]. now rewrite IH, (same_name_left _ _ _ H).
Qed.

Lemma has_column_same (a b c : string) (db : Db) :
  same_name a b = true -> has_column a c db = has_column b c db.
Proof.
  intros H. unfold has_column. induction (tables db) as [|x l IH]; [reflexivity|].
  cbn [existsb]. now rewrite IH, (same_name_left _ _ _ H).
Qed.

Lemma has_column_table (t c : string) (db : Db) :
  has_column t c db = true -> has_table t db = true.
Proof.
  unfold has_column, has_table. intros H. apply existsb_exists in H as (x & Hin & Hx).
  apply andb_true_iff in Hx as [Hx _]. apply existsb_exists. eauto.
Qed.

Lemma filter_all {A} (p : A -> bool) (l : list A) :
  (forall x, In x l -> p x = true) -> List.filter p l = l.
Proof.
  induction l as [|x l IH]; intros Hall; [reflexivity|].
  cbn [List.filter]. rewrite (Hall x (or_introl eq_refl)).
  f_equal. apply IH. intros y Hy. apply Hall. now right.
Qed.

Lemma filter_filter_and {A} (f g : A -> bool) (l : list A) :
  List.filter f (List.filter g l) = List.filter (fun x => g x && f x) l.
Proof.
  induction l as [|x l IH]; [reflexivity|].
  cbn [List.filter]. destruct (g x); cbn [andb List.filter]; [|exact IH].
  destruct (f x); now rewrite IH.
Qed.

Lemma existsb_filter {A} (p q : A -> bool) (l : list A) :
  existsb p (List.filter q l) = existsb (fun x => q x && p x) l.
Proof.
  induction l as [|x l IH]; [reflexivity|].
  cbn [List.filter existsb]. destruct (q x); cbn [existsb andb orb]; now rewrite IH.
Qed.

Lemma forallb_ext_In {A} (p q : A -> bool) (l : list A) :
  (forall x, In x l -> p x = q x) -> forallb p l = forallb q l.
Proof.
  induction l as [|x l IH]; intros H; [reflexivity|].
  cbn [forallb]. rewrite (H x (or_introl eq_refl)), IH; [reflexivity|].
  intros y Hy. apply H. now right.
Qed.

Lemma existsb_ext_In {A} (p q : A -> bool) (l : list A) :
  (forall x, In x l -> p x = q x) -> existsb p l = existsb q l.
Proof.
  induction l as [|x l IH]; intros H; [reflexivity|].
  cbn [existsb]. rewrite (H x (or_introl eq_refl)), IH; [reflexivity|].
  intros y Hy. apply H. now right.
Qed.

Lemma existsb_of_map {A B} (f : A -> B) (p : B -> bool) (l : list A) :
  existsb p (map f l) = existsb (fun x => p (f x)) l.
Proof. induction l as [|x l IH]; [reflexivity|]. cbn. now rewrite IH. Qed.

(** *** The statements *)

Lemma has_table_new (x : string) (t : Table) (db : Db) :
  has_table x (mkDb (tables db ++ [t]) (indexes db) (migrations db))
  = has_table x db || same_name x (t_name t).
Proof. unfold has_table. cbn [tables]. rewrite existsb_app. cbn. now rewrite orb_false_r. Qed.

Lemma has_column_new (x c : string) (t : Table) (db : Db) :
  has_column x c (mkDb (tables db ++ [t]) (indexes db) (migrations db))
  = has_column x c db || (same_name x (t_name t) && existsb (same_name c) (t_columns t)).
Proof. unfold has_column. cbn [tables]. rewrite existsb_app. cbn. now rewrite orb_false_r. Qed.

Lemma has_index_new (x i t : string) (db : Db) :
  has_index x (mkDb (tables db) (indexes db ++ [(i, t)]) (migrations db))
  = has_index x db || same_name x i.
Proof. unfold has_index. cbn [indexes]. rewrite existsb_app. cbn. now rewrite orb_false_r. Qed.

(** The indexes of a script, on a table that is there: each is created
    unless an index of its name exists, and the first the schema does not
    fit fails the script. *)
Lemma exec_indexes (t : string) (idxs : list (string * list string)) (db : Db) :
  has_table t db = true ->
  names_distinct (map fst idxs) = true ->
  exec_script (map (fun ix => CreateIndexIfNotExists (fst ix) t (snd ix)) idxs) db
  = if forallb (fits_index db t) idxs
    then Ok (tt, mkDb (tables db)
                      (indexes db
                       ++ map (fun ix => (fst ix, t))
                              (List.filter (fun ix => negb (has_index (fst ix) db)) idxs))
                      (migrations db))
    else Throw sql_error.
Proof.
  revert db. induction idxs as [|[i cs] idxs IH]; intros db Ht Hd.
  - cbn. rewrite app_nil_r. now destruct db.
  - cbn [map fst names_distinct] in Hd. apply andb_true_iff in Hd as [Hi Hd].
    apply negb_true_iff in Hi.
    cbn [map exec_script exec_ddl fst snd forallb List.filter].
    unfold fits_index at 1. cbn [fst snd]. rewrite Ht. cbn [negb orb].
    destruct (has_table i db) eqn:Hti; [reflexivity|]. cbn [negb andb].
    destruct (has_index i db) eqn:Hii; cbn [orb negb].
    + now apply IH.
    + destruct (forallb (fun c => has_column t c db) cs) eqn:Hcs; cbn [negb];
        [|reflexivity].
      set (db1 := mkDb (tables db) (indexes db ++ [(i, t)]) (migrations db)).
      assert (Hsame : forall ix, In ix idxs ->
                 has_index (fst ix) db1 = has_index (fst ix) db).
      { intros ix Hin. unfold db1. rewrite has_index_new.
        assert (same_name (fst ix) i = false) as ->; [|apply orb_false_r].
        rewrite same_name_sym. destruct (same_name i (fst ix)) eqn:E; [|reflexivity].
        assert (existsb (same_name i) (map fst idxs) = true); [|congruence].
        apply existsb_exists. exists (fst ix). split; [now apply in_map | exact E]. }
      rewrite (IH db1 Ht Hd).
      assert (forallb (fits_index db1 t) idxs = forallb (fits_index db t) idxs) as ->.
      { apply forallb_ext_In. intros ix Hin. unfold fits_index.
        now rewrite (Hsame ix Hin). }
      destruct (forallb (fits_index db t) idxs); [|reflexivity].
      cbn [tables indexes migrations db1]. rewrite <- app_assoc. cbn [app map].
      assert (List.filter (fun ix => negb (has_index (fst ix) db1)) idxs
              = List.filter (fun ix => negb (has_index (fst ix) db)) idxs) as ->.
      { apply List.filter_ext_in. intros ix Hin. now rewrite (Hsame ix Hin). }
      reflexivity.
Qed.

(** *** The scripts of the manager *)

(** Each forward script creates its table and then indexes on that table,
    named apart from it and from each other, on columns the table is
    created with; each reverse script drops the table. *)
Lemma migration_shape (m : Migration) :
  In m getMigrations ->
  up m = CreateTableIfNotExists (table_of m) (columns_of m) (parents_of m)
           :: map (fun ix => CreateIndexIfNotExists (fst ix) (table_of m) (snd ix))
                  (indexes_of m)
  /\ down m = [DropTableIfExists (table_of m)]
  /\ forallb (fun ix => negb (same_name (fst ix) (table_of m))
                        && forallb (fun c => existsb (same_name c) (columns_of m))
                                   (snd ix))
             (indexes_of m) = true
  /\ names_distinct (index_names m) = true.
Proof.
  intros [<-|[<-|[<-|[<-|[]]]]]; repeat split; reflexivity.
Qed.

Lemma getMigrations_apart (m m' : Migration) :
  In m getMigrations -> In m' getMigrations -> version m <> version m' ->
  names_apart m m' = true.
Proof.
  intros [<-|[<-|[<-|[<-|[]]]]] [<-|[<-|[<-|[<-|[]]]]] Hne;
    try reflexivity; exfalso; apply Hne; reflexivity.
Qed.

Lemma index_union (x : string) (idxs : list (string * list string)) (db : Db) :
  has_index x db
  || existsb (fun ix => same_name x (fst ix))
             (List.filter (fun ix => negb (has_index (fst ix) db)) idxs)
  = has_index x db || existsb (fun ix => same_name x (fst ix)) idxs.
Proof.
  induction idxs as [|ix idxs IH]; [reflexivity|].
  cbn [List.filter existsb].
  destruct (has_index (fst ix) db) eqn:Hix; cbn [negb existsb].
  - rewrite IH. destruct (same_name x (fst ix)) eqn:E; [|reflexivity].
    rewrite (has_index_same _ _ _ E), Hix. reflexivity.
  - rewrite !orb_assoc, (orb_comm (has_index x db)), <- !orb_assoc, IH. reflexivity.
Qed.

Lemma has_index_more (x t : string) (idxs : list (string * list string)) (db : Db)
    (ts : list Table) :
  has_index x (mkDb ts
                    (indexes db
                     ++ map (fun ix => (fst ix, t))
                            (List.filter (fun ix => negb (has_index (fst ix) db)) idxs))
                    (migrations db))
  = has_index x db || existsb (same_name x) (map fst idxs).
Proof.
  unfold has_index at 1. cbn [indexes]. rewrite existsb_app.
  fold (has_index x db).
  rewrite !existsb_of_map. cbn [fst]. apply index_union.
Qed.

(** The forward script of a migration runs through exactly when the
    schema fits it; it then leaves the table and the indexes of the
    migration in the schema, everything else as it was, and a table it
    created has no rows. *)
Lemma up_script_run (m : Migration) (db : Db) :
  In m getMigrations ->
  (fits m db = false -> exec_script (up m) db = Throw sql_error)
  /\ (fits m db = true ->
      exists db',
        exec_script (up m) db = Ok (tt, db')
        /\ migrations db' = migrations db
        /\ (forall x, has_table x db' = has_table x db || same_name x (table_of m))
        /\ (forall x, has_index x db'
                      = has_index x db || existsb (same_name x) (index_names m))
        /\ (forall x c, has_column x c db'
                        = has_column x c db
                          || (negb (has_table x db) && same_name x (table_of m)
                              && existsb (same_name c) (columns_of m)))
        /\ exists news, tables db' = tables db ++ news
                        /\ Forall (fun t => t_referenced t = []) news).
Proof.
  intros Hin. destruct (migration_shape m Hin) as (Hup & _ & Hwell & Hdistinct).
  rewrite Hup. unfold fits. set (t := table_of m) in *.
  cbn [exec_script exec_ddl].
  destruct (has_table t db) eqn:Ht; cbn [orb andb].
  - rewrite (exec_indexes t (indexes_of m) db Ht Hdistinct).
    destruct (forallb (fits_index db t) (indexes_of m)); split; try discriminate;
      intros _; [|reflexivity].
    eexists. split; [reflexivity|]. cbn [migrations tables]. split; [reflexivity|].
    split; [|split; [|split]].
    + intros x. unfold has_table at 1. cbn [tables]. fold (has_table x db).
      destruct (same_name x t) eqn:E; [|now rewrite orb_false_r].
      now rewrite (has_table_same _ _ _ E), Ht.
    + intros x. apply has_index_more.
    + intros x c. unfold has_column at 1. cbn [tables]. fold (has_column x c db).
      destruct (same_name x t) eqn:E.
      * rewrite (has_table_same _ _ _ E), Ht. cbn. now rewrite orb_false_r.
      * rewrite andb_false_r. cbn. now rewrite orb_false_r.
    + exists []. split; [now rewrite app_nil_r | constructor].
  - destruct (has_index t db) eqn:Hi; cbn [negb andb].
    { split; [reflexivity | discriminate]. }
    set (db1 := mkDb (tables db ++ [mkTable t (columns_of m) (parents_of m) []])
                     (indexes db) (migrations db)).
    assert (Ht1 : has_table t db1 = true).
    { unfold db1. rewrite has_table_new. cbn [t_name].
      rewrite same_name_refl. apply orb_true_r. }
    rewrite (exec_indexes t (indexes_of m) db1 Ht1 Hdistinct).
    assert (Hfits : forallb (fits_index db1 t) (indexes_of m)
                    = forallb (fits_index db t) (indexes_of m)).
    { apply forallb_ext_In. intros ix Hix.
      rewrite forallb_forall in Hwell. specialize (Hwell ix Hix).
      apply andb_true_iff in Hwell as [Hname Hcols]. apply negb_true_iff in Hname.
      unfold fits_index. rewrite Ht1, Ht. unfold db1 at 1. rewrite has_table_new.
      cbn [t_name]. fold t in Hname. rewrite Hname, orb_false_r.
      cbn [negb]. rewrite !orb_true_r.
      assert (forallb (fun c => has_column t c db1) (snd ix) = true) as ->;
        [|now rewrite orb_true_r].
      apply forallb_forall. intros c Hc. unfold db1. rewrite has_column_new.
      cbn [t_name t_columns]. rewrite same_name_refl.
      rewrite forallb_forall in Hcols. rewrite (Hcols c Hc). apply orb_true_r. }
    rewrite Hfits.
    destruct (forallb (fits_index db t) (indexes_of m)); split; try discriminate;
      intros _; [|reflexivity].
    eexists. split; [reflexivity|]. cbn [migrations tables db1].
    split; [reflexivity|]. split; [|split; [|split]].
    + intros x. unfold has_table at 1. cbn [tables]. rewrite existsb_app.
      cbn. now rewrite orb_false_r.
    + intros x. apply (has_index_more x t (indexes_of m) db1).
    + intros x c. unfold has_column at 1. cbn [tables]. rewrite existsb_app.
      fold (has_column x c db). cbn [existsb t_name t_columns]. rewrite orb_false_r.
      destruct (same_name x t) eqn:E; [|now rewrite andb_false_r].
      rewrite (has_table_same _ _ _ E), Ht. reflexivity.
    + eexists [_]. split; [reflexivity|]. constructor; [reflexivity | constructor].
Qed.

Lemma apart_names (m m' : Migration) (x y : string) :
  names_apart m m' = true ->
  In x (table_of m :: index_names m) ->
  In y (table_of m' :: index_names m') ->
  same_name x y = false /\ same_name y x = false.
Proof.
  unfold names_apart. intros H Hx Hy.
  rewrite forallb_forall in H. specialize (H x Hx).
  rewrite forallb_forall in H. specialize (H y Hy).
  apply negb_true_iff in H. split; [exact H | now rewrite same_name_sym].
Qed.

Lemma apart_existsb (m m' : Migration) (y : string) :
  names_apart m m' = true ->
  In y (table_of m' :: index_names m') ->
  existsb (same_name y) (index_names m) = false.
Proof.
  intros H Hy. destruct (existsb _ _) eqn:E; [|reflexivity].
  apply existsb_exists in E as (x & Hx & Hxy).
  destruct (apart_names m m' x y H (or_intror Hx) Hy) as [_ Hf]. congruence.
Qed.

(** The schema fits a migration after another one was applied exactly when
    it did before. *)
Lemma fits_after (m m' : Migration) (d d' : Db) :
  names_apart m m' = true ->
  (forall x, has_table x d' = has_table x d || same_name x (table_of m)) ->
  (forall x, has_index x d' = has_index x d || existsb (same_name x) (index_names m)) ->
  (forall x c, has_column x c d'
               = has_column x c d
                 || (negb (has_table x d) && same_name x (table_of m)
                     && existsb (same_name c) (columns_of m))) ->
  fits m' d' = fits m' d.
Proof.
  intros Hap Ht Hi Hc.
  assert (Htab : forall y, In y (table_of m' :: index_names m') ->
                           has_table y d' = has_table y d).
  { intros y Hy. rewrite Ht.
    destruct (apart_names m m' (table_of m) y Hap (or_introl eq_refl) Hy) as [_ ->].
    apply orb_false_r. }
  assert (Hidx : forall y, In y (table_of m' :: index_names m') ->
                           has_index y d' = has_index y d).
  { intros y Hy. rewrite Hi, (apart_existsb m m' y Hap Hy). apply orb_false_r. }
  assert (Hcol : forall c, has_column (table_of m') c d' = has_column (table_of m') c d).
  { intros c. rewrite Hc.
    destruct (apart_names m m' (table_of m) (table_of m') Hap (or_introl eq_refl)
                (or_introl eq_refl)) as [_ ->].
    rewrite andb_false_r. apply orb_false_r. }
  unfold fits.
  rewrite (Htab _ (or_introl eq_refl)), (Hidx _ (or_introl eq_refl)). f_equal.
  apply forallb_ext_In. intros ix Hix. unfold fits_index.
  assert (Hy : In (fst ix) (table_of m' :: index_names m')).
  { right. unfold index_names. now apply in_map. }
  rewrite (Htab _ Hy), (Hidx _ Hy), (Htab _ (or_introl eq_refl)).
  do 2 f_equal. apply forallb_ext_In. intros c _. apply Hcol.
Qed.

Lemma version_is_new (v : Z) (rows : list MigrationRow) :
  Forall (fun r => row_version r < v) rows ->
  existsb (fun r => row_version r =? v) rows = false.
Proof.
  induction 1 as [|r rows Hr _ IH]; [reflexivity|].
  cbn. rewrite IH, orb_false_r. apply Z.eqb_neq. lia.
Qed.

(** One migration in its transaction: when the schema fits, the script
    and the row become durable together, in one commit; when it does not,
    the error of the script comes out and nothing has changed. *)
Lemma migration_transaction (m : Migration) (db : Db) :
  In m getMigrations ->
  Forall (fun r => row_version r < version m) (migrations db) ->
  (fits m db = false ->
   try_catch (transaction (apply_migration sha256_hex m)) (fun error => throw error) db
   = Outcome (Throw sql_error) db [])
  /\ (fits m db = true ->
      exists db1,
        try_catch (transaction (apply_migration sha256_hex m)) (fun error => throw error) db
        = Outcome (Ok tt) db1 [db1]
        /\ reached sha256_hex [m] db db1).
Proof.
  intros Hin Hnew. destruct (up_script_run m db Hin) as [Hbad Hgood]. split.
  - intros Hf. specialize (Hbad Hf).
    unfold try_catch, transaction, apply_migration.
    rewrite (bind_throw _ _ _ _ _ _ (stmt_throw _ _ _ Hbad)). reflexivity.
  - intros Hf. destruct (Hgood Hf) as (db' & Hup & Hrows & Ht & Hi & Hc & Hnews).
    set (db1 := mkDb (tables db') (indexes db')
                     (migrations db' ++ [recorded sha256_hex m])).
    assert (Hins : insert_migration (version m) (name m)
                     (calculateMigrationChecksum sha256_hex m) db' = Ok (tt, db1)).
    { unfold insert_migration. rewrite Hrows, (version_is_new _ _ Hnew).
      unfold db1. now rewrite Hrows. }
    exists db1. split.
    + unfold try_catch, transaction, apply_migration.
      rewrite (bind_ok _ _ _ _ _ _ (stmt_ok _ _ _ _ Hup)).
      rewrite (stmt_ok _ _ _ _ Hins). reflexivity.
    + unfold reached. cbn [map existsb]. split; [|split; [|split; [|split]]].
      * unfold db1. cbn [migrations]. now rewrite Hrows.
      * intros x. rewrite orb_false_r. apply Ht.
      * intros x. rewrite orb_false_r. apply Hi.
      * intros x c. rewrite orb_false_r, andb_assoc. apply Hc.
      * exact Hnews.
Qed.

Lemma reached_one (m : Migration) (d d1 : Db) :
  reached sha256_hex [m] d d1 ->
  (forall x, has_table x d1 = has_table x d || same_name x (table_of m))
  /\ (forall x, has_index x d1 = has_index x d || existsb (same_name x) (index_names m))
  /\ (forall x c, has_column x c d1
                  = has_column x c d
                    || (negb (has_table x d) && same_name x (table_of m)
                        && existsb (same_name c) (columns_of m))).
Proof.
  intros (_ & Ht & Hi & Hc & _). cbn [existsb] in *. split; [|split].
  - intros x. rewrite Ht. now rewrite orb_false_r.
  - intros x. rewrite Hi. now rewrite orb_false_r.
  - intros x c. rewrite Hc. now rewrite orb_false_r, andb_assoc.
Qed.

Lemma reached_cons (m : Migration) (ms : list Migration) (d d1 d2 : Db) :
  Forall (fun m' => names_apart m m' = true) ms ->
  reached sha256_hex [m] d d1 -> reached sha256_hex ms d1 d2 ->
  reached sha256_hex (m :: ms) d d2.
Proof.
  intros Hap (Hr1 & Ht1 & Hi1 & Hc1 & news1 & Hn1 & Hu1)
         (Hr2 & Ht2 & Hi2 & Hc2 & news2 & Hn2 & Hu2).
  unfold reached. cbn [map existsb] in *. split; [|split; [|split; [|split]]].
  - rewrite Hr2, Hr1, <- app_assoc. reflexivity.
  - intros x. rewrite Ht2, Ht1, orb_false_r, orb_assoc. reflexivity.
  - intros x. rewrite Hi2, Hi1, orb_false_r, orb_assoc. reflexivity.
  - intros x c. rewrite Hc2, Hc1, orb_false_r, <- orb_assoc. f_equal.
    rewrite andb_orb_distrib_r. f_equal.
    destruct (existsb (fun m0 => same_name x (table_of m0)
                                 && existsb (same_name c) (columns_of m0)) ms) eqn:E;
      [|now rewrite !andb_false_r].
    rewrite !andb_true_r. f_equal. rewrite Ht1, orb_false_r.
    apply existsb_exists in E as (m' & Hm' & Hx).
    apply andb_true_iff in Hx as [Hx _].
    rewrite List.Forall_forall in Hap.
    destruct (apart_names m m' (table_of m) (table_of m') (Hap m' Hm')
                (or_introl eq_refl) (or_introl eq_refl)) as [Hf _].
    rewrite (same_name_left _ _ _ Hx), same_name_sym, Hf. apply orb_false_r.
  - exists (news1 ++ news2). split.
    + rewrite Hn2, Hn1, <- app_assoc. reflexivity.
    + apply Forall_app. split; assumption.
Qed.

Lemma In_firstn_keeps {A} (x : A) (n : nat) (l : list A) :
  In x (firstn n l) -> In x l.
Proof.
  revert l. induction n as [|n IH]; intros [|y l] H; try contradiction.
  destruct H as [<-|H]; [now left | right; now apply IH].
Qed.

Lemma Forall_firstn_keeps {A} (P : A -> Prop) (n : nat) (l : list A) :
  Forall P l -> Forall P (firstn n l).
Proof.
  intros H. apply List.Forall_forall. intros x Hx.
  rewrite List.Forall_forall in H. apply H. eapply In_firstn_keeps, Hx.
Qed.

Lemma last_cons_default {A} (x : A) (l : list A) (a b : A) :
  List.last (x :: l) a = List.last (x :: l) b.
Proof.
  revert x. induction l as [|y l IH]; intros x; [reflexivity|].
  change (List.last (y :: l) a = List.last (y :: l) b). apply IH.
Qed.

(** The loop of [runMigrations] over migrations in ascending order: it
    applies those before the first whose script the schema does not fit,
    one commit each, and throws at that one. *)
Lemma for_of_migrations (ms : list Migration) (db : Db) :
  Forall (fun m => In m getMigrations) ms ->
  StronglySorted (fun a b => version a < version b) ms ->
  Forall (fun m => Forall (fun r => row_version r < version m) (migrations db)) ms ->
  let o := for_of ms (fun migration =>
                        try_catch (transaction (apply_migration sha256_hex migration))
                                  (fun error => throw error)) db in
  let done := leading (fun m => fits m db) ms in
  length (commits o) = length done
  /\ final o = List.last (commits o) db
  /\ (done = ms -> value o = Ok tt)
  /\ (done <> ms -> value o = Throw sql_error)
  /\ (forall i d, nth_error (commits o) i = Some d ->
                  reached sha256_hex (firstn (S i) ms) db d).
Proof.
  revert db. induction ms as [|m ms IH]; intros db Hin Hsorted Hnew o done;
    subst o done.
  - cbn. split; [reflexivity|]. split; [reflexivity|]. split; [reflexivity|].
    split; [congruence|]. intros [|i] d H; discriminate.
  - apply Forall_cons_iff in Hin as [Hm Hin].
    apply StronglySorted_inv in Hsorted as [Hsorted Hlt].
    apply Forall_cons_iff in Hnew as [Hnew_m Hnew].
    set (body := fun migration =>
                   try_catch (transaction (apply_migration sha256_hex migration))
                             (fun error => throw error)) in *.
    destruct (migration_transaction m db Hm Hnew_m) as [Hbad Hgood].
    cbn [leading]. destruct (fits m db) eqn:Hf.
    + destruct (Hgood eq_refl) as (db1 & Hstep & Hreach). clear Hbad Hgood.
      assert (Hnew1 : Forall (fun m' => Forall (fun r => row_version r < version m')
                                               (migrations db1)) ms).
      { destruct Hreach as (Hrows & _). rewrite Hrows. cbn [map].
        apply List.Forall_forall. intros m' Hm'. apply Forall_app. split.
        - rewrite List.Forall_forall in Hnew. now apply Hnew.
        - constructor; [|constructor]. cbn [recorded row_version].
          rewrite List.Forall_forall in Hlt. now apply Hlt. }
      assert (Hap : Forall (fun m' => names_apart m m' = true) ms).
      { apply List.Forall_forall. intros m' Hm'.
        apply getMigrations_apart; [assumption| |].
        - rewrite List.Forall_forall in Hin. now apply Hin.
        - rewrite List.Forall_forall in Hlt. specialize (Hlt m' Hm'). lia. }
      assert (Hsame : leading (fun m' => fits m' db1) ms
                      = leading (fun m' => fits m' db) ms).
      { assert (Hext : forall m', In m' ms -> fits m' db1 = fits m' db).
        { intros m' Hm'. destruct (reached_one m db db1 Hreach) as (Ht & Hi & Hc).
          rewrite List.Forall_forall in Hap.
          apply (fits_after m m'); auto. }
        clear -Hext. induction ms as [|m' ms IH]; [reflexivity|].
        cbn [leading]. rewrite (Hext m' (or_introl eq_refl)).
        destruct (fits m' db); [|reflexivity]. f_equal. apply IH.
        intros m'' H. apply Hext. now right. }
      specialize (IH db1 Hin Hsorted Hnew1). cbv zeta in IH.
      rewrite Hsame in IH. destruct IH as (Hl & Hfin & Hok & Hthrow & Hstates).
      assert (Ho : for_of (m :: ms) body db
                   = Outcome (value (for_of ms body db1)) (final (for_of ms body db1))
                             (db1 :: commits (for_of ms body db1))).
      { exact (bind_ok (body m) (fun _ => for_of ms body) db db1 tt [db1] Hstep). }
      rewrite Ho. cbn [value final commits length].
      split; [now rewrite Hl|]. split; [|split; [|split]].
      * rewrite Hfin. destruct (commits (for_of ms body db1)) as [|d l]; [reflexivity|].
        change (List.last (d :: l) db1 = List.last (d :: l) db).
        apply last_cons_default.
      * intros Heq. apply Hok. congruence.
      * intros Hne. apply Hthrow. congruence.
      * intros [|i] d Hd.
        -- cbn in Hd. injection Hd as <-. exact Hreach.
        -- cbn [nth_error] in Hd. change (firstn (S (S i)) (m :: ms))
             with (m :: firstn (S i) ms).
           eapply reached_cons; [|exact Hreach | now apply Hstates].
           eapply Forall_firstn_keeps, Hap.
    + assert (Ho : for_of (m :: ms) body db = Outcome (Throw sql_error) db []).
      { exact (bind_throw (body m) (fun _ => for_of ms body) db db sql_error []
                           (Hbad eq_refl)). }
      rewrite Ho. cbn [value final commits length List.last].
      split; [reflexivity|]. split; [reflexivity|]. split; [congruence|].
      split; [reflexivity|]. intros [|i] d H; discriminate.
Qed.
Lemma fold_max_spec (rows : list MigrationRow) (init : Z) :
  let top := fold_left (fun m x => Z.max m (row_version x)) rows init in
  init <= top
  /\ Forall (fun r => row_version r <= top) rows
  /\ (top = init \/ exists r, In r rows /\ row_version r = top).
Proof.
  revert init. induction rows as [|r rows IH]; intros init top; subst top.
  - cbn. repeat split; [lia | constructor | now left].
  - cbn [fold_left]. destruct (IH (Z.max init (row_version r))) as (H1 & H2 & H3).
    split; [lia|]. split.
    + constructor; [lia | assumption].
    + destruct H3 as [H3|(r' & Hin & Hr')].
      * destruct (Z.max_spec init (row_version r)) as [[_ Hm]|[_ Hm]].
        -- right. exists r. split; [now left | congruence].
        -- left. congruence.
      * right. exists r'. split; [now right | assumption].
Qed.

Lemma currentVersion_spec (db : Db) :
  (migrations db = [] -> currentVersion db = 0)
  /\ Forall (fun r => row_version r <= currentVersion db) (migrations db)
  /\ (migrations db <> [] ->
      exists r, In r (migrations db) /\ row_version r = currentVersion db).
Proof.
  unfold currentVersion, max_version.
  destruct (migrations db) as [|r rows] eqn:Hrows.
  - split; [reflexivity|]. split; [constructor | congruence].
  - destruct (fold_max_spec rows (row_version r)) as (H1 & H2 & H3).
    set (top := fold_left _ rows (row_version r)) in *.
    assert (Htop : (if top =? 0 then 0 else top) = top).
    { destruct (top =? 0) eqn:E; [apply Z.eqb_eq in E; congruence | reflexivity]. }
    rewrite Htop. split; [discriminate|]. split.
    + constructor; assumption.
    + intros _. destruct H3 as [H3|(r' & Hin & Hr')].
      * exists r. split; [now left | congruence].
      * exists r'. split; [now right | assumption].
Qed.

Lemma StronglySorted_filter_keeps {A} (R : A -> A -> Prop) (p : A -> bool) (l : list A) :
  StronglySorted R l -> StronglySorted R (List.filter p l).
Proof.
  induction 1 as [|x l Hs IH Hx]; [constructor|].
  cbn. destruct (p x); [|assumption].
  constructor; [assumption|].
  apply List.Forall_forall. intros y Hy. apply List.filter_In in Hy as [Hy _].
  rewrite List.Forall_forall in Hx. now apply Hx.
Qed.

Lemma getMigrations_ascending :
  StronglySorted (fun a b => version a < version b) getMigrations.
Proof. unfold getMigrations. repeat constructor; cbn; lia. Qed.

Lemma pending_sound (db : Db) :
  Forall (fun m => In m getMigrations) (pending db)
  /\ StronglySorted (fun a b => version a < version b) (pending db)
  /\ Forall (fun m => Forall (fun r => row_version r < version m) (migrations db))
            (pending db).
Proof.
  unfold pending. split; [|split].
  - apply List.Forall_forall. intros m Hm. now apply List.filter_In in Hm as [Hm _].
  - apply StronglySorted_filter_keeps, getMigrations_ascending.
  - apply List.Forall_forall. intros m Hm. apply List.filter_In in Hm as [_ Hgt].
    destruct (currentVersion_spec db) as (_ & Hle & _).
    eapply List.Forall_impl; [|exact Hle]. cbn. intros r Hr. lia.
Qed.

Lemma pending_covered (d : Db) :
  Forall (fun m => version m <= currentVersion d) getMigrations ->
  pending d = [].
Proof.
  unfold pending. generalize getMigrations as ms.
  induction 1 as [|m ms Hm _ IH]; [reflexivity|].
  cbn [List.filter]. destruct (version m >? currentVersion d) eqn:E; [lia | exact IH].
Qed.

Lemma runMigrations_unfold (db : Db) :
  runMigrations sha256_hex db
  = match pending db with
    | [] => Outcome (Ok tt) db []
    | _ :: _ =>
        for_of (pending db)
          (fun migration =>
             try_catch (transaction (apply_migration sha256_hex migration))
                       (fun error => throw error)) db
    end.
Proof.
  unfold runMigrations, bind, query. cbn [value final commits].
  fold (pending db). destruct (pending db) as [|m ms] eqn:Hp.
  - reflexivity.
  - cbn [length Nat.eqb app].
    destruct (for_of _ _ db) as [v f c]. cbn. destruct v; reflexivity.
Qed.

Lemma reached_nil (d : Db) : reached sha256_hex [] d d.
Proof.
  unfold reached. cbn [map existsb]. split; [now rewrite app_nil_r|].
  split; [intros x; now rewrite orb_false_r|].
  split; [intros x; now rewrite orb_false_r|].
  split; [intros x c; now rewrite andb_false_r, orb_false_r|].
  exists []. split; [now rewrite app_nil_r | constructor].
Qed.

Lemma firstn_leading {A} (p : A -> bool) (l : list A) :
  firstn (length (leading p l)) l = leading p l.
Proof.
  induction l as [|x l IH]; [reflexivity|].
  cbn [leading]. destruct (p x); [|reflexivity]. cbn [length firstn]. now rewrite IH.
Qed.

Lemma leading_cases {A} (p : A -> bool) (l : list A) :
  leading p l = l \/ leading p l <> l.
Proof.
  induction l as [|x l IH]; [now left|].
  cbn [leading]. destruct (p x); [|right; discriminate].
  destruct IH as [IH|IH]; [left; now rewrite IH | right; congruence].
Qed.

Lemma nth_error_last {A} (l : list A) (d : A) :
  l <> [] -> nth_error l (Nat.pred (length l)) = Some (List.last l d).
Proof.
  induction l as [|x l IH]; [congruence|]. intros _.
  destruct l as [|y l]; [reflexivity|].
  change (nth_error (y :: l) (Nat.pred (length (y :: l))) = Some (List.last (y :: l) d)).
  apply IH. discriminate.
Qed.

(** Where a run of the loop ends: at the store that applying the
    migrations before the first unfitting one makes. *)
Lemma for_of_migrations_end (ms : list Migration) (db : Db) :
  Forall (fun m => In m getMigrations) ms ->
  StronglySorted (fun a b => version a < version b) ms ->
  Forall (fun m => Forall (fun r => row_version r < version m) (migrations db)) ms ->
  reached sha256_hex (leading (fun m => fits m db) ms) db
    (final (for_of ms (fun migration =>
                         try_catch (transaction (apply_migration sha256_hex migration))
                                   (fun error => throw error)) db)).
Proof.
  intros Hin Hsorted Hnew.
  pose proof (for_of_migrations ms db Hin Hsorted Hnew) as Hrun. cbv zeta in Hrun.
  destruct Hrun as (Hl & Hf & _ & _ & Hstates).
  set (o := for_of ms _ db) in *.
  destruct (commits o) as [|d l] eqn:Hc.
  - cbn [length] in Hl. rewrite Hf. cbn [List.last].
    destruct (leading _ ms); [apply reached_nil | discriminate].
  - assert (Hlast : nth_error (d :: l) (Nat.pred (length (d :: l)))
                    = Some (List.last (d :: l) db))
      by (apply nth_error_last; discriminate).
    rewrite <- Hf in Hlast. apply Hstates in Hlast.
    cbn [length Nat.pred] in Hlast. cbn [length] in Hl.
    change (S (length l)) with (length (d :: l)) in Hlast.
    cbn [length] in Hlast. rewrite Hl, firstn_leading in Hlast. exact Hlast.
Qed.

Lemma pending_spec (db : Db) (m : Migration) :
  In m (pending db) <-> In m getMigrations /\ currentVersion db < version m.
Proof.
  unfold pending. rewrite List.filter_In. split; intros [H1 H2]; (split; [assumption|lia]).
Qed.

Lemma runMigrations_loop (db : Db) :
  runMigrations sha256_hex db
  = for_of (pending db)
      (fun migration =>
         try_catch (transaction (apply_migration sha256_hex migration))
                   (fun error => throw error)) db.
Proof. rewrite runMigrations_unfold. destruct (pending db); reflexivity. Qed.

(** A store that a run has brought up to date has no pending migration. *)
Lemma pending_after (db d : Db) :
  migrations d = migrations db ++ map (recorded sha256_hex) (pending db) ->
  pending d = [].
Proof.
  intros Hr. apply pending_covered.
  destruct (currentVersion_spec d) as (_ & Hle1 & _).
  rewrite Hr in Hle1. apply Forall_app in Hle1 as [Hold Hnewrows].
  apply List.Forall_forall. intros m Hm.
  destruct (version m >? currentVersion db) eqn:E.
  - assert (Hp : In m (pending db)) by (apply List.filter_In; auto).
    rewrite List.Forall_forall in Hnewrows.
    apply (Hnewrows (recorded sha256_hex m)). apply in_map_iff. eauto.
  - destruct (currentVersion_spec db) as (Hempty & _ & Hmax).
    destruct (migrations db) as [|r rows] eqn:Hrows.
    + specialize (Hempty eq_refl).
      destruct Hm as [<-|[<-|[<-|[<-|[]]]]]; cbn in E; lia.
    + destruct Hmax as (r' & Hin' & Hr'); [discriminate|].
      rewrite List.Forall_forall in Hold. specialize (Hold r' Hin'). lia.
Qed.

(** What a run does, from any store. *)
Lemma runMigrations_reaches (db : Db) :
  let o := runMigrations sha256_hex db in
  length (commits o) = length (applicable db)
  /\ (forall i d, nth_error (commits o) i = Some d ->
                  reached sha256_hex (firstn (S i) (pending db)) db d)
  /\ final o = List.last (commits o) db
  /\ reached sha256_hex (applicable db) db (final o)
  /\ (applicable db = pending db -> value o = Ok tt)
  /\ (applicable db <> pending db -> value o = Throw sql_error).
Proof.
  intros o. subst o.
  destruct (pending_sound db) as (Hin & Hsorted & Hnew).
  pose proof (for_of_migrations (pending db) db Hin Hsorted Hnew) as Hrun.
  pose proof (for_of_migrations_end (pending db) db Hin Hsorted Hnew) as Hend.
  cbv zeta in Hrun. destruct Hrun as (Hl & Hf & Hok & Hthrow & Hstates).
  fold (applicable db) in Hl, Hok, Hthrow, Hend.
  rewrite <- (runMigrations_loop db) in Hl, Hf, Hok, Hthrow, Hstates, Hend.
  auto 10.
Qed.

Lemma runMigrations_up_to_date (d : Db) :
  pending d = [] -> runMigrations sha256_hex d = Outcome (Ok tt) d [].
Proof. intros Hd. rewrite runMigrations_unfold, Hd. reflexivity. Qed.

(** C8, as the code has it.  The migrations [runMigrations] finds pending
    are the defined ones above the recorded maximum version, in strictly
    ascending order.  It applies them in this order, each in a transaction
    of its own: the run makes one commit per applied migration, and the
    commit of the i-th holds the rows of version, name and checksum of the
    first i pending migrations, appended in order, with the tables,
    columns and indexes of their scripts.  It applies the pending
    migrations before the first one whose script the schema does not fit,
    and no other: when there is none such it returns with each pending
    migration applied once, otherwise it throws the error of that script
    and the store is the last commit.  When the recorded maximum covers
    every defined migration it applies nothing and leaves the store as it
    is, as it does when run again after a run that returned. *)
Theorem runMigrations_applies_pending_once_in_order (db : Db) :
  let o := runMigrations sha256_hex db in
  (forall m, In m (pending db) <-> In m getMigrations /\ currentVersion db < version m)
  /\ StronglySorted (fun a b => version a < version b) (pending db)
  /\ length (commits o) = length (applicable db)
  /\ (forall i d, nth_error (commits o) i = Some d ->
                  reached sha256_hex (firstn (S i) (pending db)) db d)
  /\ final o = List.last (commits o) db
  /\ reached sha256_hex (applicable db) db (final o)
  /\ (applicable db = pending db -> value o = Ok tt)
  /\ (applicable db <> pending db -> value o = Throw sql_error)
  /\ (Forall (fun m => version m <= currentVersion db) getMigrations ->
      o = Outcome (Ok tt) db [])
  /\ (value o = Ok tt -> runMigrations sha256_hex (final o) = Outcome (Ok tt) (final o) []).
Proof.
  intros o. subst o.
  destruct (pending_sound db) as (_ & Hsorted & _).
  pose proof (runMigrations_reaches db) as Hrun. cbv zeta in Hrun.
  destruct Hrun as (Hl & Hstates & Hf & Hend & Hok & Hthrow).
  split; [apply pending_spec|]. split; [exact Hsorted|]. split; [exact Hl|].
  split; [exact Hstates|]. split; [exact Hf|]. split; [exact Hend|].
  split; [exact Hok|]. split; [exact Hthrow|]. split.
  - intros Hall. apply runMigrations_up_to_date, pending_covered, Hall.
  - intros Hv. apply runMigrations_up_to_date.
    assert (Hall : applicable db = pending db).
    { destruct (leading_cases (fun m => fits m db) (pending db)) as [E|E];
        [exact E|]. rewrite (Hthrow E) in Hv. discriminate. }
    rewrite Hall in Hend. destruct Hend as (Hrows & _).
    apply (pending_after db). exact Hrows.
Qed.

End MigrationFacts.

Lemma runMigrations_applies_pending_once_in_order_witness :
  value (Mig.runMigrations toy_digest Mig.fresh_db) = Ok tt
  /\ length (commits (Mig.runMigrations toy_digest Mig.fresh_db)) = 4%nat
  /\ map Mig.row_version (Mig.migrations (final (Mig.runMigrations toy_digest Mig.fresh_db)))
     = [1; 2; 3; 4]
  /\ Mig.has_table "booking_history" (final (Mig.runMigrations toy_digest Mig.fresh_db))
     = true
  /\ Mig.has_column "bookings" "notes" (final (Mig.runMigrations toy_digest Mig.fresh_db))
     = true
  /\ Mig.has_index "idx_bookings_date" (final (Mig.runMigrations toy_digest Mig.fresh_db))
     = true.
Proof.
  pose proof (runMigrations_applies_pending_once_in_order toy_digest Mig.fresh_db) as H.
  cbv zeta in H.
  destruct H as (_ & _ & Hl & _ & _ & (Hrows & Ht & Hi & Hc & _) & Hok & _).
  split; [apply Hok; reflexivity|]. split; [rewrite Hl; reflexivity|].
  split; [rewrite Hrows; reflexivity|]. split; [rewrite Ht; reflexivity|].
  split; [rewrite Hc; reflexivity | rewrite Hi; reflexivity].
Defined.

(** C8, as the specification states it, fails on a schema that a pending
    script does not fit.  In [foreign_store] all four migrations are
    pending; the script of the first finds the table [bookings] there,
    creates none, and throws at its first index, on a column the table
    does not have.  The transaction is rolled back and the error thrown
    on: no pending migration has been applied.  On the schema that the
    earlier [init] left, whose [bookings] has the indexed columns, the same
    run goes through and records all four, and [bookings] stays without
    the column [notes]. *)
Lemma pending_migrations_left_unapplied :
  pending foreign_store = Mig.getMigrations
  /\ Mig.runMigrations toy_digest foreign_store
     = Outcome (Throw Mig.sql_error) foreign_store []
  /\ value (Mig.runMigrations toy_digest legacy_store) = Ok tt
  /\ map Mig.row_version (Mig.migrations (final (Mig.runMigrations toy_digest legacy_store)))
     = [1; 2; 3; 4]
  /\ Mig.has_column "bookings" "notes" (final (Mig.runMigrations toy_digest legacy_store))
     = false.
Proof. vm_compute. repeat split; reflexivity. Qed.
(** * Further properties of the code *)

(** ** The repository: look-ups, cancellation, what is never removed *)

Section RepoExtras.
Import Repo.

Lemma find_snoc {A} (f : A -> bool) (l : list A) (x : A) :
  List.find f (l ++ [x])
  = match List.find f l with
    | Some y => Some y
    | None => if f x then Some x else None
    end.
Proof.
  induction l as [|y l IH]; [reflexivity|].
  cbn. destruct (f y); [reflexivity | exact IH].
Qed.

Lemma find_none_above (rows : list Booking) (bid : Z) :
  max_id rows < bid -> List.find (fun r => id r =? bid) rows = None.
Proof.
  intros Hmax. destruct (List.find _ rows) as [r|] eqn:Hfind; [|reflexivity].
  apply find_some_id in Hfind as [Hin Hid].
  pose proof (max_id_bound rows r Hin). lia.
Qed.

(** What [createBooking] returns is the key of the row it wrote: the id
    is above every id in the table, [getBookingById] finds under it the
    row with the fields that were passed in, except that empty notes are
    stored as NULL, and every other look-up answers as before. *)
Theorem createBooking_then_getBookingById (nb : NewBooking) (s : Store) (rowid : Z) :
  value (createBooking nb s) = Ok rowid ->
  let s' := final (createBooking nb s) in
  (forall r, In r (bookings s) -> id r < rowid)
  /\ (exists row,
        value (getBookingById rowid s') = Ok (Some row)
        /\ id row = rowid
        /\ telegramUserId row = nb_telegramUserId nb
        /\ username row = nb_username nb
        /\ phoneNumber row = nb_phoneNumber nb
        /\ sessionDate row = nb_sessionDate nb
        /\ sessionTime row = nb_sessionTime nb
        /\ googleEventId row = nb_googleEventId nb
        /\ status row = nb_status nb
        /\ (nb_notes nb = Some EmptyString -> notes row = None)
        /\ (nb_notes nb <> Some EmptyString -> notes row = nb_notes nb)
        /\ createdAt row = db_clock s /\ updatedAt row = db_clock s)
  /\ (forall bid, bid <> rowid ->
        value (getBookingById bid s') = value (getBookingById bid s)).
Proof.
  intros Hv s'. subst s'.
  destruct (existsb (same_slot (nb_sessionDate nb) (nb_sessionTime nb)) (bookings s))
    eqn:Hslot.
  { rewrite (createBooking_taken _ _ Hslot) in Hv. discriminate. }
  destruct (createBooking_free nb s Hslot) as (rowid' & s1 & Hins & Hcreate).
  rewrite Hcreate in Hv |- *. cbn [value final] in *. injection Hv as ->.
  unfold insert_booking in Hins. rewrite Hslot in Hins. injection Hins as Hid <-.
  assert (Hmax : max_id (bookings s) < rowid) by lia.
  split; [|split].
  - intros r Hin. pose proof (max_id_bound _ _ Hin). lia.
  - eexists. unfold getBookingById, query, logged. cbn [value bookings].
    rewrite find_snoc, (find_none_above _ _ Hmax). cbn [id].
    rewrite Hid, Z.eqb_refl. cbn [notes].
    repeat split; try reflexivity.
    + intros ->. reflexivity.
    + intros Hn. destruct (nb_notes nb) as [[|c n]|]; [congruence | reflexivity..].
  - intros bid Hne. unfold getBookingById, query, logged. cbn [value bookings].
    rewrite find_snoc. cbn [id]. rewrite Hid.
    destruct (List.find _ (bookings s)); [reflexivity|].
    destruct (rowid =? bid) eqn:E; [apply Z.eqb_eq in E; congruence | reflexivity].
Qed.

Lemma createBooking_then_getBookingById_witness :
  (exists row,
      value (getBookingById 1 store_1) = Ok (Some row)
      /\ sessionDate row = "2024-06-10" /\ sessionTime row = "14:00"
      /\ notes row = None)
  /\ (exists row,
        value (getBookingById 2 (final (createBooking booking_with_empty_notes store_1)))
        = Ok (Some row)
        /\ telegramUserId row = "4713" /\ notes row = None).
Proof.
  split.
  - destruct (createBooking_then_getBookingById booking_1 empty_store 1 eq_refl)
      as (_ & (row & Hrow & _ & _ & _ & _ & Hd & Ht & _ & _ & _ & Hn & _) & _).
    exists row. repeat split; try assumption. apply Hn. discriminate.
  - destruct (createBooking_then_getBookingById booking_with_empty_notes store_1 2 eq_refl)
      as (_ & (row & Hrow & _ & Hu & _ & _ & _ & _ & _ & _ & Hn & _) & _).
    exists row. repeat split; try assumption. apply Hn. reflexivity.
Defined.

(** The outcome of [updateBooking], case by case. *)
Lemma updateBooking_cases (bid : Z) (us : list FieldUpdate) (p : string) (s : Store) :
  (exists e, updateBooking bid us p s = Outcome (Throw e) s [])
  \/ (exists st old s1,
        List.find (fun r => id r =? bid) (bookings s) = Some old
        /\ run_update st us bid s = Ok (tt, s1)
        /\ updateBooking bid us p s
           = Outcome (Ok tt)
               (logged bid AModified (Some (SnapRow old))
                       (Some (SnapRow (spread old us))) p s1)
               [s1; logged bid AModified (Some (SnapRow old))
                           (Some (SnapRow (spread old us))) p s1])
  \/ (exists st s1,
        run_update st us bid s = Ok (tt, s1)
        /\ updateBooking bid us p s = Outcome (Throw foreign_key_failed) s1 [s1]).
Proof.
  destruct (List.find (fun r => id r =? bid) (bookings s)) as [old|] eqn:Hfind.
  2:{ left. rewrite (updateBooking_missing _ _ _ _ Hfind). eauto. }
  destruct us as [|u us].
  { left. rewrite (updateBooking_empty _ _ _ _ Hfind). eauto. }
  rewrite (updateBooking_found _ _ _ _ _ _ Hfind).
  destruct (run_update _ _ _ _) as [[[] s1]|e] eqn:Hr.
  - destruct (has_booking bid (bookings s1)).
    + right. left. eexists _, old, s1. repeat split; eauto.
    + right. right. eexists _, s1. split; eauto.
  - left. eauto.
Qed.

Lemma logBookingHistory_cases bookingId action o n p (s : Store) :
  logBookingHistory bookingId action o n p s
  = Outcome (Ok tt) (logged bookingId action o n p s) [logged bookingId action o n p s]
  \/ logBookingHistory bookingId action o n p s = Outcome (Throw foreign_key_failed) s [].
Proof.
  destruct (has_booking bookingId (bookings s)) eqn:H.
  - left. now apply logBookingHistory_logged.
  - right. now apply logBookingHistory_orphan.
Qed.

Lemma run_update_keeps (st : Sql.UpdateStmt) (us : list FieldUpdate) (bid : Z)
    (s s1 : Store) :
  run_update st us bid s = Ok (tt, s1) ->
  booking_history s1 = booking_history s
  /\ length (bookings s1) = length (bookings s)
  /\ db_clock s1 = db_clock s.
Proof.
  intros H. apply run_update_inv in H as (assignments & _ & -> & _).
  cbn. rewrite length_map. auto.
Qed.

(** Nothing is ever taken away: whatever [createBooking], [updateBooking]
    and [cancelBooking] do, and whether they return or throw, the history
    that was there is still there, as the beginning of the history
    afterwards, and the table has at least the rows it had. *)
Theorem repository_never_removes (s : Store) :
  (forall nb,
      (exists added, booking_history (final (createBooking nb s))
                     = booking_history s ++ added)
      /\ (length (bookings s) <= length (bookings (final (createBooking nb s))))%nat)
  /\ (forall bid us p,
        (exists added, booking_history (final (updateBooking bid us p s))
                       = booking_history s ++ added)
        /\ length (bookings (final (updateBooking bid us p s))) = length (bookings s))
  /\ (forall bid p,
        (exists added, booking_history (final (cancelBooking bid p s))
                       = booking_history s ++ added)
        /\ length (bookings (final (cancelBooking bid p s))) = length (bookings s)).
Proof.
  assert (Hupd : forall bid us p,
             (exists added, booking_history (final (updateBooking bid us p s))
                            = booking_history s ++ added)
             /\ length (bookings (final (updateBooking bid us p s)))
                = length (bookings s)).
  { intros bid us p.
    destruct (updateBooking_cases bid us p s)
      as [(e & ->)|[(st & old & s1 & _ & Hrun & ->)|(st & s1 & Hrun & ->)]];
      cbn [final].
    - split; [exists []; now rewrite app_nil_r | reflexivity].
    - apply run_update_keeps in Hrun as (Hh & Hl & _).
      unfold logged. cbn [booking_history bookings]. rewrite Hh, Hl.
      split; [eauto | reflexivity].
    - apply run_update_keeps in Hrun as (Hh & Hl & _). rewrite Hh, Hl.
      split; [exists []; now rewrite app_nil_r | reflexivity]. }
  split; [|split; [exact Hupd|]].
  - intros nb.
    destruct (existsb (same_slot (nb_sessionDate nb) (nb_sessionTime nb)) (bookings s))
      eqn:Hslot.
    + rewrite (createBooking_taken _ _ Hslot). cbn [final].
      split; [exists []; now rewrite app_nil_r | lia].
    + destruct (createBooking_free nb s Hslot) as (rowid & s1 & Hins & ->).
      unfold insert_booking in Hins. rewrite Hslot in Hins. injection Hins as _ <-.
      cbn [final]. unfold logged. cbn [booking_history bookings].
      split; [eauto|]. rewrite length_app. cbn. lia.
  - intros bid p. unfold cancelBooking, bind, getBookingById, query.
    cbn [value final commits].
    destruct (List.find (fun r => id r =? bid) (bookings s)) as [old|] eqn:Hfind.
    2:{ cbn [final]. split; [exists []; now rewrite app_nil_r | reflexivity]. }
    destruct (Hupd bid [SetStatus Cancelled] p) as [[added Hadded] Hlen].
    destruct (value (updateBooking bid [SetStatus Cancelled] p s)) eqn:Hv.
    + cbn [final].
      destruct (logBookingHistory_cases bid ACancelled (Some (SnapRow old))
                  (Some (SnapRow (spread old [SetStatus Cancelled]))) p
                  (final (updateBooking bid [SetStatus Cancelled] p s))) as [->| ->];
        cbn [final].
      * unfold logged. cbn [booking_history bookings].
        rewrite Hadded, Hlen, <- app_assoc. split; [eauto | reflexivity].
      * split; [eauto | exact Hlen].
    + cbn [final]. split; [eauto | exact Hlen].
Qed.

Lemma find_map_keeps_id (f : Booking -> Booking) (bid : Z) (rows : list Booking) :
  (forall r, id (f r) = id r) ->
  List.find (fun r => id r =? bid) (map f rows)
  = option_map f (List.find (fun r => id r =? bid) rows).
Proof.
  intros Hid. induction rows as [|r rows IH]; [reflexivity|].
  cbn. rewrite Hid. destruct (id r =? bid); [reflexivity | exact IH].
Qed.

Lemma cancelBooking_row_after (s : Store) (bid : Z) (p : string) (old : Booking) :
  consistent s ->
  List.find (fun r => id r =? bid) (bookings s) = Some old ->
  value (cancelBooking bid p s) = Ok tt
  /\ value (getBookingById bid (final (cancelBooking bid p s)))
     = Ok (Some (mkBooking (id old) (telegramUserId old) (username old)
                           (phoneNumber old) (sessionDate old) (sessionTime old)
                           (googleEventId old) Cancelled (notes old)
                           (createdAt old) (db_clock s)))
  /\ (forall r, In r (bookings s) -> id r <> bid ->
                In r (bookings (final (cancelBooking bid p s)))).
Proof.
  intros Hc Hfind. rewrite (cancelBooking_found _ _ _ _ Hc Hfind).
  cbn [value final]. split; [reflexivity|]. split.
  - unfold getBookingById, query, logged, cancelled_rows. cbn [value bookings].
    rewrite find_map_keeps_id, Hfind.
    2:{ intros r. destruct (id r =? bid); reflexivity. }
    cbn [option_map]. apply find_some_id in Hfind as [_ Hid].
    apply Z.eqb_eq in Hid. rewrite Hid. reflexivity.
  - intros r Hin Hne. unfold logged, cancelled_rows. cbn [bookings].
    apply in_map_iff. exists r. split; [|assumption].
    apply Z.eqb_neq in Hne. now rewrite Hne.
Qed.

(** [cancelBooking] looks at the id only.  For an id no row has it throws
    'Booking not found' and writes nothing.  For an id a row has, whatever
    that row's status, it returns; the row is then found with status
    cancelled and the clock's time stamp, its other columns as they were,
    and every other row is in the table as it was. *)
Theorem cancelBooking_marks_the_row (s : Store) (bid : Z) (p : string) :
  consistent s ->
  (List.find (fun r => id r =? bid) (bookings s) = None ->
   cancelBooking bid p s = Outcome (Throw (JsError "Booking not found")) s [])
  /\ (forall old,
        List.find (fun r => id r =? bid) (bookings s) = Some old ->
        value (cancelBooking bid p s) = Ok tt
        /\ value (getBookingById bid (final (cancelBooking bid p s)))
           = Ok (Some (mkBooking (id old) (telegramUserId old) (username old)
                                 (phoneNumber old) (sessionDate old) (sessionTime old)
                                 (googleEventId old) Cancelled (notes old)
                                 (createdAt old) (db_clock s)))
        /\ (forall r, In r (bookings s) -> id r <> bid ->
                      In r (bookings (final (cancelBooking bid p s))))).
Proof.
  intros Hc. split; [apply cancelBooking_missing|].
  intros old Hfind. now apply cancelBooking_row_after.
Qed.

Lemma cancelBooking_marks_the_row_witness :
  value (cancelBooking 1 "4711" store_1) = Ok tt
  /\ cancelBooking 2 "4711" store_1
     = Outcome (Throw (JsError "Booking not found")) store_1 [].
Proof.
  assert (Hc : consistent store_1) by (split; reflexivity).
  destruct (cancelBooking_marks_the_row store_1 1 "4711" Hc) as [_ Hfound].
  destruct (cancelBooking_marks_the_row store_1 2 "4711" Hc) as [Hmissing _].
  split.
  - exact (proj1 (Hfound _ eq_refl)).
  - exact (Hmissing eq_refl).
Defined.

Lemma consistent_at_clock (t : Z) (s : Store) : consistent s -> consistent (at_clock t s).
Proof. intros Hc. exact Hc. Qed.

(** Cancelling a cancelled booking again, at any later reading [t] of the
    clock: the call returns; apart from the time stamp no column of any
    row changes; and two more history rows are written, which makes four
    for the two calls. *)
Theorem cancelBooking_again (s : Store) (bid : Z) (p : string) (old : Booking) (t : Z) :
  consistent s ->
  List.find (fun r => id r =? bid) (bookings s) = Some old ->
  let s1 := at_clock t (final (cancelBooking bid p s)) in
  value (cancelBooking bid p s1) = Ok tt
  /\ map (apply_update (SetUpdatedAt 0)) (bookings (final (cancelBooking bid p s1)))
     = map (apply_update (SetUpdatedAt 0)) (bookings s1)
  /\ length (booking_history (final (cancelBooking bid p s1)))
     = (length (booking_history s) + 4)%nat.
Proof.
  intros Hc Hfind s1.
  assert (Hc1 : consistent s1).
  { apply consistent_at_clock, consistent_cancelBooking, Hc. }
  assert (Hfind1 : exists old1, List.find (fun r => id r =? bid) (bookings s1) = Some old1).
  { subst s1. rewrite (cancelBooking_found _ _ _ _ Hc Hfind). cbn [final].
    unfold at_clock, logged, cancelled_rows. cbn [bookings].
    rewrite find_map_keeps_id, Hfind; [cbn; eauto|].
    intros r. destruct (id r =? bid); reflexivity. }
  destruct Hfind1 as [old1 Hfind1].
  rewrite (cancelBooking_found _ _ _ _ Hc1 Hfind1). cbn [value final].
  split; [reflexivity|]. split.
  - unfold logged, cancelled_rows. cbn [bookings]. rewrite map_map.
    apply map_ext_in. intros r Hin.
    destruct (id r =? bid) eqn:E; [|reflexivity].
    subst s1. rewrite (cancelBooking_found _ _ _ _ Hc Hfind) in Hin.
    cbn [final] in Hin. unfold at_clock, logged, cancelled_rows in Hin.
    cbn [bookings] in Hin. apply in_map_iff in Hin as (r0 & <- & _).
    destruct (id r0 =? bid) eqn:E0; [reflexivity | congruence].
  - unfold logged. cbn [booking_history]. rewrite !length_app. cbn [length].
    subst s1. rewrite (cancelBooking_found _ _ _ _ Hc Hfind). cbn [final].
    unfold at_clock, logged, cancelled_rows. cbn [booking_history].
    rewrite !length_app. cbn [length]. lia.
Qed.

Lemma cancelBooking_again_witness :
  value (cancelBooking 1 "4711"
           (at_clock 1718003600 (final (cancelBooking 1 "4711" store_1)))) = Ok tt
  /\ length (booking_history
               (final (cancelBooking 1 "4711"
                         (at_clock 1718003600 (final (cancelBooking 1 "4711" store_1))))))
     = 5%nat.
Proof.
  assert (Hc : consistent store_1) by (split; reflexivity).
  pose proof (cancelBooking_again store_1 1 "4711" _ 1718003600 Hc eq_refl) as H.
  cbv zeta in H. destruct H as (Hv & _ & Hlen). split; [exact Hv | exact Hlen].
Defined.

Lemma slots_distinct_inj (rows : list Booking) (a b : Booking) :
  slots_distinct rows = true ->
  In a rows -> In b rows ->
  sessionDate a = sessionDate b -> sessionTime a = sessionTime b ->
  a = b.
Proof.
  induction rows as [|r rows IH]; intros Hd Ha Hb Hdate Htime; [destruct Ha|].
  cbn in Hd. apply andb_true_iff in Hd as [Hr Hd].
  apply negb_true_iff in Hr.
  assert (Hno : forall x, In x rows ->
                          sessionDate x = sessionDate r -> sessionTime x = sessionTime r ->
                          False).
  { intros x Hx H1 H2.
    assert (existsb (same_slot (sessionDate r) (sessionTime r)) rows = true).
    { apply existsb_exists. exists x. split; [assumption|].
      unfold same_slot. rewrite H1, H2, !String.eqb_refl. reflexivity. }
    congruence. }
  destruct Ha as [<-|Ha], Hb as [<-|Hb].
  - reflexivity.
  - exfalso. apply (Hno b Hb); congruence.
  - exfalso. apply (Hno a Ha); congruence.
  - now apply IH.
Qed.

Lemma spread_snoc (r : Booking) (us : list FieldUpdate) (u : FieldUpdate) :
  spread r (us ++ [u]) = apply_update u (spread r us).
Proof. unfold spread. now rewrite fold_left_app. Qed.

(** Moving a booking onto a slot another row holds.  [updateBooking] has
    no [catch]: the engine's error for the uniqueness violation comes out
    as it is, not as the slot-already-taken error of [createBooking], and
    neither the row nor the history is written. *)
Theorem updateBooking_onto_a_taken_slot
    (s : Store) (bid : Z) (u : FieldUpdate) (us : list FieldUpdate) (p : string)
    (old other : Booking) :
  consistent s ->
  List.find (fun r => id r =? bid) (bookings s) = Some old ->
  In other (bookings s) -> id other <> bid ->
  (forall r, id (spread r (u :: us)) = id r) ->
  sessionDate (spread old (u :: us)) = sessionDate other ->
  sessionTime (spread old (u :: us)) = sessionTime other ->
  updateBooking bid (u :: us) p s
  = Outcome (Throw (SqliteError "SQLITE_CONSTRAINT_UNIQUE")) s []
  /\ SqliteError "SQLITE_CONSTRAINT_UNIQUE" <> slot_taken.
Proof.
  intros [Hids Hslots] Hfind Hother Hne Hkeep Hdate Htime.
  split; [|discriminate].
  rewrite (updateBooking_found _ _ _ _ _ _ Hfind). unfold run_update.
  cbn [Sql.u_assignments]. rewrite bind_params_updateSql.
  set (f := fun r => if id r =? bid
                     then spread r ((u :: us) ++ [SetUpdatedAt (db_clock s)]) else r).
  assert (Hfid : forall r, id (f r) = id r).
  { intros r. unfold f. destruct (id r =? bid); [|reflexivity].
    rewrite spread_snoc. cbn [apply_update id]. apply Hkeep. }
  rewrite (ids_distinct_map f _ Hfid), Hids. cbn [negb].
  destruct (slots_distinct (map f (bookings s))) eqn:Hd; [|reflexivity].
  exfalso. destruct (find_some_id _ _ _ Hfind) as [Hin Hid].
  assert (Heq : f old = f other).
  { apply (slots_distinct_inj _ _ _ Hd); try (apply in_map; assumption).
    - unfold f. apply Z.eqb_eq in Hid. rewrite Hid.
      apply Z.eqb_neq in Hne. rewrite Hne. rewrite spread_snoc. exact Hdate.
    - unfold f. apply Z.eqb_eq in Hid. rewrite Hid.
      apply Z.eqb_neq in Hne. rewrite Hne. rewrite spread_snoc. exact Htime. }
  apply (f_equal id) in Heq. rewrite !Hfid in Heq. congruence.
Qed.

Lemma updateBooking_onto_a_taken_slot_witness :
  updateBooking 2 [SetSessionTime "14:00"] "4712"
    (final (createBooking
              (mkNewBooking "4712" (Some "bob") None "2024-06-10" "15:00" None Active None)
              store_1))
  = Outcome (Throw (SqliteError "SQLITE_CONSTRAINT_UNIQUE"))
      (final (createBooking
                (mkNewBooking "4712" (Some "bob") None "2024-06-10" "15:00" None Active None)
                store_1)) [].
Proof.
  refine (proj1 (updateBooking_onto_a_taken_slot _ 2 (SetSessionTime "14:00") [] "4712"
             (mkBooking 2 "4712" (Some "bob") None "2024-06-10" "15:00" None Active None
                        1718000000 1718000000)
             (mkBooking 1 "4711" (Some "ann") (Some "ann") "2024-06-10" "14:00"
                        (Some "evt1") Active None 1718000000 1718000000)
             _ _ _ _ _ _ _)).
  - split; reflexivity.
  - reflexivity.
  - left. reflexivity.
  - discriminate.
  - intros r. reflexivity.
  - reflexivity.
  - reflexivity.
Defined.
End RepoExtras.

(** ** The listings of the repository and the scheduler's sweep *)

Section QueryExtras.
Import Repo Queries.

Lemma compare_refl (a : string) : String.compare a a = Eq.
Proof.
  destruct (String.compare a a) eqn:E; [reflexivity| |];
    pose proof (String.compare_antisym a a) as H; rewrite E in H; discriminate.
Qed.

#[local] Instance slot_le_total : Total slot_le.
Proof.
  intros a b. unfold slot_le, slot_leb.
  rewrite (String.compare_antisym (sessionDate b) (sessionDate a)).
  destruct (String.compare (sessionDate a) (sessionDate b)); cbn; auto.
  apply String.leb_total.
Qed.

Lemma in_order_by_slot (rows : list Booking) (r : Booking) :
  In r (order_by_slot rows) <-> In r rows.
Proof.
  unfold order_by_slot. rewrite <- !list_elem_of_In.
  now rewrite (merge_sort_Permutation slot_le rows).
Qed.

(** [getBookingsByUser] reads only: it returns the rows of the table that
    belong to the user and are active, each as often as the table has it,
    in ascending order of date and then time, and leaves the store alone. *)
Theorem getBookingsByUser_lists_the_active_rows (user : string) (s : Store) :
  exists rows,
    getBookingsByUser user s = Outcome (Ok rows) s []
    /\ (forall r, In r rows
                  <-> In r (bookings s) /\ telegramUserId r = user /\ status r = Active)
    /\ Sorted slot_le rows
    /\ rows ≡ₚ List.filter (fun r => String.eqb (telegramUserId r) user
                                      && Status_eqb (status r) Active) (bookings s).
Proof.
  eexists. split; [reflexivity|]. split; [|split].
  - intros r. rewrite in_order_by_slot, List.filter_In, andb_true_iff, String.eqb_eq.
    destruct (status r); cbn; intuition congruence.
  - apply Sorted_merge_sort. apply _.
  - apply merge_sort_Permutation.
Qed.

(** A booking that was just created as active is in its user's list; once
    it is cancelled it is in the list no more, while [getBookingById] still
    finds it. *)
Theorem cancelled_booking_leaves_the_list (nb : NewBooking) (s : Store) (p : string) :
  consistent s ->
  slot_free (nb_sessionDate nb) (nb_sessionTime nb) s ->
  nb_status nb = Active ->
  exists rowid listed after,
    value (createBooking nb s) = Ok rowid
    /\ value (getBookingsByUser (nb_telegramUserId nb) (final (createBooking nb s)))
       = Ok listed
    /\ (exists r, In r listed /\ id r = rowid)
    /\ value (getBookingsByUser (nb_telegramUserId nb)
                (final (cancelBooking rowid p (final (createBooking nb s)))))
       = Ok after
    /\ (forall r, In r after -> id r <> rowid)
    /\ (exists r, value (getBookingById rowid
                           (final (cancelBooking rowid p (final (createBooking nb s)))))
                  = Ok (Some r)
                  /\ status r = Cancelled).
Proof.
  intros Hc Hfree Hactive.
  pose proof (consistent_createBooking nb s Hc) as Hc1.
  destruct (createBooking_free nb s Hfree) as (rowid & s1 & Hins & Hcreate).
  rewrite Hcreate in *. cbn [value final] in *.
  unfold insert_booking in Hins. unfold slot_free in Hfree. rewrite Hfree in Hins.
  injection Hins as Hid Hs1.
  set (s1' := logged rowid ACreated None (Some (SnapInput nb)) (nb_telegramUserId nb) s1)
    in *.
  set (row := mkBooking rowid (nb_telegramUserId nb) (nb_username nb) (nb_phoneNumber nb)
                (nb_sessionDate nb) (nb_sessionTime nb) (nb_googleEventId nb)
                (nb_status nb)
                (match nb_notes nb with Some EmptyString => None | n => n end)
                (db_clock s) (db_clock s)).
  assert (Hrows : bookings s1' = bookings s ++ [row]).
  { subst s1' s1 row. unfold logged. cbn [bookings]. now rewrite Hid. }
  assert (Hfind : List.find (fun r => id r =? rowid) (bookings s1') = Some row).
  { rewrite Hrows, find_snoc, find_none_above by lia.
    subst row. cbn [id]. now rewrite Z.eqb_refl. }
  destruct (cancelBooking_row_after s1' rowid p row Hc1 Hfind) as (Hv & Hget & _).
  exists rowid. eexists _, _. split; [reflexivity|].
  split; [reflexivity|]. split; [|split; [reflexivity|split]].
  - exists row. split; [|reflexivity].
    apply in_order_by_slot, List.filter_In. split.
    + rewrite Hrows. apply in_or_app. right. now left.
    + subst row. cbn [telegramUserId status]. rewrite String.eqb_refl, Hactive.
      reflexivity.
  - intros r Hin Hr. apply in_order_by_slot, List.filter_In in Hin as [Hin Hcond].
    apply andb_true_iff in Hcond as [_ Hst].
    rewrite (cancelBooking_found _ _ _ _ Hc1 Hfind) in Hin. cbn [final] in Hin.
    unfold logged, cancelled_rows in Hin. cbn [bookings] in Hin.
    apply in_map_iff in Hin as (r0 & <- & _).
    destruct (id r0 =? rowid) eqn:E.
    + cbn in Hst. discriminate.
    + apply Z.eqb_neq in E. contradiction.
  - eexists. split; [exact Hget | reflexivity].
Qed.

Lemma cancelled_booking_leaves_the_list_witness :
  exists rowid listed after,
    value (createBooking booking_1 empty_store) = Ok rowid
    /\ value (getBookingsByUser "4711" (final (createBooking booking_1 empty_store)))
       = Ok listed
    /\ (exists r, In r listed /\ id r = rowid)
    /\ value (getBookingsByUser "4711"
                (final (cancelBooking rowid "4711"
                          (final (createBooking booking_1 empty_store)))))
       = Ok after
    /\ (forall r, In r after -> id r <> rowid)
    /\ (exists r, value (getBookingById rowid
                           (final (cancelBooking rowid "4711"
                                     (final (createBooking booking_1 empty_store)))))
                  = Ok (Some r)
                  /\ status r = Cancelled).
Proof.
  apply (cancelled_booking_leaves_the_list booking_1 empty_store "4711").
  - split; reflexivity.
  - reflexivity.
  - reflexivity.
Defined.

Lemma leb_trans (a b c : string) :
  String.leb a b = true -> String.leb b c = true -> String.leb a c = true.
Proof.
  intros H1 H2. apply Is_true_true.
  apply Is_true_true in H1, H2.
  exact (transitivity (R := String.le) H1 H2).
Qed.

(** [getBookingsByDateRange] returns the rows whose date lies between the
    two bounds, ends included and whatever the status, in ascending order;
    with the bounds the wrong way round it returns nothing. *)
Theorem getBookingsByDateRange_is_inclusive (startDate endDate : string) (s : Store) :
  exists rows,
    getBookingsByDateRange startDate endDate s = Outcome (Ok rows) s []
    /\ (forall r, In r rows
                  <-> In r (bookings s)
                      /\ String.leb startDate (sessionDate r) = true
                      /\ String.leb (sessionDate r) endDate = true)
    /\ Sorted slot_le rows
    /\ (String.ltb endDate startDate = true -> rows = []).
Proof.
  eexists. split; [reflexivity|]. split; [|split].
  - intros r. rewrite in_order_by_slot, List.filter_In, andb_true_iff. reflexivity.
  - apply Sorted_merge_sort. apply _.
  - intros Hlt.
    assert (Hnone : List.filter
                      (fun r => String.leb startDate (sessionDate r)
                                && String.leb (sessionDate r) endDate) (bookings s) = []).
    { induction (bookings s) as [|r rows IH]; [reflexivity|].
      cbn [List.filter].
      destruct (String.leb startDate (sessionDate r)) eqn:H1; [|exact IH].
      destruct (String.leb (sessionDate r) endDate) eqn:H2; [|exact IH].
      exfalso. pose proof (leb_trans _ _ _ H1 H2) as H3.
      unfold String.ltb in Hlt. unfold String.leb in H3.
      rewrite String.compare_antisym in H3.
      destruct (String.compare endDate startDate); cbn in *; discriminate. }
    rewrite Hnone. reflexivity.
Qed.

Lemma swept_after (currentDate currentTime : string) (t : Z) (r : Booking) :
  swept currentDate currentTime
    (if swept currentDate currentTime r
     then apply_update (SetUpdatedAt t) (apply_update (SetStatus Completed) r)
     else r) = false.
Proof.
  destruct (swept currentDate currentTime r) eqn:E; [reflexivity | exact E].
Qed.

Lemma no_active_booking_is_past (currentDate currentTime : string) (s : Store) (r : Booking) :
  In r (bookings (final (markPastSessionsCompleted currentDate currentTime s))) ->
  status r = Active ->
  is_past currentDate currentTime r = false.
Proof.
  unfold markPastSessionsCompleted, stmt. cbn [final bookings].
  intros Hin Hst. apply in_map_iff in Hin as (r0 & <- & _).
  pose proof (swept_after currentDate currentTime (db_clock s) r0) as Hs.
  unfold swept in Hs at 1. rewrite Hst in Hs. exact Hs.
Qed.

(** The sweep turns exactly the active bookings that lie before the given
    date and time into completed ones and reports how many.  Afterwards no
    active booking lies before that instant; the rows it does not select
    are as they were; both table constraints still hold; and it writes no
    history row. *)
Theorem markPastSessionsCompleted_completes_the_past
    (currentDate currentTime : string) (s : Store) :
  let o := markPastSessionsCompleted currentDate currentTime s in
  value o = Ok (length (List.filter (swept currentDate currentTime) (bookings s)))
  /\ (forall r, In r (bookings (final o)) -> status r = Active ->
                is_past currentDate currentTime r = false)
  /\ (forall r, In r (bookings s) ->
                if swept currentDate currentTime r
                then In (mkBooking (id r) (telegramUserId r) (username r) (phoneNumber r)
                                   (sessionDate r) (sessionTime r) (googleEventId r)
                                   Completed (notes r) (createdAt r) (db_clock s))
                        (bookings (final o))
                else In r (bookings (final o)))
  /\ length (bookings (final o)) = length (bookings s)
  /\ booking_history (final o) = booking_history s
  /\ (consistent s -> consistent (final o)).
Proof.
  intros o. subst o.
  split; [reflexivity|]. split; [apply no_active_booking_is_past|].
  unfold markPastSessionsCompleted, stmt.
  cbn [value final bookings booking_history].
  split; [|split; [|split]].
  - intros r Hin. destruct (swept currentDate currentTime r) eqn:E.
    + apply in_map_iff. exists r. rewrite E. split; [reflexivity | assumption].
    + apply in_map_iff. exists r. rewrite E. split; [reflexivity | assumption].
  - apply length_map.
  - reflexivity.
  - intros [Hids Hslots]. unfold consistent. cbn [bookings]. split.
    + rewrite ids_distinct_map; [assumption|].
      intros r. destruct (swept _ _ r); reflexivity.
    + rewrite slots_distinct_map; [assumption|].
      intros r. destruct (swept _ _ r); split; reflexivity.
Qed.

Lemma markPastSessionsCompleted_completes_the_past_witness :
  consistent (final (markPastSessionsCompleted "2024-06-11" "10:00" store_1))
  /\ value (markPastSessionsCompleted "2024-06-11" "10:00" store_1) = Ok 1%nat.
Proof.
  pose proof (markPastSessionsCompleted_completes_the_past "2024-06-11" "10:00" store_1)
    as H.
  cbv zeta in H. destruct H as (Hv & _ & _ & _ & _ & Hc).
  split; [apply Hc; split; reflexivity | exact Hv].
Defined.

(** Running the sweep again for the same date and time, at whatever the
    clock then reads, selects no row and leaves the store as it is. *)
Theorem markPastSessionsCompleted_twice
    (currentDate currentTime : string) (t : Z) (s : Store) :
  let s1 := at_clock t (final (markPastSessionsCompleted currentDate currentTime s)) in
  value (markPastSessionsCompleted currentDate currentTime s1) = Ok 0%nat
  /\ final (markPastSessionsCompleted currentDate currentTime s1) = s1.
Proof.
  intros s1. subst s1. unfold markPastSessionsCompleted, stmt, at_clock.
  cbn [value final bookings bookings_seq booking_history history_seq db_clock].
  set (f := fun r => if swept currentDate currentTime r
                     then apply_update (SetUpdatedAt (db_clock s))
                                       (apply_update (SetStatus Completed) r)
                     else r).
  assert (Hnone : forall rows, List.filter (swept currentDate currentTime) (map f rows) = []).
  { induction rows as [|r rows IH]; [reflexivity|].
    cbn [map List.filter]. unfold f at 1. rewrite swept_after. exact IH. }
  assert (Hid : forall rows,
             map (fun r => if swept currentDate currentTime r
                           then apply_update (SetUpdatedAt t)
                                             (apply_update (SetStatus Completed) r)
                           else r) (map f rows) = map f rows).
  { intros rows. rewrite map_map. apply map_ext. intros r.
    unfold f. rewrite swept_after. reflexivity. }
  rewrite Hnone, Hid. split; reflexivity.
Qed.

(** After the sweep for a date and time, every booking that
    [getActiveBookings] returns for that date lies at or after that time:
    on a later date, or on the date itself and not before the time. *)
Theorem getActiveBookings_after_the_sweep
    (currentDate currentTime : string) (s : Store) (rows : list Booking) (r : Booking) :
  value (getActiveBookings currentDate
           (final (markPastSessionsCompleted currentDate currentTime s))) = Ok rows ->
  In r rows ->
  status r = Active
  /\ String.leb currentDate (sessionDate r) = true
  /\ (sessionDate r = currentDate -> String.ltb (sessionTime r) currentTime = false).
Proof.
  unfold getActiveBookings, query. cbn [value]. intros Hv Hin.
  injection Hv as <-. apply in_order_by_slot, List.filter_In in Hin as [Hin Hcond].
  apply andb_true_iff in Hcond as [Hst Hdate].
  assert (Hactive : status r = Active) by (destruct (status r); cbn in Hst; congruence).
  pose proof (no_active_booking_is_past currentDate currentTime s r Hin Hactive) as Hpost.
  unfold is_past in Hpost.
  apply orb_false_iff in Hpost as [_ Hpost].
  repeat split; try assumption.
  intros Heq. rewrite Heq, String.eqb_refl in Hpost. exact Hpost.
Qed.

Lemma getActiveBookings_after_the_sweep_witness :
  status (mkBooking 1 "4711" (Some "ann") (Some "ann") "2024-06-10" "14:00"
                    (Some "evt1") Active None 1718000000 1718000000) = Active
  /\ String.leb "2024-06-10"
                (sessionDate (mkBooking 1 "4711" (Some "ann") (Some "ann") "2024-06-10"
                                        "14:00" (Some "evt1") Active None
                                        1718000000 1718000000)) = true
  /\ (sessionDate (mkBooking 1 "4711" (Some "ann") (Some "ann") "2024-06-10" "14:00"
                             (Some "evt1") Active None 1718000000 1718000000)
      = "2024-06-10" ->
      String.ltb (sessionTime (mkBooking 1 "4711" (Some "ann") (Some "ann") "2024-06-10"
                                         "14:00" (Some "evt1") Active None
                                         1718000000 1718000000)) "09:00" = false).
Proof.
  exact (getActiveBookings_after_the_sweep "2024-06-10" "09:00" store_1 _
           (mkBooking 1 "4711" (Some "ann") (Some "ann") "2024-06-10" "14:00"
                      (Some "evt1") Active None 1718000000 1718000000)
           eq_refl (or_introl eq_refl)).
Defined.

Lemma getBookingsByDateRange_is_inclusive_witness :
  value (getBookingsByDateRange "2024-06-30" "2024-06-01" store_1) = Ok [].
Proof.
  destruct (getBookingsByDateRange_is_inclusive "2024-06-30" "2024-06-01" store_1)
    as (rows & Hrun & _ & _ & Hempty).
  rewrite Hrun. cbn [value]. f_equal. apply Hempty. reflexivity.
Defined.

(** Who the facade writes into the history.  Its [cancelBooking] names
    the owner of the booking as the performer of both rows, and throws
    'Booking not found' without writing for an id no row has.  Its
    [updateBooking], given no [telegramUserId] among the updates, names
    'system'. *)
Theorem Database_facade_names_the_performer (s : Store) (bid : Z) :
  (List.find (fun r => id r =? bid) (bookings s) = None ->
   Database_cancelBooking bid s = Outcome (Throw (JsError "Booking not found")) s [])
  /\ (forall old,
        consistent s ->
        List.find (fun r => id r =? bid) (bookings s) = Some old ->
        exists h1 h2,
          value (Database_cancelBooking bid s) = Ok tt
          /\ booking_history (final (Database_cancelBooking bid s))
             = booking_history s ++ [h1; h2]
          /\ h_performedBy h1 = telegramUserId old
          /\ h_performedBy h2 = telegramUserId old)
  /\ (forall us,
        telegramUserId_of us = None ->
        value (Database_updateBooking bid us s) = Ok tt ->
        exists h,
          booking_history (final (Database_updateBooking bid us s))
          = booking_history s ++ [h]
          /\ h_action h = AModified /\ h_performedBy h = "system").
Proof.
  split; [|split].
  - intros Hnone. unfold Database_cancelBooking, bind, getBookingById, query.
    cbn [value final commits]. rewrite Hnone. reflexivity.
  - intros old Hc Hfind.
    assert (Hrun : Database_cancelBooking bid s
                   = cancelBooking bid (telegramUserId old) s).
    { unfold Database_cancelBooking, bind, getBookingById, query.
      cbn [value final commits]. rewrite Hfind.
      destruct (cancelBooking bid (telegramUserId old) s) as [v f c]. reflexivity. }
    rewrite Hrun, (cancelBooking_found _ _ _ _ Hc Hfind). cbn [value final].
    unfold logged at 1. cbn [booking_history].
    unfold logged at 1. cbn [booking_history].
    rewrite <- app_assoc. cbn [app].
    eexists _, _. repeat split; reflexivity.
  - intros us Hnone. unfold Database_updateBooking. rewrite Hnone. intros Hv.
    destruct (updateBooking_cases bid us "system" s)
      as [(e & Hrun)|[(st & old & s1 & _ & Hr & Hrun)|(st & s1 & Hr & Hrun)]];
      rewrite Hrun in *; cbn [value final] in *; [discriminate| |discriminate].
    apply run_update_keeps in Hr as (Hh & _ & _).
    unfold logged. cbn [booking_history]. rewrite Hh.
    eexists. repeat split; reflexivity.
Qed.

Lemma Database_facade_names_the_performer_witness :
  exists h1 h2,
    value (Database_cancelBooking 1 store_1) = Ok tt
    /\ booking_history (final (Database_cancelBooking 1 store_1))
       = booking_history store_1 ++ [h1; h2]
    /\ h_performedBy h1 = "4711" /\ h_performedBy h2 = "4711".
Proof.
  refine (proj1 (proj2 (Database_facade_names_the_performer store_1 1)) _ _ eq_refl).
  split; reflexivity.
Defined.
End QueryExtras.

(** ** Migrations: the schema after a run, and rolling back *)

Section MigrationExtras.
Import Mig.

Variable sha256_hex : list Ddl -> string.

Lemma version_determines (m m' : Migration) :
  In m getMigrations -> In m' getMigrations -> version m = version m' -> m = m'.
Proof.
  intros [<-|[<-|[<-|[<-|[]]]]] [<-|[<-|[<-|[<-|[]]]]] H;
    try reflexivity; discriminate H.
Qed.

Lemma leading_passes {A} (p : A -> bool) (l : list A) (x : A) :
  In x (leading p l) -> In x l /\ p x = true.
Proof.
  induction l as [|y l IH]; [contradiction|].
  cbn [leading]. destruct (p y) eqn:E; [|contradiction].
  intros [<-|H]; [split; [now left | exact E]|].
  destruct (IH H). split; [now right | assumption].
Qed.

Lemma leading_whole {A} (p : A -> bool) (l : list A) :
  leading p l = l -> forall x, In x l -> p x = true.
Proof.
  induction l as [|y l IH]; [contradiction|].
  cbn [leading]. destruct (p y) eqn:E; [|discriminate].
  intros H x [<-|Hx]; [exact E|]. apply IH; [congruence | exact Hx].
Qed.

(** The schema a run leaves, from any store.  A table is there
    exactly when it was there or is the table of a migration the run
    applied, and likewise an index; a table that was there keeps its
    columns, also when it is the table of an applied migration, and a
    table that came has the columns of its script.  When the run returns,
    the table and the indexes of every migration that was pending exist.
    When the schema does not fit the script of a pending migration, the
    run throws SQLITE_ERROR and the store has no row of that migration's
    version. *)
Theorem runMigrations_creates_the_tables (db : Db) :
  let o := runMigrations sha256_hex db in
  (forall t, has_table t (final o)
             = has_table t db
               || existsb (fun m => same_name t (table_of m)) (applicable db))
  /\ (forall i, has_index i (final o)
                = has_index i db
                  || existsb (fun m => existsb (same_name i) (index_names m))
                             (applicable db))
  /\ (forall t c, has_table t db = true -> has_column t c (final o) = has_column t c db)
  /\ (forall m c, In m (applicable db) -> has_table (table_of m) db = false ->
                  has_column (table_of m) c (final o)
                  = existsb (same_name c) (columns_of m))
  /\ (value o = Ok tt ->
      forall m, In m getMigrations -> currentVersion db < version m ->
                has_table (table_of m) (final o) = true
                /\ forallb (fun i => has_index i (final o)) (index_names m) = true)
  /\ (forall m, In m getMigrations -> currentVersion db < version m ->
                fits m db = false ->
                value o = Throw sql_error
                /\ existsb (fun r => row_version r =? version m) (migrations (final o))
                   = false).
Proof.
  intros o. subst o.
  pose proof (runMigrations_reaches sha256_hex db) as Hrun. cbv zeta in Hrun.
  destruct Hrun as (_ & _ & _ & (Hrows & Ht & Hi & Hc & _) & Hok & Hthrow).
  split; [exact Ht|]. split; [exact Hi|]. split; [|split; [|split]].
  - intros t c Hhas. rewrite Hc, Hhas. apply orb_false_r.
  - intros m c Hm Hhas. rewrite Hc.
    assert (has_column (table_of m) c db = false) as ->.
    { destruct (has_column (table_of m) c db) eqn:E; [|reflexivity].
      apply has_column_table in E. congruence. }
    rewrite Hhas. cbn [negb orb andb].
    pose proof (proj1 (leading_passes _ _ _ Hm)) as Hdef.
    apply (proj1 (pending_spec db m)) in Hdef as [Hdef _].
    destruct (existsb (fun m0 => same_name (table_of m) (table_of m0)
                                 && existsb (same_name c) (columns_of m0))
                      (applicable db)) eqn:E.
    + apply existsb_exists in E as (m' & Hm' & Hx).
      apply andb_true_iff in Hx as [Hx Hcol].
      apply leading_passes in Hm' as [Hm' _].
      apply (proj1 (pending_spec db m')) in Hm' as [Hm' _].
      destruct (Z.eq_dec (version m) (version m')) as [Hv|Hv].
      * rewrite (version_determines m m' Hdef Hm' Hv). now rewrite Hcol.
      * pose proof (getMigrations_apart m m' Hdef Hm' Hv) as Hap.
        destruct (apart_names m m' _ _ Hap (or_introl eq_refl) (or_introl eq_refl))
          as [Hf _]. congruence.
    + destruct (existsb (same_name c) (columns_of m)) eqn:Ecol; [|reflexivity].
      exfalso. rewrite <- not_true_iff_false in E. apply E.
      apply existsb_exists. exists m. split; [exact Hm|].
      now rewrite same_name_refl, Ecol.
  - intros Hv m Hm Hlt.
    assert (Hall : applicable db = pending db).
    { destruct (leading_cases (fun m0 => fits m0 db) (pending db)) as [E|E];
        [exact E|]. rewrite (Hthrow E) in Hv. discriminate. }
    assert (Hp : In m (applicable db)).
    { rewrite Hall. apply pending_spec. auto. }
    split.
    + rewrite Ht. apply orb_true_iff. right. apply existsb_exists.
      exists m. split; [exact Hp | apply same_name_refl].
    + apply forallb_forall. intros i Hi'. rewrite Hi. apply orb_true_iff. right.
      apply existsb_exists. exists m. split; [exact Hp|].
      apply existsb_exists. exists i. split; [exact Hi' | apply same_name_refl].
  - intros m Hm Hlt Hfit.
    assert (Hp : In m (pending db)) by (apply pending_spec; auto).
    assert (Hne : applicable db <> pending db).
    { intros E. pose proof (leading_whole _ _ E m Hp) as Hfits. cbv beta in Hfits.
      congruence. }
    split; [exact (Hthrow Hne)|].
    rewrite Hrows, existsb_app. apply orb_false_iff. split.
    + apply version_is_new.
      destruct (currentVersion_spec db) as (_ & Hle & _).
      eapply List.Forall_impl; [|exact Hle]. cbn. intros r Hr. lia.
    + destruct (existsb _ (map _ (applicable db))) eqn:E; [|reflexivity].
      apply existsb_exists in E as (r & Hr & Hv).
      apply in_map_iff in Hr as (m' & <- & Hm').
      cbn [recorded row_version] in Hv. apply Z.eqb_eq in Hv.
      apply leading_passes in Hm' as [Hm' Hfits'].
      apply (proj1 (pending_spec db m')) in Hm' as [Hm' _].
      rewrite (version_determines m' m Hm' Hm Hv) in Hfits'. congruence.
Qed.


(** *** Rolling back *)

Lemma rollback_unfold (targetVersion : Z) (db : Db) :
  rollback targetVersion db
  = if targetVersion >=? currentVersion db then Outcome (Ok tt) db []
    else
      for_of (to_rollback targetVersion db)
        (fun migration =>
           try_catch (transaction (revert_migration migration))
                     (fun error => throw error)) db.
Proof.
  unfold rollback, bind, query. cbn [value final commits].
  destruct (targetVersion >=? currentVersion db); [reflexivity|].
  fold (to_rollback targetVersion db).
  destruct (for_of _ _ db) as [v f c]. cbn. destruct v; reflexivity.
Qed.

Lemma to_rollback_spec (targetVersion : Z) (db : Db) (m : Migration) :
  In m (to_rollback targetVersion db)
  <-> In m getMigrations /\ targetVersion < version m <= currentVersion db.
Proof.
  unfold to_rollback. rewrite List.filter_In, <- in_rev, andb_true_iff. split.
  - intros [H1 [H2 H3]]. split; [assumption | lia].
  - intros [H1 H2]. split; [assumption | split; lia].
Qed.

Lemma to_rollback_sound (targetVersion : Z) (db : Db) :
  Forall (fun m => In m getMigrations) (to_rollback targetVersion db)
  /\ StronglySorted (fun a b => version b < version a) (to_rollback targetVersion db).
Proof.
  split.
  - apply List.Forall_forall. intros m Hm. now apply to_rollback_spec in Hm as [Hm _].
  - unfold to_rollback. apply StronglySorted_filter_keeps.
    cbn. repeat constructor; cbn; lia.
Qed.

Lemma without_nothing (db : Db) : without [] db = db.
Proof.
  destruct db as [ts ixs rows]. unfold without. cbn [tables indexes migrations existsb negb].
  f_equal; apply filter_all; reflexivity.
Qed.

Lemma existsb_and_const {A} (q : A -> bool) (c : bool) (l : list A) :
  existsb (fun y => q y && c) l = existsb q l && c.
Proof.
  induction l as [|y l IH]; [reflexivity|].
  cbn [existsb]. rewrite IH. destruct (q y), c, (existsb q l); reflexivity.
Qed.

Lemma has_table_without (x : string) (ms : list Migration) (db : Db) :
  has_table x (without ms db)
  = has_table x db && negb (existsb (fun m => same_name x (table_of m)) ms).
Proof.
  unfold has_table, without. cbn [tables]. rewrite existsb_filter.
  rewrite <- existsb_and_const. apply existsb_ext_In. intros y _.
  destruct (same_name x (t_name y)) eqn:E; [|now rewrite andb_false_r].
  rewrite andb_true_r. cbn [andb]. f_equal. apply existsb_ext_In. intros m _.
  rewrite <- (same_name_right _ _ (table_of m) E). apply same_name_sym.
Qed.

Lemma has_table_apart (m m' : Migration) (db : Db) :
  names_apart m m' = true ->
  has_table (table_of m') (without [m] db) = has_table (table_of m') db.
Proof.
  intros Hap. rewrite has_table_without. cbn [existsb].
  destruct (apart_names m m' _ _ Hap (or_introl eq_refl) (or_introl eq_refl)) as [_ ->].
  now rewrite andb_true_r.
Qed.

Lemma without_cons (m : Migration) (ms : list Migration) (db : Db) :
  Forall (fun m' => names_apart m m' = true) ms ->
  without ms (without [m] db) = without (m :: ms) db.
Proof.
  intros Hap. unfold without at 1 3. f_equal.
  - unfold without. cbn [tables]. rewrite filter_filter_and.
    apply List.filter_ext. intros x. cbn [existsb]. now rewrite orb_false_r, negb_orb.
  - unfold without at 2. cbn [indexes]. rewrite filter_filter_and.
    apply List.filter_ext. intros ix. cbn [existsb]. rewrite orb_false_r, negb_orb.
    f_equal. f_equal. apply existsb_ext_In. intros m' Hm'.
    rewrite List.Forall_forall in Hap. now rewrite (has_table_apart m m' db (Hap m' Hm')).
  - unfold without. cbn [migrations]. rewrite filter_filter_and.
    apply List.filter_ext. intros r. cbn [existsb]. now rewrite orb_false_r, negb_orb.
Qed.

(** One migration taken back in its transaction: DROP TABLE fails when
    rows of another table refer to the table, and nothing changes; where
    it does not fail, the table, its indexes and the row of the migration
    go in one commit. *)
Lemma revert_transaction (m : Migration) (db : Db) :
  In m getMigrations ->
  try_catch (transaction (revert_migration m)) (fun error => throw error) db
  = if held m db then Outcome (Throw foreign_key_failed) db []
    else Outcome (Ok tt) (without [m] db) [without [m] db].
Proof.
  intros Hin. destruct (migration_shape m Hin) as (_ & Hdown & _).
  unfold held, try_catch, transaction, revert_migration. rewrite Hdown.
  destruct (has_table (table_of m) db) eqn:Hhas; cbn [andb].
  - destruct (is_referenced (table_of m) db) eqn:Href.
    + assert (Hs : exec_script [DropTableIfExists (table_of m)] db
                   = Throw foreign_key_failed).
      { cbn [exec_script exec_ddl]. now rewrite Hhas, Href. }
      rewrite (bind_throw _ _ _ _ _ _ (stmt_throw _ _ _ Hs)). reflexivity.
    + assert (Hs : exec_script [DropTableIfExists (table_of m)] db
                   = Ok (tt, mkDb (List.filter (fun x => negb (same_name (table_of m) (t_name x)))
                                               (tables db))
                                  (List.filter (fun x => negb (same_name (table_of m) (snd x)))
                                               (indexes db))
                                  (migrations db))).
      { cbn [exec_script exec_ddl]. now rewrite Hhas, Href. }
      rewrite (bind_ok _ _ _ _ _ _ (stmt_ok _ _ _ _ Hs)).
      unfold stmt, delete_migration. cbn [value final commits app tables indexes migrations].
      assert (Heq : mkDb (List.filter (fun x => negb (same_name (table_of m) (t_name x)))
                                      (tables db))
                         (List.filter (fun x => negb (same_name (table_of m) (snd x)))
                                      (indexes db))
                         (List.filter (fun r => negb (row_version r =? version m))
                                      (migrations db))
                    = without [m] db).
      { unfold without. f_equal; apply List.filter_ext; intros x; cbn [existsb];
          rewrite ?Hhas, ?orb_false_r; reflexivity. }
      rewrite Heq. reflexivity.
  - assert (Hs : exec_script [DropTableIfExists (table_of m)] db = Ok (tt, db)).
    { cbn [exec_script exec_ddl]. now rewrite Hhas. }
    rewrite (bind_ok _ _ _ _ _ _ (stmt_ok _ _ _ _ Hs)).
    unfold stmt, delete_migration. cbn [value final commits app].
    assert (Heq : mkDb (tables db) (indexes db)
                       (List.filter (fun r => negb (row_version r =? version m))
                                    (migrations db))
                  = without [m] db).
    { unfold without. f_equal.
      - symmetry. apply filter_all. intros x Hx. cbn [existsb]. rewrite orb_false_r.
        apply negb_true_iff. destruct (same_name (table_of m) (t_name x)) eqn:E;
          [|reflexivity].
        unfold has_table in Hhas. rewrite <- not_true_iff_false in Hhas.
        exfalso. apply Hhas. apply existsb_exists. eauto.
      - symmetry. apply filter_all. intros x _. cbn [existsb]. now rewrite Hhas.
      - apply List.filter_ext. intros r. cbn [existsb]. now rewrite orb_false_r. }
    rewrite Heq. reflexivity.
Qed.

Lemma descending_apart (m : Migration) (ms : list Migration) :
  In m getMigrations ->
  Forall (fun m' => In m' getMigrations) ms ->
  Forall (fun m' => version m' < version m) ms ->
  Forall (fun m' => names_apart m m' = true) ms.
Proof.
  intros Hm Hin Hlt. apply List.Forall_forall. intros m' Hm'.
  rewrite List.Forall_forall in Hin, Hlt.
  apply getMigrations_apart; [assumption | now apply Hin |].
  specialize (Hlt m' Hm'). lia.
Qed.

(** The loop of [rollback] over migrations in descending order: it takes
    back those before the first whose table is held, one commit each, and
    throws at that one. *)
Lemma for_of_rollback (ms : list Migration) (db : Db) :
  Forall (fun m => In m getMigrations) ms ->
  StronglySorted (fun a b => version b < version a) ms ->
  let o := for_of ms (fun migration =>
                        try_catch (transaction (revert_migration migration))
                                  (fun error => throw error)) db in
  length (commits o) = length (taken_back ms db)
  /\ final o = List.last (commits o) db
  /\ (forall i d, nth_error (commits o) i = Some d -> d = without (firstn (S i) ms) db)
  /\ (taken_back ms db = ms -> value o = Ok tt)
  /\ (taken_back ms db <> ms -> value o = Throw foreign_key_failed).
Proof.
  revert db. induction ms as [|m ms IH]; intros db Hin Hsorted o; subst o.
  - cbn. split; [reflexivity|]. split; [reflexivity|].
    split; [intros [|i] d H; discriminate|]. split; [reflexivity | congruence].
  - apply Forall_cons_iff in Hin as [Hm Hin].
    apply StronglySorted_inv in Hsorted as [Hsorted Hlt].
    set (body := fun migration =>
                   try_catch (transaction (revert_migration migration))
                             (fun error => throw error)) in *.
    pose proof (revert_transaction m db Hm) as Hstep. fold (body m) in Hstep.
    cbn [taken_back]. destruct (held m db) eqn:Hheld.
    + assert (Ho : for_of (m :: ms) body db = Outcome (Throw foreign_key_failed) db []).
      { exact (bind_throw (body m) (fun _ => for_of ms body) db db _ [] Hstep). }
      rewrite Ho. cbn [value final commits length List.last].
      split; [reflexivity|]. split; [reflexivity|].
      split; [intros [|i] d H; discriminate|]. split; [congruence | reflexivity].
    + set (db1 := without [m] db) in *.
      specialize (IH db1 Hin Hsorted). cbv zeta in IH.
      destruct IH as (Hl & Hfin & Hstates & Hok & Hthrow).
      assert (Ho : for_of (m :: ms) body db
                   = Outcome (value (for_of ms body db1)) (final (for_of ms body db1))
                             (db1 :: commits (for_of ms body db1))).
      { exact (bind_ok (body m) (fun _ => for_of ms body) db db1 tt [db1] Hstep). }
      rewrite Ho. cbn [value final commits length].
      split; [now rewrite Hl|]. split; [|split; [|split]].
      * rewrite Hfin. destruct (commits (for_of ms body db1)) as [|d l]; [reflexivity|].
        change (List.last (d :: l) db1 = List.last (d :: l) db).
        apply last_cons_default.
      * intros [|i] d Hd.
        -- cbn in Hd. injection Hd as <-. reflexivity.
        -- cbn [nth_error] in Hd. apply Hstates in Hd. rewrite Hd.
           change (firstn (S (S i)) (m :: ms)) with (m :: firstn (S i) ms).
           apply without_cons. apply Forall_firstn_keeps.
           now apply descending_apart.
      * intros Heq. apply Hok. congruence.
      * intros Hne. apply Hthrow. congruence.
Qed.

(** How far the loop gets: the migrations taken back were not held when
    their turn came, and the next one, if there is one, was. *)
Lemma taken_back_spec (ms : list Migration) (db : Db) :
  Forall (fun m => In m getMigrations) ms ->
  StronglySorted (fun a b => version b < version a) ms ->
  (forall i m, nth_error (taken_back ms db) i = Some m ->
               nth_error ms i = Some m /\ held m (without (firstn i ms) db) = false)
  /\ (forall m, nth_error ms (length (taken_back ms db)) = Some m ->
                held m (without (firstn (length (taken_back ms db)) ms) db) = true).
Proof.
  revert db. induction ms as [|m ms IH]; intros db Hin Hsorted.
  - split; [intros [|i] m H; discriminate | intros m H; discriminate].
  - apply Forall_cons_iff in Hin as [Hm Hin].
    apply StronglySorted_inv in Hsorted as [Hsorted Hlt].
    pose proof (descending_apart m ms Hm Hin Hlt) as Hap.
    cbn [taken_back]. destruct (held m db) eqn:Hheld.
    + split; [intros [|i] m' H; discriminate|].
      cbn [length nth_error firstn]. intros m' H. injection H as <-.
      now rewrite without_nothing.
    + destruct (IH (without [m] db) Hin Hsorted) as [Hgone Hstop]. split.
      * intros [|i] m' H.
        -- cbn in H. injection H as <-. cbn [nth_error firstn].
           split; [reflexivity | now rewrite without_nothing].
        -- cbn [nth_error] in H. apply Hgone in H as [H1 H2].
           cbn [nth_error firstn]. split; [exact H1|].
           rewrite <- without_cons; [exact H2 | now apply Forall_firstn_keeps].
      * cbn [length nth_error firstn]. intros m' H. apply Hstop in H.
        rewrite <- without_cons; [exact H | now apply Forall_firstn_keeps].
Qed.

Lemma taken_back_all (ms : list Migration) (db : Db) :
  Forall (fun m => In m getMigrations) ms ->
  StronglySorted (fun a b => version b < version a) ms ->
  (forall i m, nth_error ms i = Some m -> held m (without (firstn i ms) db) = false) ->
  taken_back ms db = ms.
Proof.
  revert db. induction ms as [|m ms IH]; intros db Hin Hsorted Hfree; [reflexivity|].
  apply Forall_cons_iff in Hin as [Hm Hin].
  apply StronglySorted_inv in Hsorted as [Hsorted Hlt].
  pose proof (descending_apart m ms Hm Hin Hlt) as Hap.
  cbn [taken_back]. pose proof (Hfree 0%nat m eq_refl) as H0.
  cbn [firstn] in H0. rewrite without_nothing in H0. rewrite H0. f_equal.
  apply IH; [assumption..|]. intros i m' Hi.
  rewrite without_cons by now apply Forall_firstn_keeps.
  apply (Hfree (S i) m'). exact Hi.
Qed.

Lemma taken_back_cases (ms : list Migration) (db : Db) :
  taken_back ms db = ms \/ taken_back ms db <> ms.
Proof.
  revert db. induction ms as [|m ms IH]; intros db; [now left|].
  cbn [taken_back]. destruct (held m db); [right; discriminate|].
  destruct (IH (without [m] db)) as [H|H]; [left; now rewrite H | right; congruence].
Qed.

Lemma taken_back_length (ms : list Migration) (db : Db) :
  (length (taken_back ms db) <= length ms)%nat
  /\ (length (taken_back ms db) = length ms -> taken_back ms db = ms).
Proof.
  revert db. induction ms as [|m ms IH]; intros db; [split; [apply le_n | reflexivity]|].
  cbn [taken_back]. destruct (held m db).
  - cbn [length]. split; [apply Nat.le_0_l | discriminate].
  - destruct (IH (without [m] db)) as [H1 H2]. cbn [length]. split.
    + now apply le_n_S.
    + intros H. injection H as H. now rewrite (H2 H).
Qed.

(** What a rollback does, below the recorded maximum. *)
Lemma rollback_run (targetVersion : Z) (db : Db) :
  targetVersion < currentVersion db ->
  let o := rollback targetVersion db in
  let rs := to_rollback targetVersion db in
  length (commits o) = length (taken_back rs db)
  /\ final o = List.last (commits o) db
  /\ (forall i d, nth_error (commits o) i = Some d -> d = without (firstn (S i) rs) db)
  /\ final o = without (firstn (length (commits o)) rs) db
  /\ (taken_back rs db = rs -> value o = Ok tt)
  /\ (taken_back rs db <> rs -> value o = Throw foreign_key_failed).
Proof.
  intros Hlt o rs. subst o rs. rewrite rollback_unfold.
  destruct (targetVersion >=? currentVersion db) eqn:E; [lia|].
  destruct (to_rollback_sound targetVersion db) as [Hin Hsorted].
  pose proof (for_of_rollback _ db Hin Hsorted) as H. cbv zeta in H.
  destruct H as (Hl & Hf & Hstates & Hok & Hthrow).
  split; [exact Hl|]. split; [exact Hf|]. split; [exact Hstates|].
  split; [|split; assumption].
  rewrite Hf. destruct (commits _) as [|d l] eqn:Hc.
  - cbn. now rewrite without_nothing.
  - apply Hstates.
    exact (nth_error_last (d :: l) db ltac:(discriminate)).
Qed.

(** With a target that is not below the recorded maximum version
    [rollback] does nothing.  Otherwise the migrations to take back are
    the defined ones above the target and up to the maximum, and it goes
    through them from the highest version down, one transaction each: the
    i-th commit of the run is the store without the i highest of them,
    their tables dropped with the indexes on them and their rows deleted,
    everything else as it was.  A migration whose turn comes is taken back
    unless rows of another table refer to its table; at the first one held
    in this way DROP TABLE throws SQLITE_CONSTRAINT_FOREIGNKEY, its
    transaction is rolled back, and the rollback ends there with the
    migrations of higher version taken back and this one and the lower
    ones in place. *)
Theorem rollback_takes_back_the_range (targetVersion : Z) (db : Db) :
  let o := rollback targetVersion db in
  let rs := to_rollback targetVersion db in
  (currentVersion db <= targetVersion -> o = Outcome (Ok tt) db [])
  /\ (targetVersion < currentVersion db ->
      (forall m, In m rs
                 <-> In m getMigrations /\ targetVersion < version m <= currentVersion db)
      /\ StronglySorted (fun a b => version b < version a) rs
      /\ (length (commits o) <= length rs)%nat
      /\ (forall i d, nth_error (commits o) i = Some d ->
                      d = without (firstn (S i) rs) db)
      /\ final o = without (firstn (length (commits o)) rs) db
      /\ (forall i m, (i < length (commits o))%nat -> nth_error rs i = Some m ->
                      held m (without (firstn i rs) db) = false)
      /\ (length (commits o) = length rs -> value o = Ok tt)
      /\ (forall m, nth_error rs (length (commits o)) = Some m ->
                    held m (final o) = true /\ value o = Throw foreign_key_failed)).
Proof.
  intros o rs. subst o rs. split.
  - intros Hle. rewrite rollback_unfold.
    destruct (targetVersion >=? currentVersion db) eqn:E; [reflexivity | lia].
  - intros Hlt.
    pose proof (rollback_run targetVersion db Hlt) as Hrun. cbv zeta in Hrun.
    destruct Hrun as (Hl & _ & Hstates & Hfinal & Hok & Hthrow).
    destruct (to_rollback_sound targetVersion db) as [Hin Hsorted].
    destruct (taken_back_spec (to_rollback targetVersion db) db Hin Hsorted)
      as [Hfree Hstop].
    destruct (taken_back_length (to_rollback targetVersion db) db) as [Hle Hwhole].
    rewrite <- Hl in Hstop, Hle, Hwhole.
    split; [apply to_rollback_spec|]. split; [exact Hsorted|]. split; [exact Hle|].
    split; [exact Hstates|]. split; [exact Hfinal|]. split; [|split].
    + intros i m Hi Hm. rewrite Hl in Hi.
      destruct (nth_error (taken_back (to_rollback targetVersion db) db) i) as [m'|] eqn:E.
      * destruct (Hfree i m' E) as [Hm' Hheld]. congruence.
      * apply nth_error_None in E. exfalso. apply (Nat.lt_irrefl i).
        eapply Nat.lt_le_trans; [exact Hi | exact E].
    + intros Hall. apply Hok, Hwhole, Hall.
    + intros m Hm. split; [rewrite Hfinal; now apply Hstop|].
      apply Hthrow. intros Heq.
      assert (Hsome : nth_error (to_rollback targetVersion db)
                                (length (commits (rollback targetVersion db))) <> None)
        by congruence.
      apply nth_error_Some in Hsome. rewrite Hl, Heq in Hsome.
      exact (Nat.lt_irrefl _ Hsome).
Qed.

Lemma leading_forallb {A} (p : A -> bool) (l : list A) :
  forallb p l = true -> leading p l = l.
Proof.
  induction l as [|x l IH]; [reflexivity|].
  cbn [forallb leading]. intros H. apply andb_true_iff in H as [-> H].
  now rewrite IH.
Qed.

Lemma descending_above (rs : list Migration) (i : nat) (m m' : Migration) :
  StronglySorted (fun a b => version b < version a) rs ->
  nth_error rs i = Some m -> In m' rs -> version m < version m' ->
  In m' (firstn i rs).
Proof.
  intros Hsorted. revert i. induction Hsorted as [|a rest Hs IH Ha]; intros i Hi Hin Hlt.
  - destruct i; discriminate.
  - destruct i as [|j].
    + cbn in Hi. injection Hi as <-. exfalso. destruct Hin as [<-|Hin]; [lia|].
      rewrite List.Forall_forall in Ha. specialize (Ha m' Hin). lia.
    + cbn [nth_error] in Hi. cbn [firstn]. destruct Hin as [<-|Hin]; [now left|].
      right. now apply IH.
Qed.

(** On a schema that releases, with the tables a run has added, no
    migration is held when its turn comes in a rollback over all of
    them. *)
Lemma released (db db1 : Db) (news : list Table) (rs : list Migration) (i : nat)
    (m : Migration) :
  tables db1 = tables db ++ news ->
  Forall (fun t => t_referenced t = []) news ->
  releases db = true ->
  StronglySorted (fun a b => version b < version a) rs ->
  (forall m', In m' getMigrations -> In m' rs) ->
  In m getMigrations ->
  nth_error rs i = Some m ->
  held m (without (firstn i rs) db1) = false.
Proof.
  intros Htables Hnews Hrel Hsorted Hall Hm Hi.
  unfold held. apply andb_false_iff. right.
  unfold is_referenced, without. cbn [tables]. rewrite existsb_filter, Htables, existsb_app.
  apply orb_false_iff. split.
  - destruct (existsb _ (tables db)) eqn:E; [|reflexivity]. exfalso.
    apply existsb_exists in E as (x & Hx & Hp).
    apply andb_true_iff in Hp as [Hkept Hp]. apply andb_true_iff in Hp as [Hother Href].
    apply negb_true_iff in Hkept, Hother.
    unfold releases in Hrel. rewrite forallb_forall in Hrel. specialize (Hrel x Hx).
    rewrite forallb_forall in Hrel. specialize (Hrel m Hm).
    rewrite Href, Hother in Hrel. cbn [negb orb] in Hrel.
    apply existsb_exists in Hrel as (m' & Hm' & Hp).
    apply andb_true_iff in Hp as [Hlt Hname]. apply Z.ltb_lt in Hlt.
    rewrite <- not_true_iff_false in Hkept. apply Hkept.
    apply existsb_exists. exists m'. split; [|exact Hname].
    apply (descending_above rs i m m' Hsorted Hi (Hall m' Hm') Hlt).
  - destruct (existsb _ news) eqn:E; [|reflexivity]. exfalso.
    apply existsb_exists in E as (x & Hx & Hp).
    rewrite List.Forall_forall in Hnews. rewrite (Hnews x Hx) in Hp.
    cbn [existsb] in Hp. now rewrite !andb_false_r in Hp.
Qed.

(** A run and then [rollback(0)], on a store with no recorded
    migration whose schema fits the four scripts and releases: the run
    returns, and the rollback returns after four commits, having taken
    back all four migrations from the highest down.  The rows are gone
    again and the four tables are dropped, also one that was there before
    the run and that CREATE TABLE IF NOT EXISTS had left in place; every
    other table is there exactly when it was. *)
Theorem rollback_to_zero_after_a_run (db : Db) :
  migrations db = [] ->
  forallb (fun m => fits m db) getMigrations = true ->
  releases db = true ->
  let db1 := final (runMigrations sha256_hex db) in
  let o := rollback 0 db1 in
  value (runMigrations sha256_hex db) = Ok tt
  /\ value o = Ok tt
  /\ length (commits o) = 4%nat
  /\ final o = without (rev getMigrations) db1
  /\ migrations (final o) = []
  /\ (forall m, In m getMigrations -> has_table (table_of m) (final o) = false)
  /\ (forall t, (forall m, In m getMigrations -> same_name t (table_of m) = false) ->
                has_table t (final o) = has_table t db).
Proof.
  intros Hempty Hfits Hrel db1 o. subst o db1.
  destruct (currentVersion_spec db) as (Hzero & _ & _). specialize (Hzero Hempty).
  assert (Hpending : pending db = getMigrations).
  { unfold pending. rewrite Hzero. reflexivity. }
  assert (Happ : applicable db = getMigrations).
  { unfold applicable. rewrite Hpending. now apply leading_forallb. }
  pose proof (runMigrations_reaches sha256_hex db) as Hrun. cbv zeta in Hrun.
  destruct Hrun as (_ & _ & _ & Hend & Hok & _).
  rewrite Happ in Hend. rewrite Happ, Hpending in Hok. specialize (Hok eq_refl).
  set (db1 := final (runMigrations sha256_hex db)) in *.
  destruct Hend as (Hrows & Ht & _ & _ & news & Hnews & Hunref).
  rewrite Hempty in Hrows. cbn [app] in Hrows.
  assert (Hcur : currentVersion db1 = 4).
  { unfold currentVersion, max_version. rewrite Hrows. reflexivity. }
  assert (Hback : to_rollback 0 db1 = rev getMigrations).
  { unfold to_rollback. rewrite Hcur. reflexivity. }
  assert (Hlt : 0 < currentVersion db1) by (rewrite Hcur; lia).
  pose proof (rollback_run 0 db1 Hlt) as Hroll. cbv zeta in Hroll.
  destruct (to_rollback_sound 0 db1) as [Hin Hsorted].
  rewrite Hback in Hroll, Hin, Hsorted.
  destruct Hroll as (Hl & _ & _ & Hfinal & Hret & _).
  assert (Hwhole : taken_back (rev getMigrations) db1 = rev getMigrations).
  { apply taken_back_all; [assumption..|]. intros i m Hi.
    apply (released db db1 news (rev getMigrations) i m); try assumption.
    - intros m' Hm'. now apply in_rev in Hm'.
    - apply nth_error_In in Hi. now apply in_rev in Hi. }
  rewrite Hwhole in Hl. specialize (Hret Hwhole).
  assert (Hfinal' : final (rollback 0 db1) = without (rev getMigrations) db1).
  { rewrite Hfinal, Hl. now rewrite firstn_all. }
  split; [exact Hok|]. split; [exact Hret|]. split; [rewrite Hl; reflexivity|].
  split; [exact Hfinal'|]. rewrite Hfinal'. split; [|split].
  - unfold without. cbn [migrations]. rewrite Hrows. reflexivity.
  - intros m Hm. rewrite has_table_without.
    assert (existsb (fun m0 => same_name (table_of m) (table_of m0)) (rev getMigrations)
            = true) as ->; [|apply andb_false_r].
    apply existsb_exists. exists m. split; [now apply in_rev in Hm | apply same_name_refl].
  - intros t Hother. rewrite has_table_without, Ht.
    assert (Hnone : forall l, (forall m, In m l -> In m getMigrations) ->
                              existsb (fun m => same_name t (table_of m)) l = false).
    { intros l Hl'. destruct (existsb _ l) eqn:E; [|reflexivity].
      apply existsb_exists in E as (m & Hm & Heq).
      rewrite (Hother m (Hl' m Hm)) in Heq. discriminate. }
    rewrite (Hnone getMigrations) by auto.
    rewrite (Hnone (rev getMigrations)) by (intros m Hm; now apply in_rev in Hm).
    now rewrite orb_false_r, andb_true_r.
Qed.

End MigrationExtras.

Lemma runMigrations_creates_the_tables_witness :
  Mig.has_table "booking_history" (final (Mig.runMigrations toy_digest legacy_store)) = true
  /\ Mig.has_column "bookings" "notes" (final (Mig.runMigrations toy_digest legacy_store))
     = false
  /\ Mig.has_column "BOOKING_HISTORY" "bookingid"
       (final (Mig.runMigrations toy_digest legacy_store)) = true
  /\ Mig.has_index "idx_bookings_user" (final (Mig.runMigrations toy_digest legacy_store))
     = true
  /\ value (Mig.runMigrations toy_digest foreign_store) = Throw Mig.sql_error
  /\ existsb (fun r => Mig.row_version r =? 1)
             (Mig.migrations (final (Mig.runMigrations toy_digest foreign_store))) = false.
Proof.
  pose proof (runMigrations_creates_the_tables toy_digest legacy_store) as Hlegacy.
  pose proof (runMigrations_creates_the_tables toy_digest foreign_store) as Hforeign.
  cbv zeta in Hlegacy, Hforeign.
  destruct Hlegacy as (Ht & Hi & Hkeep & Hcol & _).
  destruct Hforeign as (_ & _ & _ & _ & _ & Hmis).
  split; [rewrite Ht; reflexivity|].
  split; [rewrite (Hkeep "bookings" "notes" eq_refl); reflexivity|].
  split.
  { rewrite (has_column_same "BOOKING_HISTORY" "booking_history" "bookingid" _ eq_refl).
    refine (eq_trans (Hcol (nth 3 Mig.getMigrations (Mig.mkMigration 0 "" [] []))
                           "bookingid" _ _) _);
      [vm_compute; auto | reflexivity | reflexivity]. }
  split; [rewrite Hi; reflexivity|].
  apply (Hmis (hd (Mig.mkMigration 0 "" [] []) Mig.getMigrations)).
  - left. reflexivity.
  - vm_compute. reflexivity.
  - reflexivity.
Defined.

Lemma rollback_takes_back_the_range_witness :
  value (Mig.rollback 0 audited_store) = Throw Mig.foreign_key_failed
  /\ final (Mig.rollback 0 audited_store)
     = without (firstn 3 (rev Mig.getMigrations)) audited_store
  /\ map Mig.t_name (Mig.tables (final (Mig.rollback 0 audited_store)))
     = ["bookings"; "audit"]
  /\ map Mig.row_version (Mig.migrations (final (Mig.rollback 0 audited_store))) = [1]
  /\ value (Mig.rollback 2 (final (Mig.runMigrations toy_digest history_store))) = Ok tt
  /\ map Mig.row_version
       (Mig.migrations
          (final (Mig.rollback 2 (final (Mig.runMigrations toy_digest history_store)))))
     = [1; 2]
  /\ Mig.rollback 4 (final (Mig.runMigrations toy_digest history_store))
     = Outcome (Ok tt) (final (Mig.runMigrations toy_digest history_store)) [].
Proof.
  pose proof (rollback_takes_back_the_range 0 audited_store) as H0.
  pose proof (rollback_takes_back_the_range 2
                (final (Mig.runMigrations toy_digest history_store))) as H2.
  pose proof (rollback_takes_back_the_range 4
                (final (Mig.runMigrations toy_digest history_store))) as H4.
  cbv zeta in H0, H2, H4.
  destruct H0 as (_ & H0). destruct H2 as (_ & H2). destruct H4 as (H4 & _).
  destruct H0 as (_ & _ & _ & _ & Hfinal0 & _ & _ & Hstop); [vm_compute; reflexivity|].
  destruct H2 as (_ & _ & _ & _ & Hfinal2 & _ & Hret & _); [vm_compute; reflexivity|].
  assert (Hthird : nth_error (to_rollback 0 audited_store)
                             (length (commits (Mig.rollback 0 audited_store)))
                   = Some (hd (Mig.mkMigration 0 "" [] []) Mig.getMigrations))
    by (vm_compute; reflexivity).
  destruct (Hstop _ Hthird) as [_ Hthrow].
  split; [exact Hthrow|].
  split; [rewrite Hfinal0; vm_compute; reflexivity|].
  split; [rewrite Hfinal0; vm_compute; reflexivity|].
  split; [rewrite Hfinal0; vm_compute; reflexivity|].
  split; [apply Hret; vm_compute; reflexivity|].
  split; [rewrite Hfinal2; vm_compute; reflexivity|].
  apply H4. vm_compute. discriminate.
Defined.

Lemma rollback_to_zero_after_a_run_witness :
  value (Mig.runMigrations toy_digest history_store) = Ok tt
  /\ value (Mig.rollback 0 (final (Mig.runMigrations toy_digest history_store))) = Ok tt
  /\ Mig.has_table "bookings"
       (final (Mig.rollback 0 (final (Mig.runMigrations toy_digest history_store))))
     = false
  /\ Mig.has_table "notes_archive"
       (final (Mig.rollback 0 (final (Mig.runMigrations toy_digest history_store))))
     = true.
Proof.
  assert (Hfits : forallb (fun m => fits m history_store) Mig.getMigrations = true)
    by (vm_compute; reflexivity).
  assert (Hrel : releases history_store = true) by (vm_compute; reflexivity).
  pose proof (rollback_to_zero_after_a_run toy_digest history_store eq_refl Hfits Hrel)
    as H.
  cbv zeta in H. destruct H as (Hrun & Hback & _ & _ & _ & Hdropped & Hkept).
  split; [exact Hrun|]. split; [exact Hback|]. split.
  - apply (Hdropped (hd (Mig.mkMigration 0 "" [] []) Mig.getMigrations)).
    left. reflexivity.
  - rewrite (Hkept "notes_archive"); [reflexivity|].
    intros m [<-|[<-|[<-|[<-|[]]]]]; reflexivity.
Defined.
(** ** The order of the slots *)

Section SlotOrder.
Import Cal.

Variable refreshAccessToken : option Credentials -> result Credentials.
Variable db_storeTokens : Credentials -> result unit.
Variable events_list : Moment -> option Moment -> result (option (list CalendarEvent)).
Variable now : Moment.
Variable tick : nat -> Moment.

Lemma StronglySorted_flat_map {A B} (R : relation B) (Q : relation A)
    (f : A -> list B) (l : list A) :
  StronglySorted Q l ->
  (forall x, In x l -> StronglySorted R (f x)) ->
  (forall x y a b, Q x y -> In a (f x) -> In b (f y) -> R a b) ->
  StronglySorted R (flat_map f l).
Proof.
  intros Hl Hf Hcross. induction Hl as [|x l Hl IH Hx]; [constructor|].
  cbn [flat_map]. apply StronglySorted_app_2.
  - intros a b Ha Hb. apply list_elem_of_In in Ha, Hb.
    apply in_flat_map in Hb as (y & Hy & Hb).
    rewrite List.Forall_forall in Hx. exact (Hcross x y a b (Hx y Hy) Ha Hb).
  - apply Hf. now left.
  - apply IH. intros y Hy. apply Hf. now right.
Qed.

Lemma StronglySorted_seq (a n : nat) : StronglySorted lt (seq a n).
Proof.
  revert a. induction n as [|n IH]; intros a; [constructor|].
  cbn [seq]. constructor; [apply IH|].
  apply List.Forall_forall. intros x Hx. apply in_seq in Hx. lia.
Qed.

Lemma hour_slots_sorted (busySlots : gset SlotKey) (date : Moment) :
  StronglySorted earlier (hour_slots now busySlots date).
Proof.
  unfold hour_slots. apply (StronglySorted_flat_map earlier Z.lt).
  - unfold workingHours. repeat constructor; lia.
  - intros hour _. cbv zeta. destruct (isBefore _ now); repeat constructor.
  - intros h1 h2 a b Hlt Ha Hb. cbv zeta in Ha, Hb.
    destruct (isBefore _ now); [destruct Ha|]. destruct Ha as [<-|[]].
    destruct (isBefore _ now); [destruct Hb|]. destruct Hb as [<-|[]].
    right. cbn. split; [reflexivity | exact Hlt].
Qed.

(** With a clock that does not run backwards, [getAvailableSlots] returns
    its slots in ascending order of date and then hour, each slot once. *)
Theorem getAvailableSlots_ascending
    (daysAhead : nat) (s : Service) (slots : list TimeSlot) :
  (forall d1 d2, (d1 <= d2)%nat -> m_day (tick d1) <= m_day (tick d2)) ->
  value (getAvailableSlots refreshAccessToken db_storeTokens events_list now tick daysAhead s)
  = Ok slots ->
  StronglySorted earlier slots /\ NoDup slots.
Proof.
  intros Hmono Hv. apply getAvailableSlots_returns in Hv as [items ->].
  assert (Hsorted : StronglySorted earlier
            (List.filter ts_available
               (flat_map
                  (fun day =>
                     let currentDate := add_days (Z.of_nat day) (tick day) in
                     if isBefore_day currentDate now || (weekday currentDate =? 0) then []
                     else hour_slots now (busy_set format_key items) currentDate)
                  (seq 0 daysAhead)))).
  { apply StronglySorted_filter_keeps.
    apply (StronglySorted_flat_map earlier lt).
    - apply StronglySorted_seq.
    - intros day _. cbv zeta. destruct (_ || _); [constructor | apply hour_slots_sorted].
    - intros d1 d2 a b Hlt Ha Hb. cbv zeta in Ha, Hb.
      destruct (_ || _); [destruct Ha|]. apply in_hour_slots in Ha as (h1 & _ & -> & _).
      destruct (_ || _); [destruct Hb|]. apply in_hour_slots in Hb as (h2 & _ & -> & _).
      left. cbn [ts_date add_days m_day].
      assert (m_day (tick d1) <= m_day (tick d2)) by (apply Hmono; lia). lia. }
  split; [exact Hsorted|].
  induction Hsorted as [|a l _ IH Ha]; constructor; [|exact IH].
  intros Hin. apply list_elem_of_In in Hin.
  rewrite List.Forall_forall in Ha. specialize (Ha a Hin).
  destruct Ha as [Ha|[_ Ha]]; lia.
Qed.

End SlotOrder.

(** ** Backup, restore and retention *)

Section FileExtras.
Import Files.

Variable Data : Type.
Variable dbPath : string.
Variable backupPath : string.
Variable path_join : string -> string -> string.
Variable empty_database : Data.
Variable file_size : File Data -> Z.
Variable sha256_hex : File Data -> string.

Ltac run_connection :=
  cbv beta zeta delta [try_catch bind query verifyBackup throw close copyFileSync
                       initializeConnection backup restore performRestore];
  repeat first
    [ match goal with H : _ !! _ = _ |- _ => rewrite H end
    | rewrite bool_decide_eq_true_2 by eauto
    | rewrite bool_decide_eq_false_2 by (intros [? ?]; discriminate)
    | rewrite lookup_insert_eq
    | rewrite lookup_insert_ne by congruence
    | progress cbn beta iota zeta delta
        [value final commits fs isConnected path checksum negb app] ].

Lemma bind_returns {St A B} (m : M St A) (k : A -> M St B) (s s' : St) (a : A) :
  m s = Outcome (Ok a) s' [] -> bind m k s = k a s'.
Proof.
  intros Hm. unfold bind. rewrite Hm. cbn [value final commits app].
  now destruct (k a s').
Qed.

Lemma restore_installs (backupFile : string) (d : Data) (c : Connection Data) :
  fs c !! backupFile = Some (Sqlite d) ->
  restore Data dbPath empty_database backupFile c
  = Outcome (Ok tt) (mkConnection (<[dbPath := Sqlite d]> (fs c)) true) [].
Proof.
  intros Hfile. destruct c as [files [|]]; cbn [fs] in *; run_connection; reflexivity.
Qed.

(** [restore] checks before it touches anything: for a path that names no
    file, and for a file that is no database, it throws its own error,
    and the files and the open connection are as they were. *)
Theorem restore_refuses_a_bad_file (backupFile : string) (c : Connection Data) :
  (fs c !! backupFile = None ->
   restore Data dbPath empty_database backupFile c
   = Outcome (Throw (JsError ("Backup file not found: " +:+ backupFile))) c [])
  /\ (fs c !! backupFile = Some Garbage ->
      restore Data dbPath empty_database backupFile c
      = Outcome (Throw (JsError "Backup file is corrupted")) c []).
Proof.
  split; intros Hfile; destruct c as [files connected]; cbn [fs] in *;
    run_connection; reflexivity.
Qed.


(** [performRestore] keeps what it replaces: when it returns, the database
    is the one of the given file, the database it replaced lies in the
    backup directory under the new name, and the connection is closed;
    [restore] from that name brings the replaced database back. *)
Theorem performRestore_keeps_the_replaced_database
    (timestamp backupFile : string) (d0 d1 : Data) (c : Connection Data) :
  fs c !! dbPath = Some (Sqlite d0) ->
  fs c !! backupFile = Some (Sqlite d1) ->
  path_join backupPath (backup_filename timestamp) <> dbPath ->
  path_join backupPath (backup_filename timestamp) <> backupFile ->
  let current := path_join backupPath (backup_filename timestamp) in
  let o := performRestore Data dbPath backupPath path_join empty_database
                          file_size sha256_hex timestamp backupFile c in
  value o = Ok tt
  /\ fs (final o) !! dbPath = Some (Sqlite d1)
  /\ fs (final o) !! current = Some (Sqlite d0)
  /\ isConnected (final o) = false
  /\ fs (final (restore Data dbPath empty_database current (final o))) !! dbPath
     = Some (Sqlite d0).
Proof.
  intros Hlive Hfile Hne1 Hne2 current o. subst o.
  set (c1 := mkConnection (<[current := Sqlite d0]> (fs c)) true).
  assert (Hrun : performRestore Data dbPath backupPath path_join empty_database
                   file_size sha256_hex timestamp backupFile c
                 = Outcome (Ok tt)
                     (mkConnection (<[dbPath := Sqlite d1]> (fs c1)) false) []).
  { assert (Hcopy : fs c1 !! backupFile = Some (Sqlite d1)).
    { subst c1. cbn [fs]. rewrite lookup_insert_ne by exact Hne2. exact Hfile. }
    unfold performRestore.
    rewrite (bind_returns _ _ c (mkConnection (fs c) true) tt)
      by (unfold initializeConnection; now rewrite Hlive).
    erewrite (bind_returns _ _ _ c1)
      by (unfold backup; cbn [fs isConnected]; rewrite Hlive; reflexivity).
    rewrite (bind_returns _ _ c1 _ tt (restore_installs _ _ _ Hcopy)).
    reflexivity. }
  rewrite Hrun. cbn [value final fs isConnected].
  assert (Hcur : <[dbPath := Sqlite d1]> (fs c1) !! current = Some (Sqlite d0)).
  { subst c1. cbn [fs]. rewrite lookup_insert_ne by (intros H; apply Hne1; now symmetry).
    apply lookup_insert_eq. }
  split; [reflexivity|]. split; [apply lookup_insert_eq|]. split; [exact Hcur|].
  split; [reflexivity|].
  rewrite (restore_installs current d0); [|exact Hcur].
  cbn [final fs]. apply lookup_insert_eq.
Qed.
End FileExtras.

Lemma prefix_append (p rest : string) : String.prefix p (p +:+ rest) = true.
Proof.
  induction p as [|a p IH]; [destruct rest; reflexivity|].
  change (String.prefix (String a p) (String a (p +:+ rest)) = true).
  cbn [String.prefix]. destruct (ascii_dec a a) as [_|Hne]; [exact IH | congruence].
Qed.

Lemma endsWith_append (a q : string) : Files.endsWith (a +:+ q) q = true.
Proof.
  induction a as [|x a IH].
  - change (Files.endsWith q q = true). destruct q; cbn [Files.endsWith];
      rewrite String.eqb_refl; reflexivity.
  - change (Files.endsWith (String x (a +:+ q)) q = true).
    cbn [Files.endsWith]. rewrite IH. apply orb_true_r.
Qed.

Lemma in_unlinked (dir : list Files.Entry) (cutoffDate : Z) (file : string) :
  In file (Files.unlinked dir cutoffDate)
  <-> exists mtime, In (file, mtime) dir
                    /\ Files.is_backup_name file = true /\ mtime < cutoffDate.
Proof.
  unfold Files.unlinked, Files.backupFiles. rewrite in_map_iff. split.
  - intros ([name mtime] & <- & Hin). apply List.filter_In in Hin as [Hin Hold].
    apply list_elem_of_In in Hin.
    rewrite (merge_sort_Permutation Files.newer_first) in Hin.
    apply list_elem_of_In, List.filter_In in Hin as [Hin Hname].
    exists mtime. cbn in *. repeat split; try assumption. now apply Z.ltb_lt.
  - intros (mtime & Hin & Hname & Hold). exists (file, mtime). split; [reflexivity|].
    apply List.filter_In. split; [|now apply Z.ltb_lt].
    apply list_elem_of_In. rewrite (merge_sort_Permutation Files.newer_first).
    apply list_elem_of_In, List.filter_In. split; assumption.
Qed.

(** Retention.  Every name [backup] gives a file passes the test
    [cleanupOldBackups] applies.  In a directory, whose names are distinct,
    the files that remain are exactly those that are not backups by name or
    are not older than the cut-off; a second pass removes nothing more. *)
Theorem cleanupOldBackups_removes_old_backups_only
    (dir : list Files.Entry) (cutoffDate : Z) :
  List.NoDup (map fst dir) ->
  (forall timestamp, Files.is_backup_name (Files.backup_filename timestamp) = true)
  /\ (forall f, In f (Files.cleanupOldBackups dir cutoffDate)
                <-> In f dir
                    /\ (Files.is_backup_name (fst f) = false \/ cutoffDate <= snd f))
  /\ Files.cleanupOldBackups (Files.cleanupOldBackups dir cutoffDate) cutoffDate
     = Files.cleanupOldBackups dir cutoffDate.
Proof.
  intros Hnames.
  assert (Hkept : forall f, In f dir ->
            existsb (String.eqb (fst f)) (Files.unlinked dir cutoffDate) = true
            <-> Files.is_backup_name (fst f) = true /\ snd f < cutoffDate).
  { intros [name mtime] Hin. cbn [fst snd]. rewrite existsb_exists. split.
    - intros (x & Hx & Heq). apply String.eqb_eq in Heq. subst x.
      apply in_unlinked in Hx as (mtime' & Hin' & Hname & Hold).
      assert (mtime' = mtime) as ->; [|auto].
      clear -Hnames Hin Hin'. induction dir as [|[n m] rest IH]; [destruct Hin|].
      cbn in Hnames. apply List.NoDup_cons_iff in Hnames as [Hfresh Hnames].
      destruct Hin as [Hin|Hin], Hin' as [Hin'|Hin'].
      + congruence.
      + exfalso. apply Hfresh. injection Hin as -> _.
        apply in_map_iff. exists (name, mtime'). split; [reflexivity | assumption].
      + exfalso. apply Hfresh. injection Hin' as -> _.
        apply in_map_iff. exists (name, mtime). split; [reflexivity | assumption].
      + now apply IH.
    - intros [Hname Hold]. exists name. split; [|apply String.eqb_refl].
      apply in_unlinked. eauto. }
  assert (Hin : forall f, In f (Files.cleanupOldBackups dir cutoffDate)
                <-> In f dir
                    /\ (Files.is_backup_name (fst f) = false \/ cutoffDate <= snd f)).
  { intros f. unfold Files.cleanupOldBackups. rewrite List.filter_In. split.
    - intros [Hf Hkeep]. split; [assumption|].
      apply negb_true_iff in Hkeep.
      destruct (Files.is_backup_name (fst f)) eqn:Hname; [|now left].
      right. destruct (Z_lt_le_dec (snd f) cutoffDate) as [Hold|]; [|assumption].
      exfalso. assert (existsb (String.eqb (fst f)) (Files.unlinked dir cutoffDate) = true)
        by (apply Hkept; auto). congruence.
    - intros [Hf Hcond]. split; [assumption|]. apply negb_true_iff.
      destruct (existsb _ _) eqn:E; [|reflexivity].
      apply Hkept in E as [Hname Hold]; [|assumption].
      destruct Hcond as [Hcond|Hcond]; [congruence | lia]. }
  split; [|split; [exact Hin|]].
  - intros timestamp. unfold Files.is_backup_name, Files.backup_filename, Files.startsWith.
    rewrite prefix_append. cbn [andb].
    rewrite <- string_app_assoc. apply endsWith_append.
  - unfold Files.cleanupOldBackups at 1.
    set (kept := Files.cleanupOldBackups dir cutoffDate).
    apply filter_all.
    intros f Hf. apply negb_true_iff. destruct (existsb _ _) eqn:E; [|reflexivity].
    apply existsb_exists in E as (x & Hx & Heq). apply String.eqb_eq in Heq. subst x.
    apply in_unlinked in Hx as (mtime & Hin' & Hname & Hold).
    apply Hin in Hin' as [_ [Hcond|Hcond]]; cbn [fst snd] in *; [congruence | lia].
Qed.

(** ** Authorization *)

Section AuthExtras.

Variable getToken : string -> result Cal.Credentials.
Variable db_storeTokens : Cal.Credentials -> result unit.

(** An authorization that went through outlives the process: the tokens
    Google gave for the code are the client's credentials and the row of
    the table, no request to the calendar was made, and a service that is
    constructed afterwards starts with these credentials. *)
Theorem authorization_survives_a_restart
    (code : string) (tokens : Cal.Credentials) (s : Cal.Service) :
  getToken code = Ok tokens ->
  db_storeTokens tokens = Ok tt ->
  let o := Auth.handleAuthCallback getToken db_storeTokens code s in
  value o = Ok tt
  /\ Cal.auth (final o) = Some tokens
  /\ Cal.auth_tokens (final o) = Some tokens
  /\ Cal.requests (final o) = Cal.requests s
  /\ Cal.auth (final (Auth.initializeAuth (Auth.restarted (final o)))) = Some tokens.
Proof.
  intros Hcode Hstore o. subst o.
  unfold Auth.handleAuthCallback, bind, Cal.setCredentials, Cal.storeTokens, stmt.
  rewrite Hcode. cbn [value final commits]. rewrite Hstore.
  cbn [value final commits Cal.auth Cal.auth_tokens Cal.requests].
  repeat split.
Qed.

(** [handleAuthCallback] has no handler of its own.  A code Google refuses
    fails with Google's error and changes nothing.  When the tokens cannot
    be stored the error is the store's, not the authentication error; the
    client holds the new tokens all the same, and a service that is
    constructed afterwards starts with what the table held before. *)
Theorem failed_callback_fails_as_it_is (code : string) (s : Cal.Service) (e : Error) :
  (getToken code = Throw e ->
   Auth.handleAuthCallback getToken db_storeTokens code s = Outcome (Throw e) s [])
  /\ (forall tokens,
        getToken code = Ok tokens ->
        db_storeTokens tokens = Throw e ->
        let o := Auth.handleAuthCallback getToken db_storeTokens code s in
        value o = Throw e
        /\ commits o = []
        /\ Cal.auth (final o) = Some tokens
        /\ Cal.auth_tokens (final o) = Cal.auth_tokens s
        /\ Cal.auth (final (Auth.initializeAuth (Auth.restarted (final o))))
           = Cal.auth_tokens s).
Proof.
  split.
  - intros Hcode. unfold Auth.handleAuthCallback, bind. rewrite Hcode. reflexivity.
  - intros tokens Hcode Hstore o. subst o.
    unfold Auth.handleAuthCallback, bind, Cal.setCredentials, Cal.storeTokens, stmt.
    rewrite Hcode. cbn [value final commits]. rewrite Hstore.
    cbn [value final commits Cal.auth Cal.auth_tokens Cal.requests].
    repeat split. unfold Auth.initializeAuth, Auth.restarted.
    cbn [Cal.auth_tokens]. destruct (Cal.auth_tokens s); reflexivity.
Qed.

(** The route [/auth/callback] always answers, with 400, 200 or 500, and
    with 200 exactly when there was a code, Google gave tokens for it and
    they were stored; they are then the row of the table.  A request
    without a code changes nothing. *)
Theorem callback_route_answers (query : option string) (s : Cal.Service) :
  let o := Auth.auth_callback_route getToken db_storeTokens query s in
  (exists status, value o = Ok status /\ In status [400; 200; 500])
  /\ (value o = Ok 200
      <-> exists code tokens,
            query = Some code /\ code <> EmptyString
            /\ getToken code = Ok tokens /\ db_storeTokens tokens = Ok tt
            /\ Cal.auth_tokens (final o) = Some tokens)
  /\ (value o = Ok 400 <-> query = None \/ query = Some EmptyString)
  /\ (value o = Ok 400 -> final o = s).
Proof.
  intros o. subst o. unfold Auth.auth_callback_route.
  destruct query as [[|c code]|].
  - cbn [ret value final]. split; [exists 400; split; [reflexivity | now left]|].
    split; [split; [discriminate | intros (c & t & [= <-] & Hne & _); congruence]|].
    split; [split; auto|reflexivity].
  - set (code' := String c code).
    unfold try_catch, bind, Auth.handleAuthCallback, bind, Cal.setCredentials,
      Cal.storeTokens, stmt, ret.
    destruct (getToken code') as [tokens|e] eqn:Hcode; cbn [value final commits].
    + destruct (db_storeTokens tokens) as [[]|e] eqn:Hstore;
        cbn [value final commits Cal.auth_tokens].
      * split; [exists 200; split; [reflexivity | right; now left]|].
        split; [split; [intros _; exists code', tokens; repeat split; try assumption;
                        discriminate | reflexivity]|].
        split; [split; [discriminate | intros [H|H]; discriminate]|discriminate].
      * split; [exists 500; split; [reflexivity | right; right; now left]|].
        split; [split; [discriminate
                       | intros (c' & t & [= <-] & _ & Hc & Hs & _); congruence]|].
        split; [split; [discriminate | intros [H|H]; discriminate]|discriminate].
    + split; [exists 500; split; [reflexivity | right; right; now left]|].
      split; [split; [discriminate
                     | intros (c' & t & [= <-] & _ & Hc & _); congruence]|].
      split; [split; [discriminate | intros [H|H]; discriminate]|discriminate].
  - cbn [ret value final]. split; [exists 400; split; [reflexivity | now left]|].
    split; [split; [discriminate | intros (c & t & [=] & _)]|].
    split; [split; auto|reflexivity].
Qed.

End AuthExtras.

(** ** The statistics *)

Section StatisticsExtras.
Import Stats Queries.

Lemma count_status_split (rows : list Booking) :
  length rows
  = (count_status Active rows + count_status Cancelled rows
     + count_status Completed rows)%nat.
Proof.
  unfold count_status. induction rows as [|r rows IH]; [reflexivity|].
  cbn [List.filter length]. destruct (status r); cbn [Status_eqb length]; lia.
Qed.

Lemma count_status_le (v : Status) (rows : list Booking) :
  (count_status v rows <= length rows)%nat.
Proof.
  unfold count_status. induction rows as [|r rows IH]; [apply le_n|].
  cbn [List.filter length]. destruct (Status_eqb _ _); cbn [length]; lia.
Qed.

Lemma remove_dups_length_le (l : list string) :
  (length (remove_dups l) <= length l)%nat.
Proof.
  induction l as [|x l IH]; [apply le_n|].
  cbn [remove_dups length]. destruct (decide_rel _ _ _); cbn [length].
  - apply le_S, IH.
  - apply le_n_S, IH.
Qed.

Lemma remove_dups_nil_inv (l : list string) : remove_dups l = [] -> l = [].
Proof.
  destruct l as [|x l]; [reflexivity|]. intros H.
  assert (Hx : x ∈ remove_dups (x :: l)) by (apply elem_of_remove_dups; left).
  rewrite H in Hx. inversion Hx.
Qed.

(** What [getBookingStatistics] returns adds up, whatever the table holds
    and whichever rows the cut-off lets through: the three status counts
    sum to the total, there are no more users than bookings and none only
    when there is no booking, and the completion rate is NULL exactly when
    no row was counted and otherwise lies between 0 and 1.  The store is
    not changed. *)
Theorem getBookingStatistics_adds_up (since : Z -> bool) (s : Store) :
  exists stats,
    getBookingStatistics since s = Outcome (Ok stats) s []
    /\ totalBookings stats
       = (activeBookings stats + cancelledBookings stats + completedBookings stats)%nat
    /\ (uniqueUsers stats <= totalBookings stats)%nat
    /\ (uniqueUsers stats = 0%nat <-> totalBookings stats = 0%nat)
    /\ (completionRate stats = None <-> totalBookings stats = 0%nat)
    /\ forall q, completionRate stats = Some q ->
                 QArith_base.Qle (QArith_base.Qmake 0 1) q
                 /\ QArith_base.Qle q (QArith_base.Qmake 1 1).
Proof.
  eexists. split; [reflexivity|]. unfold statistics.
  set (rows := List.filter _ (bookings s)).
  cbn [totalBookings activeBookings cancelledBookings completedBookings uniqueUsers
       completionRate].
  split; [apply count_status_split|]. split.
  { etransitivity; [apply remove_dups_length_le|]. now rewrite length_map. }
  split.
  { split; intros H.
    - apply length_zero_iff_nil, remove_dups_nil_inv in H.
      apply (f_equal (@length _)) in H. now rewrite length_map in H.
    - apply length_zero_iff_nil in H. now rewrite H. }
  unfold average_completed. pose proof (count_status_le Completed rows) as Hle.
  destruct (length rows) as [|n] eqn:Hn.
  - split; [split; reflexivity|]. discriminate.
  - split; [split; discriminate|]. intros q [= <-].
    unfold QArith_base.Qle. cbn [QArith_base.Qnum QArith_base.Qden].
    rewrite Zpos_P_of_succ_nat. lia.
Qed.

Lemma filter_map_comm {A} (p : A -> bool) (f : A -> A) (l : list A) :
  (forall x, p (f x) = p x) ->
  List.filter p (map f l) = map f (List.filter p l).
Proof.
  intros Hp. induction l as [|x l IH]; [reflexivity|].
  cbn [map List.filter]. rewrite Hp. destruct (p x); cbn [map]; now rewrite IH.
Qed.

(** The statistics before and after the scheduler's sweep.  Of the rows
    the cut-off lets through, those the sweep selects move from active to
    completed; the cancelled count, the total and the number of users stay
    as they were, and no more rows move than the sweep reports as changed. *)
Theorem statistics_after_the_sweep
    (since : Z -> bool) (currentDate currentTime : string) (s : Store) :
  let o := markPastSessionsCompleted currentDate currentTime s in
  let before := statistics since (bookings s) in
  let after := statistics since (bookings (final o)) in
  let moved := length (List.filter (swept currentDate currentTime)
                         (List.filter (fun r => since (createdAt r)) (bookings s))) in
  (activeBookings after + moved)%nat = activeBookings before
  /\ completedBookings after = (completedBookings before + moved)%nat
  /\ cancelledBookings after = cancelledBookings before
  /\ totalBookings after = totalBookings before
  /\ uniqueUsers after = uniqueUsers before
  /\ forall changes, value o = Ok changes -> (moved <= changes)%nat.
Proof.
  intros o before after moved. subst o before after moved.
  unfold markPastSessionsCompleted, stmt. cbn [value final bookings].
  unfold statistics.
  cbn [totalBookings activeBookings cancelledBookings completedBookings uniqueUsers].
  set (f := fun r : Booking => if swept currentDate currentTime r then _ else r).
  assert (Hcreated : forall r, since (createdAt (f r)) = since (createdAt r)).
  { intros r. unfold f. now destruct (swept _ _ r). }
  assert (Huser : forall r, telegramUserId (f r) = telegramUserId r).
  { intros r. unfold f. now destruct (swept _ _ r). }
  rewrite (filter_map_comm (fun r => since (createdAt r)) f _ Hcreated).
  assert (Hchanges :
            (length (List.filter (swept currentDate currentTime)
                       (List.filter (fun r => since (createdAt r)) (bookings s)))
             <= length (List.filter (swept currentDate currentTime) (bookings s)))%nat).
  { clear. induction (bookings s) as [|r table IH]; [apply le_n|].
    cbn [List.filter]. destruct (since (createdAt r)); cbn [List.filter];
      destruct (swept _ _ r); cbn [length]; lia. }
  revert Hchanges.
  generalize (List.filter (fun r => since (createdAt r)) (bookings s)) as rows.
  intros rows Hchanges.
  assert (Hcounts :
            (count_status Active (map f rows)
             + length (List.filter (swept currentDate currentTime) rows))%nat
            = count_status Active rows
            /\ count_status Completed (map f rows)
               = (count_status Completed rows
                  + length (List.filter (swept currentDate currentTime) rows))%nat
            /\ count_status Cancelled (map f rows) = count_status Cancelled rows).
  { clear Hchanges. unfold count_status. induction rows as [|r rows (IH1 & IH2 & IH3)];
      [repeat split|].
    cbn [map List.filter].
    assert (Hr : (swept currentDate currentTime r = true
                  /\ status r = Active /\ status (f r) = Completed)
                 \/ (swept currentDate currentTime r = false /\ f r = r)).
    { unfold f, swept. destruct (status r) eqn:Hst; cbn [Status_eqb andb]; auto.
      destruct (is_past currentDate currentTime r); auto. }
    destruct Hr as [(Hsw & Hst & Hst') | (Hsw & Hf)].
    - rewrite Hsw, Hst, Hst'. cbn [Status_eqb length]. repeat split; lia.
    - rewrite Hsw, Hf. destruct (status r); cbn [Status_eqb length]; repeat split; lia. }
  destruct Hcounts as (H1 & H2 & H3).
  split; [exact H1|]. split; [exact H2|]. split; [exact H3|].
  split; [now rewrite length_map|]. split.
  { rewrite map_map. now rewrite (map_ext _ _ Huser). }
  intros changes [= <-]. exact Hchanges.
Qed.

End StatisticsExtras.

(** ** The keyboards *)

Section BotExtras.
Import Bot.

Variable date_text : Cal.Date -> string.

Lemma split_from_plain (piece s : string) :
  no_underscore s = true -> split_from piece s = [piece +:+ s].
Proof.
  revert piece. induction s as [|c s IH]; intros piece Hs.
  - cbn [split_from]. f_equal. clear. induction piece as [|x piece IH]; [reflexivity|].
    change (String x piece = String x (piece +:+ EmptyString)). now rewrite <- IH.
  - cbn [no_underscore] in Hs. apply andb_true_iff in Hs as [Hc Hs].
    apply negb_true_iff in Hc. cbn [split_from]. rewrite Hc.
    rewrite (IH _ Hs), string_app_assoc. reflexivity.
Qed.

Lemma split_from_underscore (piece a rest : string) :
  no_underscore a = true ->
  split_from piece (a +:+ String "_" rest) = (piece +:+ a) :: split_from EmptyString rest.
Proof.
  revert piece. induction a as [|c a IH]; intros piece Ha.
  - change (split_from piece (String "_" rest)
            = (piece +:+ EmptyString) :: split_from EmptyString rest).
    cbn [split_from]. change (Ascii.eqb "_" "_") with true. cbv iota. f_equal.
    clear. induction piece as [|x piece IH]; [reflexivity|].
    change (String x piece = String x (piece +:+ EmptyString)). now rewrite <- IH.
  - cbn [no_underscore] in Ha. apply andb_true_iff in Ha as [Hc Ha].
    apply negb_true_iff in Hc.
    change (split_from piece (String c (a +:+ String "_" rest))
            = (piece +:+ String c a) :: split_from EmptyString rest).
    cbn [split_from]. rewrite Hc.
    rewrite (IH _ Ha), string_app_assoc. reflexivity.
Qed.

Lemma In_firstn_slots {A} (n : nat) (l : list A) (x : A) : In x (firstn n l) -> In x l.
Proof.
  revert l. induction n as [|n IH]; intros l Hin; [destruct Hin|].
  destruct l as [|y l]; [destruct Hin|]. destruct Hin as [<-|Hin]; [now left|].
  right. now apply IH.
Qed.

(** What [handleBookSlot] reads in the data of the buttons the bot makes.
    With dates written without an underscore, a button of the slot
    keyboard gives the handler the date of its slot and no time, and a
    button of the day keyboard gives it the word [day] for the date and the
    date for the time; a keyboard has at most twenty such buttons, and
    the button of the main menu last. *)
Theorem buttons_give_no_time (slots : list Cal.TimeSlot) (days : list Cal.DayTimeSlot) :
  (forall d, no_underscore (date_text d) = true) ->
  (exists shown,
      createSlotsKeyboard date_text slots = shown ++ ["main_menu"]
      /\ (length shown <= 20)%nat
      /\ forall data, In data shown ->
           exists slot, In slot slots
                        /\ handleBookSlot_fields data
                           = (Some (date_text (Cal.ts_date slot)), None))
  /\ (exists shown,
        createDaySlotsKeyboard date_text days = shown ++ ["main_menu"]
        /\ (length shown <= 20)%nat
        /\ forall data, In data shown ->
             exists slot, In slot days
                          /\ handleBookSlot_fields data
                             = (Some "day", Some (date_text (Cal.ds_date slot)))).
Proof.
  intros Hdates. split.
  - eexists. split; [reflexivity|]. split.
    + rewrite length_map, length_firstn. lia.
    + intros data Hin. apply in_map_iff in Hin as (slot & <- & Hin).
      exists slot. split; [eapply In_firstn_slots; exact Hin|].
      unfold handleBookSlot_fields, split.
      change ("book_" +:+ date_text (Cal.ts_date slot))
        with ("book" +:+ String "_" (date_text (Cal.ts_date slot))).
      rewrite (split_from_underscore _ "book" _ eq_refl).
      rewrite (split_from_plain _ _ (Hdates _)). reflexivity.
  - eexists. split; [reflexivity|]. split.
    + rewrite length_map, length_firstn. lia.
    + intros data Hin. apply in_map_iff in Hin as (slot & <- & Hin).
      exists slot. split; [eapply In_firstn_slots; exact Hin|].
      unfold handleBookSlot_fields, split.
      change ("book_day_" +:+ date_text (Cal.ds_date slot))
        with ("book" +:+ String "_" ("day" +:+ String "_" (date_text (Cal.ds_date slot)))).
      rewrite (split_from_underscore _ "book" _ eq_refl).
      rewrite (split_from_underscore _ "day" _ eq_refl).
      rewrite (split_from_plain _ _ (Hdates _)). reflexivity.
Qed.

End BotExtras.

(** ** The further properties at sample data *)

Lemma single_day_listings_are_exact_witness :
  exists items,
    one_event_tuesday_9 (Cal.moment_of_date (Cal.ymd 2024 6 11)) None = Ok items
    /\ forall slot,
        In slot (map (fun hour => Cal.mkTimeSlot (Cal.ymd 2024 6 11) (hour, 0) true)
                     [8; 10; 11; 14; 15; 16; 17; 18; 19])
        <-> exists hour,
              In hour Cal.workingHours
              /\ slot = Cal.mkTimeSlot (Cal.ymd 2024 6 11) (hour, 0) true
              /\ Cal.valueOf monday_10_00_30 <= Cal.slot_instant slot
              /\ (Cal.ymd 2024 6 11, (hour, 0))
                   ∉ Cal.busy_set Cal.format_key items.
Proof.
  refine (proj1 (single_day_listings_are_exact token_endpoint_up store_ok
                   one_event_tuesday_9 monday_10_00_30 (Cal.ymd 2024 6 11) authorized)
                _ _).
  vm_compute. reflexivity.
Defined.

Lemma getAvailableSlots_is_exact_witness :
  exists items,
    no_events monday_10_00_30 (Some (Cal.add_days 1 monday_10_00_30)) = Ok items
    /\ forall slot,
        In slot (map (fun hour => Cal.mkTimeSlot (Cal.ymd 2024 6 10) (hour, 0) true)
                     [10; 11; 14; 15; 16; 17; 18; 19])
        <-> exists day hour,
              (day < 1)%nat
              /\ In hour Cal.workingHours
              /\ slot = Cal.mkTimeSlot (Cal.m_day monday_10_00_30 + Z.of_nat day)
                                       (hour, 0) true
              /\ Cal.m_day monday_10_00_30 <= Cal.m_day monday_10_00_30 + Z.of_nat day
              /\ Cal.weekday_of (Cal.m_day monday_10_00_30 + Z.of_nat day) <> 0
              /\ ((Cal.m_day monday_10_00_30 + Z.of_nat day, (hour, 0))
                    ∉ Cal.busy_set Cal.format_key items)
              /\ Cal.valueOf monday_10_00_30
                 <= Cal.valueOf (Cal.mkMoment (Cal.m_day monday_10_00_30 + Z.of_nat day)
                                              hour 0
                                              (Cal.m_second monday_10_00_30)
                                              (Cal.m_ms monday_10_00_30)).
Proof.
  refine (getAvailableSlots_is_exact token_endpoint_up store_ok no_events
            monday_10_00_30 (fun _ => monday_10_00_30) 1%nat authorized _ _).
  vm_compute. reflexivity.
Defined.

Lemma getAvailableSlots_within_a_minute_witness :
  Cal.valueOf monday_10_00_30 - 60000
  < Cal.slot_instant (Cal.mkTimeSlot (Cal.ymd 2024 6 10) (10, 0) true).
Proof.
  refine (getAvailableSlots_within_a_minute token_endpoint_up store_ok no_events
            monday_10_00_30 (fun _ => monday_10_00_30) 1%nat authorized
            (map (fun hour => Cal.mkTimeSlot (Cal.ymd 2024 6 10) (hour, 0) true)
                 [10; 11; 14; 15; 16; 17; 18; 19])
            (Cal.mkTimeSlot (Cal.ymd 2024 6 10) (10, 0) true) _ _ _).
  - intros day. unfold time_in_range. cbn. lia.
  - vm_compute. reflexivity.
  - left. reflexivity.
Defined.

Lemma getAvailableSlots_ascending_witness :
  StronglySorted earlier
    (map (fun hour => Cal.mkTimeSlot (Cal.ymd 2024 6 10) (hour, 0) true)
         [10; 11; 14; 15; 16; 17; 18; 19]
     ++ map (fun hour => Cal.mkTimeSlot (Cal.ymd 2024 6 11) (hour, 0) true)
            [8; 10; 11; 14; 15; 16; 17; 18; 19])
  /\ NoDup
       (map (fun hour => Cal.mkTimeSlot (Cal.ymd 2024 6 10) (hour, 0) true)
            [10; 11; 14; 15; 16; 17; 18; 19]
        ++ map (fun hour => Cal.mkTimeSlot (Cal.ymd 2024 6 11) (hour, 0) true)
               [8; 10; 11; 14; 15; 16; 17; 18; 19]).
Proof.
  refine (getAvailableSlots_ascending token_endpoint_up store_ok one_event_tuesday_9
            monday_10_00_30 (fun _ => monday_10_00_30) 2%nat authorized _ _ _).
  - intros d1 d2 _. cbn. lia.
  - vm_compute. reflexivity.
Defined.

Lemma calendar_answer_is_passed_on_witness :
  Cal.createEvent token_endpoint_up store_ok insert_ok tennis_session authorized
  = Outcome (Ok "evt1")
      (Cal.sent (Cal.EventsInsert tennis_session)
                (Cal.refreshed (Cal.mkCredentials "access-2" "refresh-1"
                                  (Cal.valueOf monday_10_00_30 + 7200000))
                               authorized))
      [Cal.refreshed (Cal.mkCredentials "access-2" "refresh-1"
                        (Cal.valueOf monday_10_00_30 + 7200000))
                     authorized].
Proof.
  exact (proj1 (calendar_answer_is_passed_on token_endpoint_up store_ok insert_ok
                  patch_ok delete_gone authorized
                  (Cal.mkCredentials "access-2" "refresh-1"
                     (Cal.valueOf monday_10_00_30 + 7200000))
                  eq_refl eq_refl)
               tennis_session).
Defined.

Lemma token_store_failure_is_an_authentication_error_witness :
  Cal.createEvent token_endpoint_up store_down insert_ok tennis_session authorized
  = Outcome (Throw Cal.auth_failed)
      (Cal.mkService
         (Some (Cal.mkCredentials "access-2" "refresh-1"
                  (Cal.valueOf monday_10_00_30 + 7200000)))
         (Some fresh_credentials) [Cal.RefreshAccessToken])
      [].
Proof.
  exact (proj1 (proj2 (proj2 (proj2
           (token_store_failure_is_an_authentication_error token_endpoint_up store_down
              no_events insert_ok patch_ok delete_gone monday_10_00_30
              (fun _ => monday_10_00_30) authorized
              (Cal.mkCredentials "access-2" "refresh-1"
                 (Cal.valueOf monday_10_00_30 + 7200000))
              (SqliteError "SQLITE_BUSY") eq_refl eq_refl))))
           tennis_session).
Defined.

Lemma authorization_survives_a_restart_witness :
  value (Auth.handleAuthCallback code_accepted store_ok "4/0AX4" unauthorized) = Ok tt
  /\ Cal.auth (final (Auth.initializeAuth
                        (Auth.restarted
                           (final (Auth.handleAuthCallback code_accepted store_ok
                                     "4/0AX4" unauthorized)))))
     = Some fresh_credentials.
Proof.
  destruct (authorization_survives_a_restart code_accepted store_ok "4/0AX4"
              fresh_credentials unauthorized eq_refl eq_refl)
    as (Hvalue & _ & _ & _ & Hrestart).
  split; [exact Hvalue | exact Hrestart].
Defined.

Lemma failed_callback_fails_as_it_is_witness :
  Auth.handleAuthCallback code_refused store_ok "4/0AX4" authorized
  = Outcome (Throw (JsError "invalid_grant")) authorized []
  /\ value (Auth.handleAuthCallback code_accepted store_down "4/0AX4" unauthorized)
     = Throw (SqliteError "SQLITE_BUSY")
  /\ Cal.auth (final (Auth.initializeAuth
                        (Auth.restarted
                           (final (Auth.handleAuthCallback code_accepted store_down
                                     "4/0AX4" unauthorized)))))
     = None.
Proof.
  split.
  - exact (proj1 (failed_callback_fails_as_it_is code_refused store_ok "4/0AX4"
                    authorized (JsError "invalid_grant"))
                 eq_refl).
  - destruct (proj2 (failed_callback_fails_as_it_is code_accepted store_down "4/0AX4"
                       unauthorized (SqliteError "SQLITE_BUSY"))
                    fresh_credentials eq_refl eq_refl)
      as (Hvalue & _ & _ & _ & Hrestart).
    split; [exact Hvalue | exact Hrestart].
Defined.

Lemma restore_refuses_a_bad_file_witness :
  Files.restore Store "data/tennis_bookings.db" empty_store "data/backups/missing.db"
                sample_connection
  = Outcome (Throw (JsError "Backup file not found: data/backups/missing.db"))
            sample_connection []
  /\ Files.restore Store "data/tennis_bookings.db" empty_store "data/backups/notes.txt"
                   sample_connection
     = Outcome (Throw (JsError "Backup file is corrupted")) sample_connection [].
Proof.
  split.
  - refine (proj1 (restore_refuses_a_bad_file Store "data/tennis_bookings.db" empty_store
                     "data/backups/missing.db" sample_connection) _).
    vm_compute. reflexivity.
  - refine (proj2 (restore_refuses_a_bad_file Store "data/tennis_bookings.db" empty_store
                     "data/backups/notes.txt" sample_connection) _).
    vm_compute. reflexivity.
Defined.


Lemma performRestore_keeps_the_replaced_database_witness :
  Files.fs (final (Files.performRestore Store "data/tennis_bookings.db" "data/backups/"
                     sample_join empty_store sample_size sample_checksum
                     "2024-06-10T10-00-30-000Z"
                     "data/backups/tennis_bookings_2024-06-01T08-00-00-000Z.db"
                     sample_connection))
    !! "data/tennis_bookings.db"
  = Some (Files.Sqlite empty_store)
  /\ Files.fs (final (Files.performRestore Store "data/tennis_bookings.db" "data/backups/"
                        sample_join empty_store sample_size sample_checksum
                        "2024-06-10T10-00-30-000Z"
                        "data/backups/tennis_bookings_2024-06-01T08-00-00-000Z.db"
                        sample_connection))
       !! sample_join "data/backups/" (Files.backup_filename "2024-06-10T10-00-30-000Z")
     = Some (Files.Sqlite store_1).
Proof.
  destruct (performRestore_keeps_the_replaced_database Store "data/tennis_bookings.db"
              "data/backups/" sample_join empty_store sample_size sample_checksum
              "2024-06-10T10-00-30-000Z"
              "data/backups/tennis_bookings_2024-06-01T08-00-00-000Z.db"
              store_1 empty_store sample_connection)
    as (_ & Hlive & Hkept & _).
  - vm_compute. reflexivity.
  - vm_compute. reflexivity.
  - vm_compute. discriminate.
  - vm_compute. discriminate.
  - split; [exact Hlive | exact Hkept].
Defined.

Lemma cleanupOldBackups_removes_old_backups_only_witness :
  Files.is_backup_name (Files.backup_filename "2024-06-10T10-00-30-000Z") = true
  /\ (In ("tennis_bookings_2024-04-01T08-00-00-000Z.db", 100)
         (Files.cleanupOldBackups sample_directory 200)
      <-> In ("tennis_bookings_2024-04-01T08-00-00-000Z.db", 100) sample_directory
          /\ (Files.is_backup_name "tennis_bookings_2024-04-01T08-00-00-000Z.db" = false
              \/ 200 <= 100)).
Proof.
  destruct (cleanupOldBackups_removes_old_backups_only sample_directory 200)
    as (Hname & Hin & _).
  - repeat constructor; cbn; intuition discriminate.
  - split; [apply Hname|]. apply (Hin ("tennis_bookings_2024-04-01T08-00-00-000Z.db", 100)).
Defined.

Lemma buttons_give_no_time_witness :
  (exists shown,
      Bot.createSlotsKeyboard sample_date_text
        [Cal.mkTimeSlot (Cal.ymd 2024 6 10) (10, 0) true;
         Cal.mkTimeSlot (Cal.ymd 2024 6 10) (11, 0) true]
      = shown ++ ["main_menu"]
      /\ (length shown <= 20)%nat
      /\ forall data, In data shown ->
           exists slot,
             In slot [Cal.mkTimeSlot (Cal.ymd 2024 6 10) (10, 0) true;
                      Cal.mkTimeSlot (Cal.ymd 2024 6 10) (11, 0) true]
             /\ Bot.handleBookSlot_fields data
                = (Some (sample_date_text (Cal.ts_date slot)), None))
  /\ (exists shown,
        Bot.createDaySlotsKeyboard sample_date_text
          [Cal.mkDayTimeSlot "60" (Cal.ymd 2024 6 10) true]
        = shown ++ ["main_menu"]
        /\ (length shown <= 20)%nat
        /\ forall data, In data shown ->
             exists slot,
               In slot [Cal.mkDayTimeSlot "60" (Cal.ymd 2024 6 10) true]
               /\ Bot.handleBookSlot_fields data
                  = (Some "day", Some (sample_date_text (Cal.ds_date slot)))).
Proof.
  refine (buttons_give_no_time sample_date_text
            [Cal.mkTimeSlot (Cal.ymd 2024 6 10) (10, 0) true;
             Cal.mkTimeSlot (Cal.ymd 2024 6 10) (11, 0) true]
            [Cal.mkDayTimeSlot "60" (Cal.ymd 2024 6 10) true] _).
  intros d. unfold sample_date_text. destruct (d =? Cal.ymd 2024 6 10); reflexivity.
Defined.
